(** * Path validation and tolerant patching of the filesystem server

    A shallow embedding of [src/filesystem/file-editor.ts] (classes
    [FileEditor] and [PathUtils]) together with the properties of the
    specification that concern them.

    Conventions of the embedding.
    - A JavaScript string is a [string]; a character stands for one code unit
      in the range 0..255.
    - A value thrown by the code is a [thrown]; a computation that may throw
      returns a [result].
    - The asynchronous methods run to completion one after the other, so they
      are functions of the state of the disk: [M disk A].
    - The injected [FileSystemDependencies] ([fs], [path], [os]) are records
      of functions and the imported [createTwoFilesPatch] is a function: the
      classes are written against these interfaces and the tests replace
      them by mocks. *)

From Stdlib Require Import String Ascii List Bool Arith NArith ZArith Lia.
Import ListNotations.
Local Open Scope list_scope.
Local Open Scope string_scope.

(** ** JavaScript string primitives used by the two classes *)

Module Js.

Definition LF : ascii := "010"%char.
Definition CR : ascii := "013"%char.
Definition nl : string := String LF EmptyString.
Definition crlf : string := String CR (String LF EmptyString).

(** [s.startsWith(p)] *)
Definition startsWith (s p : string) : bool := prefix p s.

(** [s.indexOf(t)]: the least position at which [t] occurs in [s]. *)
Fixpoint indexOf (s t : string) : option nat :=
  if prefix t s then Some 0
  else match s with
       | EmptyString => None
       | String _ s' =>
           match indexOf s' t with
           | Some i => Some (S i)
           | None => None
           end
       end.

(** [s.includes(t)] *)
Definition includes (s t : string) : bool :=
  match indexOf s t with Some _ => true | None => false end.

(** [s.slice(n)] *)
Fixpoint slice_from (n : nat) (s : string) : string :=
  match n, s with
  | O, _ => s
  | S n', String _ s' => slice_from n' s'
  | S _, EmptyString => EmptyString
  end.

(** [s.slice(0, n)] *)
Fixpoint slice_to (n : nat) (s : string) : string :=
  match n, s with
  | S n', String c s' => String c (slice_to n' s')
  | _, _ => EmptyString
  end.

(** [c.repeat(n)] for a one-character string [c]. *)
Fixpoint repeat (c : ascii) (n : nat) : string :=
  match n with
  | O => EmptyString
  | S n' => String c (repeat c n')
  end.

(** The expansion of a replacement template by [String.prototype.replace]
    when the pattern is a string (ECMAScript GetSubstitution with no
    captures): [$$] is a dollar sign, [$&] the matched text, [$`] the text
    before the match and [$'] the text after it; any other [$] stands for
    itself. *)
Fixpoint getSubstitution (matched before after template : string) : string :=
  match template with
  | EmptyString => EmptyString
  | String c rest =>
      let literal := String c (getSubstitution matched before after rest) in
      if Ascii.eqb c "$" then
        match rest with
        | String d rest' =>
            let expanded := getSubstitution matched before after rest' in
            if Ascii.eqb d "$" then String "$" expanded
            else if Ascii.eqb d "&" then matched ++ expanded
            else if Ascii.eqb d "`" then before ++ expanded
            else if Ascii.eqb d "'" then after ++ expanded
            else literal
        | EmptyString => literal
        end
      else literal
  end.

(** [s.replace(pattern, replacement)] with two strings: only the first
    occurrence is replaced, by the expansion of [replacement]. *)
Definition replace (s pattern replacement : string) : string :=
  match indexOf s pattern with
  | None => s
  | Some pos =>
      let before := slice_to pos s in
      let after := slice_from (pos + String.length pattern) s in
      before ++ getSubstitution pattern before after replacement ++ after
  end.

(** [s.split(sep)] for a one-character separator [sep]. *)
Fixpoint split (sep : ascii) (s : string) : list string :=
  match s with
  | EmptyString => [EmptyString]
  | String c rest =>
      if Ascii.eqb c sep then EmptyString :: split sep rest
      else match split sep rest with
           | l :: ls => String c l :: ls
           | [] => [String c EmptyString]
           end
  end.

(** [s.split('\n')] *)
Definition split_lines (s : string) : list string := split LF s.

(** [lines.join(sep)] *)
Definition join (sep : string) (lines : list string) : string :=
  String.concat sep lines.

(** The characters matched by [\s] and removed by [trim]: the white space and
    line terminator code units below 256. *)
Definition isWhitespace (c : ascii) : bool :=
  match c with
  | "009" | "010" | "011" | "012" | "013" | " " | "160" => true
  | _ => false
  end%char.

(** [s.trimStart()] *)
Fixpoint trimStart (s : string) : string :=
  match s with
  | EmptyString => EmptyString
  | String c rest => if isWhitespace c then trimStart rest else s
  end.

(** [s.trimEnd()] *)
Fixpoint trimEnd (s : string) : string :=
  match s with
  | EmptyString => EmptyString
  | String c rest =>
      match trimEnd rest with
      | EmptyString => if isWhitespace c then EmptyString else String c EmptyString
      | r => String c r
      end
  end.

(** [s.trim()] *)
Definition trim (s : string) : string := trimEnd (trimStart s).

(** [s.match(/^\s*/)[0]]: the leading white space of [s]. *)
Fixpoint leadingWhitespace (s : string) : string :=
  match s with
  | EmptyString => EmptyString
  | String c rest =>
      if isWhitespace c then String c (leadingWhitespace rest) else EmptyString
  end.

(** A non-empty string is truthy. *)
Definition truthy (s : string) : bool :=
  match s with EmptyString => false | String _ _ => true end.

(** [lines.slice(i, i + n)] *)
Definition slice {A} (i n : nat) (l : list A) : list A := firstn n (skipn i l).

(** [lines.splice(i, n, ...items)] *)
Definition splice {A} (i n : nat) (items l : list A) : list A :=
  (firstn i l ++ items ++ skipn (i + n) l)%list.

(** [lines.map((x, j) => f(x, j))] *)
Fixpoint mapi_from {A B} (j : nat) (f : A -> nat -> B) (l : list A) : list B :=
  match l with
  | [] => []
  | x :: xs => f x j :: mapi_from (S j) f xs
  end.

Definition mapi {A B} (f : A -> nat -> B) (l : list A) : list B := mapi_from 0 f l.

End Js.

(** ** Thrown values, results and the monad of the asynchronous methods *)

(** What a [throw] or a rejected promise carries: an [Error] object with its
    message, or a value that is not an instance of [Error]. *)
Inductive thrown : Type :=
| JsError (message : string)
| NonError (value : string).

Inductive result (A : Type) : Type :=
| Ok (a : A)
| Throw (e : thrown).

Arguments Ok {A} a.
Arguments Throw {A} e.

(** A method that reads or changes the disk and may throw. *)
Definition M (disk A : Type) : Type := disk -> result A * disk.

Definition ret {disk A} (a : A) : M disk A := fun d => (Ok a, d).

Definition throw {disk A} (e : thrown) : M disk A := fun d => (Throw e, d).

Definition bind {disk A B} (m : M disk A) (k : A -> M disk B) : M disk B :=
  fun d =>
    match m d with
    | (Ok a, d') => k a d'
    | (Throw e, d') => (Throw e, d')
    end.

(** [try { body } catch (error) { handler }] *)
Definition tryCatch {disk A} (body : M disk A) (handler : thrown -> M disk A)
  : M disk A :=
  fun d =>
    match body d with
    | (Ok a, d') => (Ok a, d')
    | (Throw e, d') => handler e d'
    end.

(** A query of the disk: it may throw and leaves the disk as it is. *)
Definition query {disk A} (q : disk -> result A) : M disk A :=
  fun d => (q d, d).

(** A pure computation that may throw. *)
Definition lift {disk A} (r : result A) : M disk A := fun d => (r, d).

Notation "x <- m ;; k" := (bind m (fun x => k))
  (at level 61, m at next level, right associativity).

(** ** The injected dependencies *)

(** The part of [fs/promises] the two classes call. [realpath] and [readFile]
    query the disk, [writeFile] is the only operation that changes it. *)
Record FsModule (disk : Type) : Type := {
  realpath : disk -> string -> result string;
  readFile : disk -> string -> result string;
  writeFile : string -> string -> M disk unit
}.

Arguments realpath {disk}.
Arguments readFile {disk}.
Arguments writeFile {disk}.

(** The part of [path] the two classes call. *)
Record PathModule : Type := {
  normalize : string -> string;
  isAbsolute : string -> bool;
  resolve : list string -> string;
  dirname : string -> string;
  join : list string -> string
}.

(** The part of [os] the two classes call. *)
Record OsModule : Type := {
  homedir : string
}.

(** [FileSystemDependencies], with the working directory [process.cwd()]
    of the process that runs the server. *)
Record FileSystemDependencies (disk : Type) : Type := {
  fs : FsModule disk;
  path : PathModule;
  os : OsModule;
  process_cwd : string
}.

Arguments fs {disk}.
Arguments path {disk}.
Arguments os {disk}.
Arguments process_cwd {disk}.

(** ** class PathUtils *)

Module PathUtils.

Section Methods.

Context {disk : Type}.
Variable deps : FileSystemDependencies disk.

Definition normalizePath (p : string) : string :=
  normalize (path deps) p.

Definition expandHome (filepath : string) : string :=
  if Js.startsWith filepath "~/" || String.eqb filepath "~" then
    join (path deps) [homedir (os deps); Js.slice_from 1 filepath]
  else filepath.

(** [allowedDirectories.some(dir => p.startsWith(dir))] *)
Definition isAllowed (allowedDirectories : list string) (p : string) : bool :=
  existsb (fun dir => Js.startsWith p dir) allowedDirectories.

Definition accessDeniedRequested (absolute : string)
    (allowedDirectories : list string) : thrown :=
  JsError ("Access denied - path outside allowed directories: " ++ absolute
           ++ " not in " ++ Js.join ", " allowedDirectories).

Definition accessDeniedSymlink : thrown :=
  JsError "Access denied - symlink target outside allowed directories".

(** The absolute path computed from the requested one. *)
Definition absoluteOf (requestedPath : string) : string :=
  let expandedPath := expandHome requestedPath in
  if isAbsolute (path deps) expandedPath
  then resolve (path deps) [expandedPath]
  else resolve (path deps) [process_cwd deps; expandedPath].

(** The [catch] clause of [validatePath]. *)
Definition onRealpathError (absolute : string) (error : thrown) : M disk string :=
  match error with
  | JsError message =>
      if Js.includes message "ENOENT" then
        let parentDir := dirname (path deps) absolute in
        tryCatch
          (_ <- query (fun d => realpath (fs deps) d parentDir) ;;
           ret absolute)
          (fun parentError => throw error)
      else if Js.includes message "Access denied" then throw error
      else throw error
  | NonError _ => throw error
  end.

Definition validatePath (requestedPath : string)
    (allowedDirectories : list string) : M disk string :=
  let absolute := absoluteOf requestedPath in
  let normalizedRequested := normalizePath absolute in
  let isAllowed_ := isAllowed allowedDirectories normalizedRequested in
  if negb isAllowed_ then
    throw (accessDeniedRequested absolute allowedDirectories)
  else
    tryCatch
      (realPath <- query (fun d => realpath (fs deps) d absolute) ;;
       let normalizedReal := normalizePath realPath in
       let isRealPathAllowed := isAllowed allowedDirectories normalizedReal in
       if negb isRealPathAllowed then throw accessDeniedSymlink
       else ret realPath)
      (onRealpathError absolute).

End Methods.

End PathUtils.

(** ** class FileEditor *)

(** One instruction of the [edits] array. *)
Record Edit : Type := {
  oldText : string;
  newText : string
}.

Module FileEditor.

(** [text.replace(/\r\n/g, '\n')] *)
Fixpoint normalizeLineEndings (text : string) : string :=
  match text with
  | EmptyString => EmptyString
  | String c rest =>
      match rest with
      | String c' rest' =>
          if Ascii.eqb c Js.CR && Ascii.eqb c' Js.LF
          then String Js.LF (normalizeLineEndings rest')
          else String c (normalizeLineEndings rest)
      | EmptyString => String c EmptyString
      end
  end.

(** [oldLines.every((oldLine, j) => oldLine.trim() === potentialMatch[j].trim())] *)
Fixpoint isMatch (oldLines potentialMatch : list string) : bool :=
  match oldLines, potentialMatch with
  | [], _ => true
  | oldLine :: oldLines', contentLine :: potentialMatch' =>
      String.eqb (Js.trim oldLine) (Js.trim contentLine)
      && isMatch oldLines' potentialMatch'
  | _ :: _, [] => false
  end.

(** The number of turns of
    [for (let i = 0; i <= contentLines.length - oldLines.length; i++)]. *)
Definition turns (contentLines oldLines : list string) : nat :=
  if (length oldLines <=? length contentLines)%nat
  then length contentLines - length oldLines + 1
  else 0.

(** The [for] loop from index [i] on with [remaining] turns left: the index of
    the first window that matches. *)
Fixpoint searchFrom (contentLines oldLines : list string) (i remaining : nat)
  : option nat :=
  match remaining with
  | O => None
  | S remaining' =>
      let potentialMatch := Js.slice i (length oldLines) contentLines in
      if isMatch oldLines potentialMatch then Some i
      else searchFrom contentLines oldLines (S i) remaining'
  end.

Definition findWindow (contentLines oldLines : list string) : option nat :=
  searchFrom contentLines oldLines 0 (turns contentLines oldLines).

(** [oldLines[j]?.match(/^\s*/)?.[0] || ''] *)
Definition indentAt (lines : list string) (j : nat) : string :=
  match nth_error lines j with
  | Some l => Js.leadingWhitespace l
  | None => EmptyString
  end.

(** The callback of [normalizedNew.split('\n').map((line, j) => ...)]. *)
Definition indentLine (originalIndent : string) (oldLines : list string)
    (line : string) (j : nat) : string :=
  if Nat.eqb j 0 then originalIndent ++ Js.trimStart line
  else
    let oldIndent := indentAt oldLines j in
    let newIndent := Js.leadingWhitespace line in
    if Js.truthy oldIndent && Js.truthy newIndent then
      let relativeIndent :=
        (Z.of_nat (String.length newIndent) - Z.of_nat (String.length oldIndent))%Z in
      originalIndent ++ Js.repeat " " (Z.to_nat (Z.max 0 relativeIndent))
        ++ Js.trimStart line
    else line.

(** The replacement of the window that starts at line [i]. *)
Definition replaceWindow (contentLines oldLines : list string)
    (normalizedNew : string) (i : nat) : string :=
  let originalIndent := Js.leadingWhitespace (nth i contentLines EmptyString) in
  let newLines :=
    Js.mapi (indentLine originalIndent oldLines) (Js.split_lines normalizedNew) in
  Js.join Js.nl (Js.splice i (length oldLines) newLines contentLines).

(** The line-by-line strategy: [None] when [matchFound] stays false. *)
Definition fuzzyReplace (modifiedContent normalizedOld normalizedNew : string)
  : option string :=
  let oldLines := Js.split_lines normalizedOld in
  let contentLines := Js.split_lines modifiedContent in
  match findWindow contentLines oldLines with
  | Some i => Some (replaceWindow contentLines oldLines normalizedNew i)
  | None => None
  end.

Definition editNotApplicable (edit : Edit) : thrown :=
  JsError ("Could not find exact match for edit:" ++ Js.nl ++ oldText edit).

(** The body of [for (const edit of edits)]. *)
Definition applyEdit (modifiedContent : string) (edit : Edit) : result string :=
  let normalizedOld := normalizeLineEndings (oldText edit) in
  let normalizedNew := normalizeLineEndings (newText edit) in
  if Js.includes modifiedContent normalizedOld then
    Ok (Js.replace modifiedContent normalizedOld normalizedNew)
  else
    match fuzzyReplace modifiedContent normalizedOld normalizedNew with
    | Some modifiedContent' => Ok modifiedContent'
    | None => Throw (editNotApplicable edit)
    end.

(** [for (const edit of edits)] *)
Fixpoint applyEdits (modifiedContent : string) (edits : list Edit)
  : result string :=
  match edits with
  | [] => Ok modifiedContent
  | edit :: edits' =>
      match applyEdit modifiedContent edit with
      | Ok modifiedContent' => applyEdits modifiedContent' edits'
      | Throw e => Throw e
      end
  end.

(** [while (diff.includes('`'.repeat(numBackticks))) numBackticks++], with a
    bound on the number of tests of the condition; [None] when the bound is
    reached. *)
Fixpoint growFence (fuel numBackticks : nat) (diff : string) : option nat :=
  match fuel with
  | O => None
  | S fuel' =>
      if Js.includes diff (Js.repeat "`" numBackticks)
      then growFence fuel' (S numBackticks) diff
      else Some numBackticks
  end.

(** The value of [numBackticks] after the loop. The bound is never reached
    ([growFence_terminates]). *)
Definition numBackticks (diff : string) : nat :=
  match growFence (S (String.length diff)) 3 diff with
  | Some n => n
  | None => 3
  end.

Definition formatDiff (diff : string) : string :=
  let n := numBackticks diff in
  Js.repeat "`" n ++ "diff" ++ Js.nl ++ diff ++ Js.repeat "`" n ++ Js.nl ++ Js.nl.

Section Methods.

Context {disk : Type}.
Variable deps : FileSystemDependencies disk.
(** [createTwoFilesPatch] of the package [diff]. *)
Variable createTwoFilesPatch :
  string -> string -> string -> string -> string -> string -> string.
Variable allowedDirectories : list string.

Definition createUnifiedDiff (originalContent newContent filepath : string)
  : string :=
  let normalizedOriginal := normalizeLineEndings originalContent in
  let normalizedNew := normalizeLineEndings newContent in
  createTwoFilesPatch filepath filepath normalizedOriginal normalizedNew
    "original" "modified".

Definition applyFileEdits (filePath : string) (edits : list Edit)
    (dryRun : bool) : M disk string :=
  validPath <- PathUtils.validatePath deps filePath allowedDirectories ;;
  raw <- query (fun d => readFile (fs deps) d validPath) ;;
  let content := normalizeLineEndings raw in
  modifiedContent <- lift (applyEdits content edits) ;;
  let diff := createUnifiedDiff content modifiedContent filePath in
  let formattedDiff := formatDiff diff in
  _ <- (if negb dryRun
        then writeFile (fs deps) validPath modifiedContent
        else ret tt) ;;
  ret formattedDiff.

End Methods.

End FileEditor.

(** ** Test doubles

    The doubles of the test-suite ([createMockPath], [setupBasicMocks]) and an
    in-memory disk, on which the statements below are evaluated. *)

Module Fixtures.

(** The [path] mock: [normalize] is the identity, [isAbsolute] answers [true],
    [resolve] answers [filePath], [dirname] is
    [p.split('/').slice(0, -1).join('/')] and [join] is [paths.join('/')]. *)
Definition mockPath (filePath : string) : PathModule := {|
  normalize := fun p => p;
  isAbsolute := fun _ => true;
  resolve := fun _ => filePath;
  dirname := fun p => Js.join "/" (removelast (Js.split "/" p));
  join := fun paths => Js.join "/" paths
|}.

Definition mockOs : OsModule := {| homedir := "/home/user" |}.

(** An in-memory disk: the real path of every path that exists, and the
    content of every file, by real path. *)
Record MemDisk : Type := {
  links : list (string * string);
  files : list (string * string)
}.

Fixpoint lookup (k : string) (l : list (string * string)) : option string :=
  match l with
  | [] => None
  | (k', v) :: l' => if String.eqb k k' then Some v else lookup k l'
  end.

Fixpoint remove (k : string) (l : list (string * string))
  : list (string * string) :=
  match l with
  | [] => []
  | (k', v) :: l' => if String.eqb k k' then remove k l' else (k', v) :: remove k l'
  end.

Definition enoent (syscall p : string) : thrown :=
  JsError ("ENOENT: no such file or directory, " ++ syscall ++ " '" ++ p ++ "'").

Definition memFs : FsModule MemDisk := {|
  realpath := fun d p =>
    match lookup p (links d) with
    | Some real => Ok real
    | None => Throw (enoent "realpath" p)
    end;
  readFile := fun d p =>
    match lookup p (files d) with
    | Some content => Ok content
    | None => Throw (enoent "open" p)
    end;
  writeFile := fun p content d =>
    (Ok tt, {| links := links d; files := (p, content) :: remove p (files d) |})
|}.

Definition memDeps (filePath : string) : FileSystemDependencies MemDisk := {|
  fs := memFs;
  path := mockPath filePath;
  os := mockOs;
  process_cwd := "/"
|}.

(** A stand-in for [createTwoFilesPatch]: the two headers, then the old text
    and the new text. *)
Definition stubPatch (oldFile newFile oldStr newStr oldHeader newHeader : string)
  : string :=
  "--- " ++ oldFile ++ " " ++ oldHeader ++ Js.nl
  ++ "+++ " ++ newFile ++ " " ++ newHeader ++ Js.nl
  ++ "-" ++ oldStr ++ Js.nl ++ "+" ++ newStr ++ Js.nl.

(** The [fs] mock of [setupBasicMocks]: [realpath] resolves to [filePath],
    [readFile] to [content]; the disk is the list of the calls of
    [writeFile], as the mock function records them. *)
Definition mockFs (filePath content : string)
  : FsModule (list (string * string)) := {|
  realpath := fun _ _ => Ok filePath;
  readFile := fun _ _ => Ok content;
  writeFile := fun p text calls => (Ok tt, (calls ++ [(p, text)])%list)
|}.

Definition mockDeps (filePath content : string)
  : FileSystemDependencies (list (string * string)) := {|
  fs := mockFs filePath content;
  path := mockPath filePath;
  os := mockOs;
  process_cwd := "/"
|}.

(** A file of two lines in the allowed directory of the tests. *)
Definition notesPath : string := "/allowed/dir/notes.txt".

Definition notesDisk : MemDisk := {|
  links := [("/allowed/dir", "/allowed/dir"); (notesPath, notesPath)];
  files := [(notesPath, "alpha" ++ Js.nl ++ "  beta")]
|}.

(** A file that quotes a fence of three backticks. *)
Definition readmePath : string := "/allowed/dir/a.md".

Definition readmeDisk : MemDisk := {|
  links := [(readmePath, readmePath)];
  files := [(readmePath, "see ```x```")]
|}.

End Fixtures.

(** ** Notions of the specification *)

Module Spec.

(** [AccessDenied]: an [Error] whose message says so. *)
Definition isAccessDenied (e : thrown) : bool :=
  match e with
  | JsError message => Js.includes message "Access denied"
  | NonError _ => false
  end.

(** [NotFound]: an [Error] whose message carries the code [ENOENT]. *)
Definition isNotFound (e : thrown) : bool :=
  match e with
  | JsError message => Js.includes message "ENOENT"
  | NonError _ => false
  end.

(** The allow-list check as the specification words it: the path is a root,
    or starts with a root followed by the path separator. *)
Definition withinRoot (root p : string) : bool :=
  String.eqb p root || Js.startsWith p (root ++ "/").

Definition withinRoots (roots : list string) (p : string) : bool :=
  existsb (fun root => withinRoot root p) roots.

(** The text starts with the character [c]. *)
Definition headIs (c : ascii) (s : string) : bool :=
  match s with
  | String c' _ => Ascii.eqb c' c
  | EmptyString => false
  end.

(** The text with every line feed replaced by carriage return, line feed. *)
Fixpoint toCRLF (s : string) : string :=
  match s with
  | EmptyString => EmptyString
  | String c rest =>
      if Ascii.eqb c Js.LF then String Js.CR (String Js.LF (toCRLF rest))
      else String c (toCRLF rest)
  end.

Definition toCRLFEdit (e : Edit) : Edit :=
  {| oldText := toCRLF (oldText e); newText := toCRLF (newText e) |}.

(** The text follows the line-feed convention: no carriage return stands
    before a line feed. *)
Fixpoint lfOnly (s : string) : bool :=
  match s with
  | EmptyString => true
  | String c rest =>
      match rest with
      | String c' _ => negb (Ascii.eqb c Js.CR && Ascii.eqb c' Js.LF) && lfOnly rest
      | EmptyString => true
      end
  end.

Definition lfOnlyEdit (e : Edit) : bool :=
  lfOnly (oldText e) && lfOnly (newText e).

(** The value of a run that did not throw: the final content of the edit
    loop, the string that [applyFileEdits] returns. *)
Definition finalContent {A} (r : result A) : option A :=
  match r with
  | Ok a => Some a
  | Throw _ => None
  end.

(** The width of the indentation of a later line when the captured
    indentation is widened or narrowed by the difference between the new and
    the old indentation, and never negative. *)
Definition relativeWidth (captured oldIndent newIndent : string) : nat :=
  Z.to_nat (Z.max 0 (Z.of_nat (String.length captured)
                     + (Z.of_nat (String.length newIndent)
                        - Z.of_nat (String.length oldIndent)))).

(** The text has no dollar sign. *)
Fixpoint noDollar (s : string) : bool :=
  match s with
  | EmptyString => true
  | String c rest => negb (Ascii.eqb c "$") && noDollar rest
  end.

(** [i] is the first index whose window matches. *)
Definition firstWindow (contentLines oldLines : list string) (i : nat) : Prop :=
  i + length oldLines <= length contentLines
  /\ FileEditor.isMatch oldLines (Js.slice i (length oldLines) contentLines) = true
  /\ forall k, k < i ->
       FileEditor.isMatch oldLines (Js.slice k (length oldLines) contentLines) = false.

End Spec.

(** ** Numbers and case, as the classes print and compare them *)

Module JsMore.

(** The character of a digit below ten. *)
Definition digitChar (digit : N) : ascii := ascii_of_N (48 + digit).

(** The digits of [n] in front of [acc], with a bound on the number of
    divisions. *)
Fixpoint digitsAux (fuel : nat) (radix n : N) (acc : string) : string :=
  let acc' := String (digitChar (n mod radix)) acc in
  match fuel with
  | O => acc'
  | S fuel' =>
      if (n <? radix)%N then acc' else digitsAux fuel' radix (n / radix)%N acc'
  end.

(** [n.toString(radix)] for a natural number and a radix from two to ten.
    There are no more divisions than [n] has binary digits. *)
Definition toStringRadix (radix n : N) : string :=
  digitsAux (N.to_nat (N.log2 n)) radix n EmptyString.

(** [s.slice(-n)] *)
Definition slice_last (n : nat) (s : string) : string :=
  Js.slice_from (String.length s - n) s.

(** [c.toLowerCase()] for a code unit below 256: the letters [A] to [Z] and
    the capital letters of Latin-1 (192 to 222, but the multiplication sign
    215) are moved by 32. *)
Definition lowerChar (c : ascii) : ascii :=
  let n := N_of_ascii c in
  if ((65 <=? n) && (n <=? 90)
      || (192 <=? n) && (n <=? 222) && negb (n =? 215))%N
  then ascii_of_N (n + 32) else c.

(** [s.toLowerCase()] *)
Fixpoint toLowerCase (s : string) : string :=
  match s with
  | EmptyString => EmptyString
  | String c rest => String (lowerChar c) (toLowerCase rest)
  end.

End JsMore.

(** ** The rest of the injected dependencies *)

(** [fs.Stats], as far as the classes read it. A date is its number of
    milliseconds. *)
Record Stats : Type := {
  size : N;
  birthtime : N;
  mtime : N;
  atime : N;
  stats_isDirectory : bool;
  stats_isFile : bool;
  mode : N
}.

(** [fs.Dirent], as far as the classes read it. *)
Record Dirent : Type := {
  name : string;
  dirent_isDirectory : bool
}.

(** The other functions of [fs/promises] and [path] that the server calls:
    [stat] and [readdir] query the disk, [mkdir] and [rename] change it. *)
Record MoreDependencies (disk : Type) : Type := {
  stat : disk -> string -> result Stats;
  readdir : disk -> string -> result (list Dirent);
  mkdir : string -> M disk unit;
  rename : string -> string -> M disk unit;
  relative : string -> string -> string
}.

Arguments stat {disk}.
Arguments readdir {disk}.
Arguments mkdir {disk}.
Arguments rename {disk}.
Arguments relative {disk}.

(** ** class FileOperations *)

(** [FileInfo] *)
Record FileInfo : Type := {
  info_size : N;
  created : N;
  modified : N;
  accessed : N;
  isDirectory : bool;
  isFile : bool;
  permissions : string
}.

Module FileOperations.

Section Methods.

Context {disk : Type}.
Variable deps : FileSystemDependencies disk.
Variable more : MoreDependencies disk.
(** [minimatch(path, pattern, { dot: true })] of the package [minimatch]. *)
Variable minimatch : string -> string -> bool.
Variable allowedDirectories : list string.

Definition getFileStats (filePath : string) : M disk FileInfo :=
  validPath <- PathUtils.validatePath deps filePath allowedDirectories ;;
  stats <- query (fun d => stat more d validPath) ;;
  ret {| info_size := size stats;
         created := birthtime stats;
         modified := mtime stats;
         accessed := atime stats;
         isDirectory := stats_isDirectory stats;
         isFile := stats_isFile stats;
         permissions := JsMore.slice_last 3 (JsMore.toStringRadix 8 (mode stats)) |}.

(** [excludePatterns.some(pattern => ...)] *)
Definition shouldExclude (excludePatterns : list string) (relativePath : string)
  : bool :=
  existsb
    (fun pattern =>
       let globPattern :=
         if Js.includes pattern "*" then pattern
         else "**/" ++ pattern ++ "/**" in
       minimatch relativePath globPattern)
    excludePatterns.

(** [entry.name.toLowerCase().includes(pattern.toLowerCase())] *)
Definition nameMatches (pattern : string) (entry : Dirent) : bool :=
  Js.includes (JsMore.toLowerCase (name entry)) (JsMore.toLowerCase pattern).

(** The loop [for (const entry of entries)] of [search], given the
    function that searches a directory: an entry whose turn throws is
    skipped, and what was pushed to [results] before stays. [None] stands for
    a search that does not come to an end. *)
Fixpoint visitEntries
    (searchDirectory : string -> list string -> option (result unit * list string))
    (d : disk) (rootPath pattern : string) (excludePatterns : list string)
    (currentPath : string) (entries : list Dirent) (results : list string)
  : option (result unit * list string) :=
  match entries with
  | [] => Some (Ok tt, results)
  | entry :: entries' =>
      let continue_ :=
        visitEntries searchDirectory d rootPath pattern excludePatterns
          currentPath entries' in
      let fullPath := join (path deps) [currentPath; name entry] in
      match fst (PathUtils.validatePath deps fullPath allowedDirectories d) with
      | Throw _ => continue_ results
      | Ok _ =>
          let relativePath := relative more rootPath fullPath in
          if shouldExclude excludePatterns relativePath then continue_ results
          else
            let results1 :=
              if nameMatches pattern entry then (results ++ [fullPath])%list
              else results in
            if dirent_isDirectory entry then
              match searchDirectory fullPath results1 with
              | None => None
              | Some (_, results2) => continue_ results2
              end
            else continue_ results1
      end
  end.

(** The inner function [search], with a bound on the depth of the
    directories. *)
Fixpoint search (fuel : nat) (d : disk) (rootPath pattern : string)
    (excludePatterns : list string) (currentPath : string)
    (results : list string) : option (result unit * list string) :=
  match fuel with
  | O => None
  | S fuel' =>
      match readdir more d currentPath with
      | Throw e => Some (Throw e, results)
      | Ok entries =>
          visitEntries
            (search fuel' d rootPath pattern excludePatterns)
            d rootPath pattern excludePatterns currentPath entries results
      end
  end.

Definition searchFiles (fuel : nat) (rootPath pattern : string)
    (excludePatterns : list string) (d : disk) : option (result (list string)) :=
  match fst (PathUtils.validatePath deps rootPath allowedDirectories d) with
  | Throw e => Some (Throw e)
  | Ok validRootPath =>
      match search fuel d rootPath pattern excludePatterns validRootPath [] with
      | None => None
      | Some (Ok _, results) => Some (Ok results)
      | Some (Throw e, _) => Some (Throw e)
      end
  end.

(** The paths that the search is to find below a directory: the entries
    that pass [validatePath], are not excluded and whose name matches, in the
    directory itself or below one of its entries that is a directory, passes
    [validatePath] and is not excluded. *)
Inductive Hit (d : disk) (rootPath pattern : string)
    (excludePatterns : list string) : string -> string -> Prop :=
| hit_here (currentPath : string) (entries : list Dirent) (entry : Dirent)
    (validPath : string) :
    readdir more d currentPath = Ok entries ->
    In entry entries ->
    fst (PathUtils.validatePath deps
           (join (path deps) [currentPath; name entry]) allowedDirectories d)
      = Ok validPath ->
    shouldExclude excludePatterns
      (relative more rootPath (join (path deps) [currentPath; name entry]))
      = false ->
    nameMatches pattern entry = true ->
    Hit d rootPath pattern excludePatterns currentPath
      (join (path deps) [currentPath; name entry])
| hit_below (currentPath : string) (entries : list Dirent) (entry : Dirent)
    (validPath found : string) :
    readdir more d currentPath = Ok entries ->
    In entry entries ->
    fst (PathUtils.validatePath deps
           (join (path deps) [currentPath; name entry]) allowedDirectories d)
      = Ok validPath ->
    shouldExclude excludePatterns
      (relative more rootPath (join (path deps) [currentPath; name entry]))
      = false ->
    dirent_isDirectory entry = true ->
    Hit d rootPath pattern excludePatterns
      (join (path deps) [currentPath; name entry]) found ->
    Hit d rootPath pattern excludePatterns currentPath found.

End Methods.

End FileOperations.

(** ** class FilesystemServer *)

(** The answer of a tool: the text of its one content item, and [isError]. *)
Record Response : Type := {
  text : string;
  isError : bool
}.

(** The result of [schema.safeParse(args)]: the data, or the text of the
    error. *)
Inductive SafeParse (A : Type) : Type :=
| ParseSuccess (data : A)
| ParseFailure (error : string).

Arguments ParseSuccess {A} data.
Arguments ParseFailure {A} error.

Record WriteFileArgs : Type := {
  write_path : string;
  write_content : string
}.

Record EditFileArgs : Type := {
  edit_path : string;
  edit_edits : list Edit;
  edit_dryRun : bool
}.

Record MoveFileArgs : Type := {
  move_source : string;
  move_destination : string
}.

Record SearchFilesArgs : Type := {
  search_path : string;
  search_pattern : string;
  search_excludePatterns : list string
}.

(** The schemas of the tools, as parsers of the arguments of a request. The
    schemas with the one field [path] give that path, [paths] for
    [ReadMultipleFilesArgsSchema]. *)
Record Schemas (json : Type) : Type := {
  ReadFileArgsSchema : json -> SafeParse string;
  ReadMultipleFilesArgsSchema : json -> SafeParse (list string);
  WriteFileArgsSchema : json -> SafeParse WriteFileArgs;
  EditFileArgsSchema : json -> SafeParse EditFileArgs;
  CreateDirectoryArgsSchema : json -> SafeParse string;
  ListDirectoryArgsSchema : json -> SafeParse string;
  DirectoryTreeArgsSchema : json -> SafeParse string;
  MoveFileArgsSchema : json -> SafeParse MoveFileArgs;
  SearchFilesArgsSchema : json -> SafeParse SearchFilesArgs;
  GetFileInfoArgsSchema : json -> SafeParse string
}.

Arguments ReadFileArgsSchema {json}.
Arguments ReadMultipleFilesArgsSchema {json}.
Arguments WriteFileArgsSchema {json}.
Arguments EditFileArgsSchema {json}.
Arguments CreateDirectoryArgsSchema {json}.
Arguments ListDirectoryArgsSchema {json}.
Arguments DirectoryTreeArgsSchema {json}.
Arguments MoveFileArgsSchema {json}.
Arguments SearchFilesArgsSchema {json}.
Arguments GetFileInfoArgsSchema {json}.

(** [TreeEntry]: a file, or a directory with its children. *)
#[warnings="-register-all"]
Inductive TreeEntry : Type :=
| FileEntry (entryName : string)
| DirectoryEntry (entryName : string) (children : list TreeEntry).

Module Server.

(** [error instanceof Error ? error.message : String(error)] *)
Definition errorMessage (error : thrown) : string :=
  match error with
  | JsError message => message
  | NonError value => value
  end.


(** [`${value}`] for a boolean. *)
Definition showBool (b : bool) : string := if b then "true" else "false".

Section Methods.

Context {disk json : Type}.
Variable deps : FileSystemDependencies disk.
Variable more : MoreDependencies disk.
Variable minimatch : string -> string -> bool.
Variable createTwoFilesPatch :
  string -> string -> string -> string -> string -> string -> string.
Variable schemas : Schemas json.
(** [JSON.stringify(treeData, null, 2)] and [`${date}`]. *)
Variable stringifyTree : list TreeEntry -> string.
Variable showDate : N -> string.
Variable allowedDirectories : list string.

Let validatePath (p : string) : M disk string :=
  PathUtils.validatePath deps p allowedDirectories.




(** The callback of [read_multiple_files]. *)
Definition readOne (filePath : string) (d : disk) : string :=
  match fst (validatePath filePath d) with
  | Ok validPath =>
      match readFile (fs deps) d validPath with
      | Ok content => filePath ++ ":" ++ Js.nl ++ content ++ Js.nl
      | Throw error => filePath ++ ": Error - " ++ errorMessage error
      end
  | Throw error => filePath ++ ": Error - " ++ errorMessage error
  end.

(** The callback of [list_directory]. *)
Definition formatEntry (entry : Dirent) : string :=
  (if dirent_isDirectory entry then "[DIR]" else "[FILE]") ++ " " ++ name entry.

(** The loop of [buildTree] over the entries of a directory, given the
    function that builds the tree of a directory. *)
Fixpoint buildEntries
    (build : string -> option (result (list TreeEntry)))
    (currentPath : string) (entries : list Dirent)
  : option (result (list TreeEntry)) :=
  match entries with
  | [] => Some (Ok [])
  | entry :: entries' =>
      if dirent_isDirectory entry then
        let subPath := join (path deps) [currentPath; name entry] in
        match build subPath with
        | None => None
        | Some (Throw e) => Some (Throw e)
        | Some (Ok children) =>
            match buildEntries build currentPath entries' with
            | None => None
            | Some (Throw e) => Some (Throw e)
            | Some (Ok result) =>
                Some (Ok (DirectoryEntry (name entry) children :: result))
            end
        end
      else
        match buildEntries build currentPath entries' with
        | None => None
        | Some (Throw e) => Some (Throw e)
        | Some (Ok result) => Some (Ok (FileEntry (name entry) :: result))
        end
  end.

(** [buildTree], with a bound on the depth; [None] stands for a walk that
    does not come to an end. *)
Fixpoint buildTree (fuel : nat) (d : disk) (currentPath : string)
  : option (result (list TreeEntry)) :=
  match fuel with
  | O => None
  | S fuel' =>
      match fst (validatePath currentPath d) with
      | Throw e => Some (Throw e)
      | Ok validPath =>
          match readdir more d validPath with
          | Throw e => Some (Throw e)
          | Ok entries => buildEntries (buildTree fuel' d) currentPath entries
          end
      end
  end.

(** [Object.entries(info).map(([key, value]) => `${key}: ${value}`)]; a
    size prints as its decimal digits (it is below 10^21). *)
Definition infoLines (info : FileInfo) : list string :=
  [ "size: " ++ JsMore.toStringRadix 10 (info_size info);
    "created: " ++ showDate (created info);
    "modified: " ++ showDate (modified info);
    "accessed: " ++ showDate (accessed info);
    "isDirectory: " ++ showBool (isDirectory info);
    "isFile: " ++ showBool (isFile info);
    "permissions: " ++ permissions info ].

Definition invalidArguments {A} (tool error : string) : M disk A :=
  throw (JsError ("Invalid arguments for " ++ tool ++ ": " ++ error)).

(** A method that comes to an end. *)
Definition total {A} (m : M disk A) : disk -> option (result A * disk) :=
  fun d => Some (m d).

(** The [switch] of [handleCallTool]: the text of the answer, or what is
    thrown to the [catch] clause. *)
Definition callTool (fuel : nat) (toolName : string) (args : json)
  : disk -> option (result string * disk) :=
  if String.eqb toolName "read_file" then
    match ReadFileArgsSchema schemas args with
    | ParseFailure error => total (invalidArguments "read_file" error)
    | ParseSuccess filePath =>
        total (validPath <- validatePath filePath ;;
               content <- query (fun d => readFile (fs deps) d validPath) ;;
               ret content)
    end
  else if String.eqb toolName "read_multiple_files" then
    match ReadMultipleFilesArgsSchema schemas args with
    | ParseFailure error => total (invalidArguments "read_multiple_files" error)
    | ParseSuccess paths =>
        total (fun d =>
                 (Ok (Js.join (Js.nl ++ "---" ++ Js.nl)
                        (map (fun filePath => readOne filePath d) paths)), d))
    end
  else if String.eqb toolName "write_file" then
    match WriteFileArgsSchema schemas args with
    | ParseFailure error => total (invalidArguments "write_file" error)
    | ParseSuccess data =>
        total (validPath <- validatePath (write_path data) ;;
               _ <- writeFile (fs deps) validPath (write_content data) ;;
               ret ("Successfully wrote to " ++ write_path data))
    end
  else if String.eqb toolName "edit_file" then
    match EditFileArgsSchema schemas args with
    | ParseFailure error => total (invalidArguments "edit_file" error)
    | ParseSuccess data =>
        total (FileEditor.applyFileEdits deps createTwoFilesPatch
                 allowedDirectories (edit_path data) (edit_edits data)
                 (edit_dryRun data))
    end
  else if String.eqb toolName "create_directory" then
    match CreateDirectoryArgsSchema schemas args with
    | ParseFailure error => total (invalidArguments "create_directory" error)
    | ParseSuccess dirPath =>
        total (validPath <- validatePath dirPath ;;
               _ <- mkdir more validPath ;;
               ret ("Successfully created directory " ++ dirPath))
    end
  else if String.eqb toolName "list_directory" then
    match ListDirectoryArgsSchema schemas args with
    | ParseFailure error => total (invalidArguments "list_directory" error)
    | ParseSuccess dirPath =>
        total (validPath <- validatePath dirPath ;;
               entries <- query (fun d => readdir more d validPath) ;;
               ret (Js.join Js.nl (map formatEntry entries)))
    end
  else if String.eqb toolName "directory_tree" then
    match DirectoryTreeArgsSchema schemas args with
    | ParseFailure error => total (invalidArguments "directory_tree" error)
    | ParseSuccess dirPath =>
        fun d =>
          match buildTree fuel d dirPath with
          | None => None
          | Some (Ok treeData) => Some (Ok (stringifyTree treeData), d)
          | Some (Throw e) => Some (Throw e, d)
          end
    end
  else if String.eqb toolName "move_file" then
    match MoveFileArgsSchema schemas args with
    | ParseFailure error => total (invalidArguments "move_file" error)
    | ParseSuccess data =>
        total (validSourcePath <- validatePath (move_source data) ;;
               validDestPath <- validatePath (move_destination data) ;;
               _ <- rename more validSourcePath validDestPath ;;
               ret ("Successfully moved " ++ move_source data ++ " to "
                    ++ move_destination data))
    end
  else if String.eqb toolName "search_files" then
    match SearchFilesArgsSchema schemas args with
    | ParseFailure error => total (invalidArguments "search_files" error)
    | ParseSuccess data =>
        fun d =>
          match FileOperations.searchFiles deps more minimatch allowedDirectories
                  fuel (search_path data) (search_pattern data)
                  (search_excludePatterns data) d with
          | None => None
          | Some (Ok results) =>
              Some (Ok (if (0 <? length results)%nat
                        then Js.join Js.nl results else "No matches found"), d)
          | Some (Throw e) => Some (Throw e, d)
          end
    end
  else if String.eqb toolName "get_file_info" then
    match GetFileInfoArgsSchema schemas args with
    | ParseFailure error => total (invalidArguments "get_file_info" error)
    | ParseSuccess filePath =>
        total (info <- FileOperations.getFileStats deps more allowedDirectories
                         filePath ;;
               ret (Js.join Js.nl (infoLines info)))
    end
  else if String.eqb toolName "list_allowed_directories" then
    total (ret ("Allowed directories:" ++ Js.nl
                ++ Js.join Js.nl allowedDirectories))
  else
    total (throw (JsError ("Unknown tool: " ++ toolName))).

(** [handleCallTool]: what the [switch] throws becomes an error answer. *)
Definition handleCallTool (fuel : nat) (toolName : string) (args : json)
  : disk -> option (Response * disk) :=
  fun d =>
    match callTool fuel toolName args d with
    | None => None
    | Some (Ok answer, d') => Some ({| text := answer; isError := false |}, d')
    | Some (Throw error, d') =>
        Some ({| text := "Error: " ++ errorMessage error; isError := true |}, d')
    end.

End Methods.

End Server.

(** The text of the error of [safeParse], for the schema that
    [handleCallTool] applies to the arguments of a tool, when it fails. *)
Definition parseFailure {A} (parsed : SafeParse A) : option string :=
  match parsed with
  | ParseSuccess _ => None
  | ParseFailure error => Some error
  end.

Definition toolParseFailure {json : Type} (schemas : Schemas json)
    (toolName : string) (args : json) : option string :=
  if String.eqb toolName "read_file" then
    parseFailure (ReadFileArgsSchema schemas args)
  else if String.eqb toolName "read_multiple_files" then
    parseFailure (ReadMultipleFilesArgsSchema schemas args)
  else if String.eqb toolName "write_file" then
    parseFailure (WriteFileArgsSchema schemas args)
  else if String.eqb toolName "edit_file" then
    parseFailure (EditFileArgsSchema schemas args)
  else if String.eqb toolName "create_directory" then
    parseFailure (CreateDirectoryArgsSchema schemas args)
  else if String.eqb toolName "list_directory" then
    parseFailure (ListDirectoryArgsSchema schemas args)
  else if String.eqb toolName "directory_tree" then
    parseFailure (DirectoryTreeArgsSchema schemas args)
  else if String.eqb toolName "move_file" then
    parseFailure (MoveFileArgsSchema schemas args)
  else if String.eqb toolName "search_files" then
    parseFailure (SearchFilesArgsSchema schemas args)
  else if String.eqb toolName "get_file_info" then
    parseFailure (GetFileInfoArgsSchema schemas args)
  else None.

(** The names of the tools. *)
Definition toolNames : list string :=
  [ "read_file"; "read_multiple_files"; "write_file"; "edit_file";
    "create_directory"; "list_directory"; "directory_tree"; "move_file";
    "search_files"; "get_file_info"; "list_allowed_directories" ].

(** The text with every dollar sign doubled. *)
Fixpoint escapeDollar (s : string) : string :=
  match s with
  | EmptyString => EmptyString
  | String c rest =>
      if Ascii.eqb c "$" then String "$" (String "$" (escapeDollar rest))
      else String c (escapeDollar rest)
  end.

(** ** Further test doubles *)

Module MoreFixtures.

(** The [fs] mock of [setupErrorMocks]: [realpath] rejects with [error]. *)
Definition errorFs (error : thrown) : FsModule (list (string * string)) := {|
  realpath := fun _ _ => Throw error;
  readFile := fun _ _ => Throw error;
  writeFile := fun p text calls => (Ok tt, (calls ++ [(p, text)])%list)
|}.

Definition errorDeps (filePath : string) (error : thrown)
  : FileSystemDependencies (list (string * string)) := {|
  fs := errorFs error;
  path := Fixtures.mockPath filePath;
  os := Fixtures.mockOs;
  process_cwd := "/"
|}.

(** A [path] double for absolute paths written with forward slashes and
    without [.] or [..]: such a path is normalized and resolves to itself. *)
Definition plainPath : PathModule := {|
  normalize := fun p => p;
  isAbsolute := fun p => Js.startsWith p "/";
  resolve := fun segments =>
    if Js.startsWith (last segments EmptyString) "/"
    then last segments EmptyString else Js.join "/" segments;
  dirname := fun p => Js.join "/" (removelast (Js.split "/" p));
  join := fun paths => Js.join "/" paths
|}.

Definition plainDeps : FileSystemDependencies Fixtures.MemDisk := {|
  fs := Fixtures.memFs;
  path := plainPath;
  os := Fixtures.mockOs;
  process_cwd := "/"
|}.

Fixpoint lookupIn {A} (k : string) (l : list (string * A)) : option A :=
  match l with
  | [] => None
  | (k', v) :: l' => if String.eqb k k' then Some v else lookupIn k l'
  end.

(** The other operations on the in-memory disk, with the directories and the
    [Stats] given by tables. *)
Definition tableMore (directories : list (string * list Dirent))
    (statsOf : list (string * Stats)) : MoreDependencies Fixtures.MemDisk := {|
  stat := fun _ p =>
    match lookupIn p statsOf with
    | Some stats => Ok stats
    | None => Throw (Fixtures.enoent "stat" p)
    end;
  readdir := fun _ p =>
    match lookupIn p directories with
    | Some entries => Ok entries
    | None => Throw (Fixtures.enoent "scandir" p)
    end;
  mkdir := fun p d =>
    (Ok tt, {| Fixtures.links := (p, p) :: Fixtures.links d;
               Fixtures.files := Fixtures.files d |});
  rename := fun source destination d =>
    match Fixtures.lookup source (Fixtures.files d) with
    | Some content =>
        (Ok tt,
         {| Fixtures.links :=
              (destination, destination) :: Fixtures.remove source (Fixtures.links d);
            Fixtures.files :=
              (destination, content) :: Fixtures.remove source (Fixtures.files d) |})
    | None => (Throw (Fixtures.enoent "rename" source), d)
    end;
  relative := fun from to =>
    if Js.startsWith to (from ++ "/")
    then Js.slice_from (String.length from + 1) to else to
|}.

(** A stand-in for [minimatch]: the glob of a directory name matches the
    path that is that name. *)
Definition stubMinimatch (relativePath globPattern : string) : bool :=
  String.eqb globPattern ("**/" ++ relativePath ++ "/**").

(** A project: two sources, a directory of packages and a link that leaves
    the allowed directory. *)
Definition projectDirectories : list (string * list Dirent) :=
  [ ("/allowed/dir",
     [ {| name := "src"; dirent_isDirectory := true |};
       {| name := "README.md"; dirent_isDirectory := false |};
       {| name := "node_modules"; dirent_isDirectory := true |};
       {| name := "readme-link"; dirent_isDirectory := false |} ]);
    ("/allowed/dir/src",
     [ {| name := "Readme.txt"; dirent_isDirectory := false |};
       {| name := "main.ts"; dirent_isDirectory := false |} ]);
    ("/allowed/dir/node_modules",
     [ {| name := "readme.js"; dirent_isDirectory := false |} ]) ].

Definition projectDisk : Fixtures.MemDisk := {|
  Fixtures.links :=
    [ ("/allowed/dir", "/allowed/dir");
      ("/allowed/dir/src", "/allowed/dir/src");
      ("/allowed/dir/README.md", "/allowed/dir/README.md");
      ("/allowed/dir/node_modules", "/allowed/dir/node_modules");
      ("/allowed/dir/readme-link", "/etc/readme");
      ("/allowed/dir/src/Readme.txt", "/allowed/dir/src/Readme.txt");
      ("/allowed/dir/src/main.ts", "/allowed/dir/src/main.ts");
      ("/allowed/dir/node_modules/readme.js", "/allowed/dir/node_modules/readme.js") ];
  Fixtures.files :=
    [ ("/allowed/dir/README.md", "# project");
      ("/allowed/dir/src/main.ts", "export {}") ]
|}.

Definition projectStats : list (string * Stats) :=
  [ ("/allowed/dir/README.md",
     {| size := 9; birthtime := 1000; mtime := 2000; atime := 3000;
        stats_isDirectory := false; stats_isFile := true; mode := 33188 |});
    ("/allowed/dir/src",
     {| size := 4096; birthtime := 1000; mtime := 1000; atime := 1000;
        stats_isDirectory := true; stats_isFile := false; mode := 16877 |}) ].

Definition projectMore : MoreDependencies Fixtures.MemDisk :=
  tableMore projectDirectories projectStats.

(** The arguments of a request, already in the shape of one of the
    schemas. *)
Inductive Args : Type :=
| PathArgs (p : string)
| PathsArgs (paths : list string)
| WriteArgs (p content : string)
| EditArgs (p : string) (edits : list Edit) (dryRun : bool)
| MoveArgs (source destination : string)
| SearchArgs (p pattern : string) (excludePatterns : list string)
| NoArgs.

Definition pathSchema (args : Args) : SafeParse string :=
  match args with
  | PathArgs p => ParseSuccess p
  | _ => ParseFailure "path: Required"
  end.

Definition mockSchemas : Schemas Args := {|
  ReadFileArgsSchema := pathSchema;
  ReadMultipleFilesArgsSchema := fun args =>
    match args with
    | PathsArgs paths => ParseSuccess paths
    | _ => ParseFailure "paths: Required"
    end;
  WriteFileArgsSchema := fun args =>
    match args with
    | WriteArgs p content =>
        ParseSuccess {| write_path := p; write_content := content |}
    | _ => ParseFailure "content: Required"
    end;
  EditFileArgsSchema := fun args =>
    match args with
    | EditArgs p edits dryRun =>
        ParseSuccess {| edit_path := p; edit_edits := edits; edit_dryRun := dryRun |}
    | _ => ParseFailure "edits: Required"
    end;
  CreateDirectoryArgsSchema := pathSchema;
  ListDirectoryArgsSchema := pathSchema;
  DirectoryTreeArgsSchema := pathSchema;
  MoveFileArgsSchema := fun args =>
    match args with
    | MoveArgs source destination =>
        ParseSuccess {| move_source := source; move_destination := destination |}
    | _ => ParseFailure "destination: Required"
    end;
  SearchFilesArgsSchema := fun args =>
    match args with
    | SearchArgs p pattern excludePatterns =>
        ParseSuccess {| search_path := p; search_pattern := pattern;
                        search_excludePatterns := excludePatterns |}
    | _ => ParseFailure "pattern: Required"
    end;
  GetFileInfoArgsSchema := pathSchema
|}.

(** Stand-ins for [JSON.stringify] and for the text of a date. *)
Fixpoint stubStringify (tree : list TreeEntry) : string :=
  match tree with
  | [] => EmptyString
  | FileEntry entryName :: tree' => entryName ++ ";" ++ stubStringify tree'
  | DirectoryEntry entryName children :: tree' =>
      entryName ++ "/;" ++ stubStringify tree'
  end.

Definition stubDate (milliseconds : N) : string :=
  JsMore.toStringRadix 10 milliseconds.

(** The server of the tests, on the project. *)
Definition projectServer (fuel : nat) (toolName : string) (args : Args)
  : Fixtures.MemDisk -> option (Response * Fixtures.MemDisk) :=
  Server.handleCallTool plainDeps projectMore stubMinimatch Fixtures.stubPatch
    mockSchemas stubStringify stubDate ["/allowed/dir"] fuel toolName args.

End MoreFixtures.

(** ** Lines *)

Module Lines.

(** The text has no line feed: it is one line. *)
Fixpoint noLF (s : string) : bool :=
  match s with
  | EmptyString => true
  | String c rest => negb (Ascii.eqb c Js.LF) && noLF rest
  end.

End Lines.

(** * Properties *)

(** ** Strings *)

Lemma prefix_length (t s : string) :
  prefix t s = true -> String.length t <= String.length s.
Proof.
  revert s; induction t as [|c t IH]; intros s H; simpl; [lia|].
  destruct s as [|c' s]; simpl in H; [discriminate|].
  destruct (ascii_dec c c'); [|discriminate].
  simpl; apply IH in H; lia.
Qed.

Lemma prefix_append (t s : string) : prefix t (t ++ s) = true.
Proof.
  induction t as [|c t IH]; simpl.
  - destruct s; reflexivity.
  - destruct (ascii_dec c c); [exact IH|congruence].
Qed.

Lemma indexOf_nil (t : string) :
  Js.indexOf "" t = if prefix t "" then Some 0 else None.
Proof. reflexivity. Qed.

Lemma indexOf_cons (c : ascii) (s t : string) :
  Js.indexOf (String c s) t =
  if prefix t (String c s) then Some 0
  else match Js.indexOf s t with Some i => Some (S i) | None => None end.
Proof. reflexivity. Qed.

Lemma indexOf_length (s t : string) (i : nat) :
  Js.indexOf s t = Some i -> i + String.length t <= String.length s.
Proof.
  revert i; induction s as [|c s IH]; intros i.
  - rewrite indexOf_nil. destruct (prefix t "") eqn:P; [|discriminate].
    intros [= <-]. apply prefix_length in P. simpl in *; lia.
  - rewrite indexOf_cons. destruct (prefix t (String c s)) eqn:P.
    + intros [= <-]. apply prefix_length in P. simpl in *; lia.
    + destruct (Js.indexOf s t) as [k|] eqn:E; [|discriminate].
      intros [= <-]. specialize (IH k eq_refl). simpl; lia.
Qed.

Lemma includes_length (s t : string) :
  Js.includes s t = true -> String.length t <= String.length s.
Proof.
  unfold Js.includes. destruct (Js.indexOf s t) as [i|] eqn:E; [|discriminate].
  intros _. apply indexOf_length in E. lia.
Qed.

Lemma includes_prefix (t s : string) : Js.includes (t ++ s) t = true.
Proof.
  unfold Js.includes.
  destruct (t ++ s) as [|c u] eqn:E.
  - rewrite indexOf_nil, <- E, prefix_append; reflexivity.
  - rewrite indexOf_cons, <- E, prefix_append; reflexivity.
Qed.

Lemma repeat_length (c : ascii) (n : nat) : String.length (Js.repeat c n) = n.
Proof. induction n; simpl; congruence. Qed.

Lemma leading_trimStart (s : string) :
  Js.leadingWhitespace s ++ Js.trimStart s = s.
Proof.
  induction s as [|c s IH]; simpl; [reflexivity|].
  destruct (Js.isWhitespace c); simpl; congruence.
Qed.

(** Splitting never gives the empty array, and joining the parts with the
    separator gives the string back. *)
Lemma split_not_nil (sep : ascii) (s : string) : Js.split sep s <> [].
Proof.
  destruct s as [|c s]; cbn [Js.split]; [discriminate|].
  destruct (Ascii.eqb c sep); [discriminate|].
  destruct (Js.split sep s); discriminate.
Qed.

Lemma join_split (sep : ascii) (s : string) :
  Js.join (String sep EmptyString) (Js.split sep s) = s.
Proof.
  unfold Js.join. induction s as [|c s IH]; [reflexivity|].
  cbn [Js.split]. pose proof (split_not_nil sep s) as Hne.
  destruct (Ascii.eqb c sep) eqn:E.
  - apply Ascii.eqb_eq in E; subst c.
    destruct (Js.split sep s) as [|l ls]; [congruence|].
    change (String.concat (String sep "") ("" :: l :: ls))
      with (String sep (String.concat (String sep "") (l :: ls))).
    now rewrite IH.
  - destruct (Js.split sep s) as [|l ls]; [congruence|].
    rewrite <- IH. destruct ls; reflexivity.
Qed.

(** ** PathUtils.validatePath *)

Section ValidatePath.

Context {disk : Type}.
Variable deps : FileSystemDependencies disk.
Variable allowedDirectories : list string.

Let absoluteOf := PathUtils.absoluteOf deps.
Let parentOf (requestedPath : string) : string :=
  dirname (path deps) (absoluteOf requestedPath).
Let nominallyAllowed (requestedPath : string) : bool :=
  PathUtils.isAllowed allowedDirectories
    (PathUtils.normalizePath deps (absoluteOf requestedPath)).

(** The method only queries the disk. *)
Lemma validatePath_disk (requestedPath : string) (d : disk) :
  snd (PathUtils.validatePath deps requestedPath allowedDirectories d) = d.
Proof.
  unfold PathUtils.validatePath.
  destruct (negb _); [reflexivity|].
  unfold tryCatch, bind, query.
  destruct (realpath _ d _) as [real|e]; cbn.
  - destruct (negb _); cbn; [|reflexivity].
    unfold throw; reflexivity.
  - destruct e as [message|v]; cbn; [|reflexivity].
    destruct (Js.includes message "ENOENT"); cbn.
    + unfold tryCatch, bind, query.
      destruct (realpath _ d _); reflexivity.
    + destruct (Js.includes message "Access denied"); reflexivity.
Qed.

(** A path that fails the first check is refused before the disk is
    queried. *)
Lemma validatePath_nominal_denied (requestedPath : string) (d : disk) :
  nominallyAllowed requestedPath = false ->
  PathUtils.validatePath deps requestedPath allowedDirectories d =
  (Throw (PathUtils.accessDeniedRequested (absoluteOf requestedPath)
            allowedDirectories), d).
Proof.
  unfold nominallyAllowed, absoluteOf, PathUtils.validatePath.
  intros ->; reflexivity.
Qed.

(** The second check: a real path that no allowed directory prefixes is
    refused, and the error thrown in the [try] block goes through the [catch]
    clause as it is. *)
Lemma validatePath_symlink_denied (requestedPath real : string) (d : disk) :
  nominallyAllowed requestedPath = true ->
  realpath (fs deps) d (absoluteOf requestedPath) = Ok real ->
  PathUtils.isAllowed allowedDirectories (PathUtils.normalizePath deps real) = false ->
  PathUtils.validatePath deps requestedPath allowedDirectories d =
  (Throw PathUtils.accessDeniedSymlink, d).
Proof.
  unfold nominallyAllowed, absoluteOf, PathUtils.validatePath.
  intros -> Hreal Hout; cbn.
  unfold tryCatch, bind, query; rewrite Hreal, Hout; reflexivity.
Qed.

Lemma accessDeniedRequested_denied (absolute : string) :
  Spec.isAccessDenied
    (PathUtils.accessDeniedRequested absolute allowedDirectories) = true.
Proof.
  exact (includes_prefix "Access denied"
           (" - path outside allowed directories: " ++ absolute
            ++ " not in " ++ Js.join ", " allowedDirectories)).
Qed.

(** Whatever the first check said, a real path that no allowed directory
    prefixes makes the method throw an access-denied error. *)
Lemma validatePath_real_outside_denied (requestedPath real : string) (d : disk) :
  realpath (fs deps) d (absoluteOf requestedPath) = Ok real ->
  PathUtils.isAllowed allowedDirectories (PathUtils.normalizePath deps real) = false ->
  exists e,
    PathUtils.validatePath deps requestedPath allowedDirectories d = (Throw e, d)
    /\ Spec.isAccessDenied e = true.
Proof.
  intros Hreal Hout.
  destruct (nominallyAllowed requestedPath) eqn:Hnom.
  - exists PathUtils.accessDeniedSymlink; split; [|reflexivity].
    now apply validatePath_symlink_denied with (real := real).
  - eexists; split; [now apply validatePath_nominal_denied|].
    apply accessDeniedRequested_denied.
Qed.

(** A success of the method means that an allowed directory is a string
    prefix of the normalized requested path. *)
Lemma validatePath_ok_prefix (requestedPath validPath : string) (d d' : disk) :
  PathUtils.validatePath deps requestedPath allowedDirectories d = (Ok validPath, d') ->
  exists dir, In dir allowedDirectories
    /\ Js.startsWith (PathUtils.normalizePath deps (absoluteOf requestedPath)) dir = true.
Proof.
  intros H. destruct (nominallyAllowed requestedPath) eqn:Hnom.
  - unfold nominallyAllowed, PathUtils.isAllowed in Hnom.
    apply existsb_exists in Hnom. exact Hnom.
  - rewrite validatePath_nominal_denied in H by assumption. discriminate.
Qed.

(** The [catch] clause on a not-found error: only the success of the
    [realpath] of the parent directory is looked at. *)
Lemma validatePath_enoent (requestedPath message : string) (d : disk) :
  nominallyAllowed requestedPath = true ->
  realpath (fs deps) d (absoluteOf requestedPath) = Throw (JsError message) ->
  Js.includes message "ENOENT" = true ->
  PathUtils.validatePath deps requestedPath allowedDirectories d =
  match realpath (fs deps) d (parentOf requestedPath) with
  | Ok _ => (Ok (absoluteOf requestedPath), d)
  | Throw _ => (Throw (JsError message), d)
  end.
Proof.
  unfold nominallyAllowed, parentOf, absoluteOf, PathUtils.validatePath.
  intros -> Hreal Hmsg; cbn.
  unfold tryCatch at 1. unfold bind, query. rewrite Hreal; cbn.
  rewrite Hmsg. unfold tryCatch, bind, query, ret, throw.
  destruct (realpath (fs deps) d (dirname _ _)); reflexivity.
Qed.

(** C3. A requested path that passes the first check and does not exist (its
    [realpath] fails with a not-found error): when the [realpath] of the
    parent directory succeeds, the method returns the absolute path it
    computed before any resolution; when it fails, the method throws the
    not-found error of the path itself. *)
Theorem validatePath_not_found_fallback
    (requestedPath message : string) (d : disk) :
  nominallyAllowed requestedPath = true ->
  realpath (fs deps) d (absoluteOf requestedPath) = Throw (JsError message) ->
  Js.includes message "ENOENT" = true ->
  (forall parentReal,
      realpath (fs deps) d (parentOf requestedPath) = Ok parentReal ->
      PathUtils.validatePath deps requestedPath allowedDirectories d
      = (Ok (absoluteOf requestedPath), d))
  /\ (forall parentError,
      realpath (fs deps) d (parentOf requestedPath) = Throw parentError ->
      PathUtils.validatePath deps requestedPath allowedDirectories d
      = (Throw (JsError message), d)).
Proof.
  intros Hnom Hreal Hmsg.
  split; intros x Hparent;
    rewrite (validatePath_enoent _ _ _ Hnom Hreal Hmsg), Hparent; reflexivity.
Qed.

(** C10. For a requested path that passes the first check and does not
    exist, the outcome does not depend on where the parent directory really
    is: on two disks where the [realpath] of the parent succeeds, with
    whatever real paths, the method returns the same absolute path. *)
Theorem validatePath_parent_target_unchecked
    (requestedPath message1 message2 parent1 parent2 : string) (d1 d2 : disk) :
  nominallyAllowed requestedPath = true ->
  realpath (fs deps) d1 (absoluteOf requestedPath) = Throw (JsError message1) ->
  Js.includes message1 "ENOENT" = true ->
  realpath (fs deps) d2 (absoluteOf requestedPath) = Throw (JsError message2) ->
  Js.includes message2 "ENOENT" = true ->
  realpath (fs deps) d1 (parentOf requestedPath) = Ok parent1 ->
  realpath (fs deps) d2 (parentOf requestedPath) = Ok parent2 ->
  fst (PathUtils.validatePath deps requestedPath allowedDirectories d1)
    = Ok (absoluteOf requestedPath)
  /\ fst (PathUtils.validatePath deps requestedPath allowedDirectories d2)
    = Ok (absoluteOf requestedPath).
Proof.
  intros Hnom H1 M1 H2 M2 P1 P2.
  rewrite (validatePath_enoent _ _ _ Hnom H1 M1), P1.
  rewrite (validatePath_enoent _ _ _ Hnom H2 M2), P2.
  split; reflexivity.
Qed.

End ValidatePath.

(** *** The method on the in-memory disk *)

Import Fixtures.

(** C1. With ["/allowed-dir"] as the only allowed directory, the request for
    ["/allowed-dirEVIL/x"] is not refused: the path is not within the root in
    the sense of the specification, but the root is a string prefix of it,
    and [validatePath] returns it. *)
Theorem validatePath_accepts_sibling_prefix :
  let d := {| links := [("/allowed-dirEVIL/x", "/allowed-dirEVIL/x")];
              files := [] |} in
  Spec.withinRoots ["/allowed-dir"] "/allowed-dirEVIL/x" = false
  /\ PathUtils.validatePath (memDeps "/allowed-dirEVIL/x")
        "/allowed-dirEVIL/x" ["/allowed-dir"] d
      = (Ok "/allowed-dirEVIL/x", d).
Proof. split; reflexivity. Qed.

(** C2. With ["/allowed-dir"] as the only allowed directory, a link
    ["/allowed-dir/link"] whose real path is ["/allowed-dirEVIL/secret"] is
    not refused: the real path lies outside the root, but the root is a
    string prefix of it, and [validatePath] returns the real path. *)
Theorem validatePath_accepts_symlink_to_sibling_prefix :
  let d := {| links := [("/allowed-dir/link", "/allowed-dirEVIL/secret")];
              files := [] |} in
  Spec.withinRoots ["/allowed-dir"] "/allowed-dirEVIL/secret" = false
  /\ PathUtils.validatePath (memDeps "/allowed-dir/link")
        "/allowed-dir/link" ["/allowed-dir"] d
      = (Ok "/allowed-dirEVIL/secret", d).
Proof. split; reflexivity. Qed.

(** The test "should handle symlinks that point outside allowed
    directories": the link is refused with the error of the second check. *)
Example validatePath_symlink_test :
  let d := {| links := [("/allowed/dir/link.txt", "/not/allowed/target.txt")];
              files := [] |} in
  PathUtils.validatePath (memDeps "/allowed/dir/link.txt")
    "/allowed/dir/link.txt" ["/allowed/dir"] d
  = (Throw PathUtils.accessDeniedSymlink, d).
Proof.
  intros d.
  apply (validatePath_symlink_denied (memDeps "/allowed/dir/link.txt")
           ["/allowed/dir"] "/allowed/dir/link.txt" "/not/allowed/target.txt" d);
    reflexivity.
Qed.

(** The new-file test of the specification: the parent exists, or not. *)
Lemma validatePath_not_found_fallback_witness :
  let deps := memDeps "/allowed/dir/new.txt" in
  let withParent := {| links := [("/allowed/dir", "/allowed/dir")]; files := [] |} in
  let withoutParent := {| links := []; files := [] |} in
  PathUtils.validatePath deps "/allowed/dir/new.txt" ["/allowed/dir"] withParent
  = (Ok "/allowed/dir/new.txt", withParent)
  /\ PathUtils.validatePath deps "/allowed/dir/new.txt" ["/allowed/dir"] withoutParent
  = (Throw (enoent "realpath" "/allowed/dir/new.txt"), withoutParent).
Proof.
  intros deps withParent withoutParent. split.
  - apply (proj1 (validatePath_not_found_fallback deps ["/allowed/dir"]
                    "/allowed/dir/new.txt"
                    "ENOENT: no such file or directory, realpath '/allowed/dir/new.txt'"
                    withParent eq_refl eq_refl eq_refl) "/allowed/dir").
    reflexivity.
  - apply (proj2 (validatePath_not_found_fallback deps ["/allowed/dir"]
                    "/allowed/dir/new.txt"
                    "ENOENT: no such file or directory, realpath '/allowed/dir/new.txt'"
                    withoutParent eq_refl eq_refl eq_refl)
                 (enoent "realpath" "/allowed/dir")).
    reflexivity.
Defined.

(** The parent is a link to [/etc] on the second disk. *)
Lemma validatePath_parent_target_unchecked_witness :
  let deps := memDeps "/allowed/dir/new.txt" in
  let inside := {| links := [("/allowed/dir", "/allowed/dir")]; files := [] |} in
  let outside := {| links := [("/allowed/dir", "/etc")]; files := [] |} in
  (PathUtils.isAllowed ["/allowed/dir"] "/allowed/dir" = true
   /\ PathUtils.isAllowed ["/allowed/dir"] "/etc" = false)
  /\ fst (PathUtils.validatePath deps "/allowed/dir/new.txt" ["/allowed/dir"] inside)
      = Ok "/allowed/dir/new.txt"
  /\ fst (PathUtils.validatePath deps "/allowed/dir/new.txt" ["/allowed/dir"] outside)
      = Ok "/allowed/dir/new.txt".
Proof.
  intros deps inside outside. split; [split; reflexivity|].
  apply (validatePath_parent_target_unchecked deps ["/allowed/dir"]
           "/allowed/dir/new.txt"
           "ENOENT: no such file or directory, realpath '/allowed/dir/new.txt'"
           "ENOENT: no such file or directory, realpath '/allowed/dir/new.txt'"
           "/allowed/dir" "/etc" inside outside); reflexivity.
Defined.

(** ** The fence of the returned diff *)

(** The loop stops: a run of more backticks than the diff has characters does
    not occur in it. The loop stops at the first length, from
    [numBackticks] on, of which the diff has no run. *)
Lemma growFence_stops (diff : string) (fuel n : nat) :
  String.length diff + 1 < n + fuel ->
  n <= String.length diff + 1 ->
  exists m,
    FileEditor.growFence fuel n diff = Some m
    /\ n <= m
    /\ Js.includes diff (Js.repeat "`" m) = false
    /\ forall k, n <= k < m -> Js.includes diff (Js.repeat "`" k) = true.
Proof.
  revert n; induction fuel as [|fuel IH]; intros n Hfuel Hn; [lia|].
  cbn [FileEditor.growFence].
  destruct (Js.includes diff (Js.repeat "`" n)) eqn:Hinc.
  - pose proof (includes_length _ _ Hinc) as Hlen.
    rewrite repeat_length in Hlen.
    destruct (IH (S n)) as (m & Hm & Hle & Hout & Hmin); [lia|lia|].
    exists m; repeat split; [exact Hm|lia|exact Hout|].
    intros k Hk. destruct (Nat.eq_dec k n) as [->|Hne]; [exact Hinc|].
    apply Hmin; lia.
  - exists n; repeat split; [lia|exact Hinc|]. intros k Hk; lia.
Qed.

Lemma growFence_terminates (diff : string) :
  exists n, FileEditor.growFence (S (String.length diff)) 3 diff = Some n.
Proof.
  destruct (le_lt_dec 3 (String.length diff + 1)) as [Hle|Hlt].
  - destruct (growFence_stops diff (S (String.length diff)) 3) as (m & Hm & _);
      [lia|lia|]. now exists m.
  - exists 3. cbn [FileEditor.growFence].
    destruct (Js.includes diff (Js.repeat "`" 3)) eqn:Hinc; [|reflexivity].
    apply includes_length in Hinc. rewrite repeat_length in Hinc. lia.
Qed.

(** The number of backticks of the fence: at least three, no run of that
    length in the diff, and a run of every length from three up to it. *)
Lemma numBackticks_spec (diff : string) :
  FileEditor.growFence (S (String.length diff)) 3 diff
    = Some (FileEditor.numBackticks diff)
  /\ 3 <= FileEditor.numBackticks diff
  /\ Js.includes diff (Js.repeat "`" (FileEditor.numBackticks diff)) = false
  /\ forall k, 3 <= k < FileEditor.numBackticks diff ->
       Js.includes diff (Js.repeat "`" k) = true.
Proof.
  unfold FileEditor.numBackticks.
  destruct (le_lt_dec 3 (String.length diff + 1)) as [Hle|Hlt].
  - destruct (growFence_stops diff (S (String.length diff)) 3)
      as (m & Hm & Hge & Hout & Hmin); [lia|lia|].
    rewrite Hm. repeat split; assumption.
  - cbn [FileEditor.growFence].
    destruct (Js.includes diff (Js.repeat "`" 3)) eqn:Hinc.
    + apply includes_length in Hinc. rewrite repeat_length in Hinc. lia.
    + repeat split; [lia|exact Hinc|]. intros k Hk; lia.
Qed.

(** ** Line endings *)

Lemma normalizeLineEndings_cons (c : ascii) (t : string) :
  (Ascii.eqb c Js.CR && Spec.headIs Js.LF t) = false ->
  FileEditor.normalizeLineEndings (String c t)
  = String c (FileEditor.normalizeLineEndings t).
Proof.
  destruct t as [|c' t']; [reflexivity|].
  cbn [FileEditor.normalizeLineEndings Spec.headIs]. intros ->. reflexivity.
Qed.

Lemma toCRLF_head (s : string) : Spec.headIs Js.LF (Spec.toCRLF s) = false.
Proof.
  destruct s as [|c s]; [reflexivity|].
  cbn [Spec.toCRLF]. destruct (Ascii.eqb c Js.LF) eqn:E; [reflexivity|exact E].
Qed.

(** Normalization undoes the conversion to carriage return, line feed. *)
Lemma normalizeLineEndings_toCRLF (s : string) :
  FileEditor.normalizeLineEndings (Spec.toCRLF s) = s.
Proof.
  induction s as [|c s IH]; [reflexivity|].
  cbn [Spec.toCRLF]. destruct (Ascii.eqb c Js.LF) eqn:E.
  - apply Ascii.eqb_eq in E; subst c.
    cbn [FileEditor.normalizeLineEndings]. rewrite !Ascii.eqb_refl. cbn.
    now rewrite IH.
  - rewrite normalizeLineEndings_cons, IH; [reflexivity|].
    rewrite toCRLF_head. apply andb_false_r.
Qed.

(** A text in the line-feed convention is left as it is. *)
Lemma normalizeLineEndings_lfOnly (s : string) :
  Spec.lfOnly s = true -> FileEditor.normalizeLineEndings s = s.
Proof.
  induction s as [|c s IH]; [reflexivity|].
  destruct s as [|c' s']; [reflexivity|].
  cbn [Spec.lfOnly]. intros H. apply andb_prop in H as [Hc Hs].
  rewrite normalizeLineEndings_cons, IH; [reflexivity|exact Hs|].
  cbn [Spec.headIs]. now apply negb_true_iff in Hc.
Qed.

(** ** The edit loop *)

Lemma applyEdits_app (content : string) (done rest : list Edit) :
  FileEditor.applyEdits content (done ++ rest)%list =
  match FileEditor.applyEdits content done with
  | Ok current => FileEditor.applyEdits current rest
  | Throw e => Throw e
  end.
Proof.
  revert content; induction done as [|edit done IH]; intros content;
    [reflexivity|].
  cbn [FileEditor.applyEdits app].
  destruct (FileEditor.applyEdit content edit); [apply IH|reflexivity].
Qed.

(** One turn of the loop looks at the instruction through its normalized
    texts only, but for the message of the error. *)
Lemma applyEdit_normalized (content : string) (e1 e2 : Edit) :
  FileEditor.normalizeLineEndings (oldText e1)
    = FileEditor.normalizeLineEndings (oldText e2) ->
  FileEditor.normalizeLineEndings (newText e1)
    = FileEditor.normalizeLineEndings (newText e2) ->
  Spec.finalContent (FileEditor.applyEdit content e1)
  = Spec.finalContent (FileEditor.applyEdit content e2).
Proof.
  unfold FileEditor.applyEdit. intros -> ->.
  destruct (Js.includes content _); [reflexivity|].
  destruct (FileEditor.fuzzyReplace content _ _); reflexivity.
Qed.

Lemma applyEdits_normalized (content : string) (edits1 edits2 : list Edit) :
  Forall2 (fun e1 e2 =>
             FileEditor.normalizeLineEndings (oldText e1)
               = FileEditor.normalizeLineEndings (oldText e2)
             /\ FileEditor.normalizeLineEndings (newText e1)
               = FileEditor.normalizeLineEndings (newText e2)) edits1 edits2 ->
  Spec.finalContent (FileEditor.applyEdits content edits1)
  = Spec.finalContent (FileEditor.applyEdits content edits2).
Proof.
  intros H; revert content; induction H as [|e1 e2 l1 l2 [Hold Hnew] _ IH];
    intros content; [reflexivity|].
  cbn [FileEditor.applyEdits].
  pose proof (applyEdit_normalized content e1 e2 Hold Hnew) as Hstep.
  destruct (FileEditor.applyEdit content e1), (FileEditor.applyEdit content e2);
    cbn in Hstep; try discriminate; [|reflexivity].
  injection Hstep as ->. apply IH.
Qed.

Lemma applyEdits_toCRLF (content : string) (edits : list Edit) :
  forallb Spec.lfOnlyEdit edits = true ->
  Spec.finalContent (FileEditor.applyEdits content (map Spec.toCRLFEdit edits))
  = Spec.finalContent (FileEditor.applyEdits content edits).
Proof.
  intros H. apply applyEdits_normalized.
  induction edits as [|e edits IH]; cbn [map]; constructor.
  - cbn [forallb] in H. apply andb_prop in H as [He _].
    unfold Spec.lfOnlyEdit in He. apply andb_prop in He as [Hold Hnew].
    cbn [Spec.toCRLFEdit oldText newText].
    rewrite !normalizeLineEndings_toCRLF, !normalizeLineEndings_lfOnly;
      auto.
  - apply IH. cbn [forallb] in H. now apply andb_prop in H as [_ H].
Qed.

(** ** The exact strategy *)

Lemma prefix_cons (c c' : ascii) (t s : string) :
  prefix (String c t) (String c' s) = true <-> c = c' /\ prefix t s = true.
Proof.
  cbn [prefix]. destruct (ascii_dec c c') as [->|Hne]; split.
  - now split.
  - now intros [_ H].
  - discriminate.
  - now intros [H _].
Qed.

Lemma prefix_slice (p s : string) :
  prefix p s = true -> s = p ++ Js.slice_from (String.length p) s.
Proof.
  revert s; induction p as [|c p IH]; intros s H; [reflexivity|].
  destruct s as [|c' s]; [discriminate|].
  apply prefix_cons in H as [<- H]. cbn. f_equal. now apply IH.
Qed.

(** The position that [indexOf] returns splits the string around the
    pattern. *)
Lemma indexOf_split (s p : string) (i : nat) :
  Js.indexOf s p = Some i ->
  s = Js.slice_to i s ++ p ++ Js.slice_from (i + String.length p) s.
Proof.
  revert i; induction s as [|c s IH]; intros i.
  - rewrite indexOf_nil. destruct (prefix p "") eqn:P; [|discriminate].
    intros [= <-]. now apply prefix_slice.
  - rewrite indexOf_cons. destruct (prefix p (String c s)) eqn:P.
    + intros [= <-]. now apply prefix_slice.
    + destruct (Js.indexOf s p) as [k|] eqn:E; [|discriminate].
      intros [= <-]. cbn. f_equal. now apply IH.
Qed.

(** The pattern occurs at no earlier position. *)
Lemma indexOf_first (s p : string) (i : nat) :
  Js.indexOf s p = Some i ->
  prefix p (Js.slice_from i s) = true
  /\ forall k, k < i -> prefix p (Js.slice_from k s) = false.
Proof.
  revert i; induction s as [|c s IH]; intros i.
  - rewrite indexOf_nil. destruct (prefix p "") eqn:P; [|discriminate].
    intros [= <-]. split; [exact P|]. intros k Hk; lia.
  - rewrite indexOf_cons. destruct (prefix p (String c s)) eqn:P.
    + intros [= <-]. split; [exact P|]. intros k Hk; lia.
    + destruct (Js.indexOf s p) as [j|] eqn:E; [|discriminate].
      intros [= <-]. destruct (IH j eq_refl) as [Hat Hbefore].
      split; [exact Hat|].
      intros [|k] Hk; [exact P|]. apply Hbefore; lia.
Qed.

(** A replacement text without dollar sign stands for itself. *)
Lemma getSubstitution_literal (matched before after template : string) :
  Spec.noDollar template = true ->
  Js.getSubstitution matched before after template = template.
Proof.
  induction template as [|c rest IH]; [reflexivity|].
  cbn [Spec.noDollar Js.getSubstitution]. intros H.
  apply andb_prop in H as [Hc Hrest]. apply negb_true_iff in Hc.
  rewrite Hc. cbn zeta. now rewrite IH.
Qed.

(** The exact strategy comes first: when the content has the old text, the
    turn is [replace], at the first occurrence. *)
Lemma applyEdit_exact (modifiedContent : string) (edit : Edit) :
  Js.includes modifiedContent (FileEditor.normalizeLineEndings (oldText edit)) = true ->
  FileEditor.applyEdit modifiedContent edit
  = Ok (Js.replace modifiedContent
          (FileEditor.normalizeLineEndings (oldText edit))
          (FileEditor.normalizeLineEndings (newText edit))).
Proof. unfold FileEditor.applyEdit. now intros ->. Qed.

(** Without dollar sign in the new text, the first occurrence of the old
    text is replaced by the new text as it is. *)
Lemma replace_literal (s pattern replacement : string) (i : nat) :
  Js.indexOf s pattern = Some i ->
  Spec.noDollar replacement = true ->
  Js.replace s pattern replacement
  = Js.slice_to i s ++ replacement
    ++ Js.slice_from (i + String.length pattern) s.
Proof.
  unfold Js.replace. intros -> H. now rewrite getSubstitution_literal.
Qed.

(** ** The line-by-line strategy *)

Lemma searchFrom_some (contentLines oldLines : list string) (remaining i k : nat) :
  FileEditor.searchFrom contentLines oldLines i remaining = Some k ->
  i <= k < i + remaining
  /\ FileEditor.isMatch oldLines (Js.slice k (length oldLines) contentLines) = true
  /\ forall j, i <= j < k ->
       FileEditor.isMatch oldLines (Js.slice j (length oldLines) contentLines) = false.
Proof.
  revert i; induction remaining as [|remaining IH]; intros i; [discriminate|].
  cbn [FileEditor.searchFrom]. cbn zeta.
  destruct (FileEditor.isMatch oldLines
              (Js.slice i (length oldLines) contentLines)) eqn:Hm.
  - intros [= <-]. repeat split; [lia|lia|exact Hm|]. intros j Hj; lia.
  - intros H. apply IH in H as (Hk & Hat & Hbefore).
    repeat split; [lia|lia|exact Hat|].
    intros j Hj. destruct (Nat.eq_dec j i) as [->|Hne]; [exact Hm|].
    apply Hbefore; lia.
Qed.

Lemma searchFrom_none (contentLines oldLines : list string) (remaining i : nat) :
  FileEditor.searchFrom contentLines oldLines i remaining = None ->
  forall j, i <= j < i + remaining ->
    FileEditor.isMatch oldLines (Js.slice j (length oldLines) contentLines) = false.
Proof.
  revert i; induction remaining as [|remaining IH]; intros i H j Hj; [lia|].
  cbn [FileEditor.searchFrom] in H. cbn zeta in H.
  destruct (FileEditor.isMatch oldLines
              (Js.slice i (length oldLines) contentLines)) eqn:Hm;
    [discriminate|].
  destruct (Nat.eq_dec j i) as [->|Hne]; [exact Hm|].
  apply (IH (S i) H); lia.
Qed.

Lemma turns_spec (contentLines oldLines : list string) (i : nat) :
  i < FileEditor.turns contentLines oldLines
  <-> i + length oldLines <= length contentLines.
Proof.
  unfold FileEditor.turns.
  destruct (Nat.leb_spec (length oldLines) (length contentLines)); lia.
Qed.

(** The window that the loop finds is the first one that matches. *)
Lemma findWindow_first (contentLines oldLines : list string) (i : nat) :
  FileEditor.findWindow contentLines oldLines = Some i ->
  Spec.firstWindow contentLines oldLines i.
Proof.
  unfold FileEditor.findWindow, Spec.firstWindow. intros H.
  apply searchFrom_some in H as (Hi & Hat & Hbefore).
  split; [apply turns_spec; lia|]. split; [exact Hat|].
  intros k Hk. apply Hbefore; lia.
Qed.

(** The loop finds a window as soon as one matches. *)
Lemma findWindow_none (contentLines oldLines : list string) :
  FileEditor.findWindow contentLines oldLines = None ->
  forall i, i + length oldLines <= length contentLines ->
    FileEditor.isMatch oldLines (Js.slice i (length oldLines) contentLines) = false.
Proof.
  unfold FileEditor.findWindow. intros H i Hi.
  apply (searchFrom_none _ _ _ _ H). apply turns_spec in Hi. lia.
Qed.

(** A window matches when each of its lines, trimmed, is the old line at the
    same place, trimmed. *)
Lemma isMatch_spec (oldLines potentialMatch : list string) :
  length potentialMatch = length oldLines ->
  FileEditor.isMatch oldLines potentialMatch = true
  <-> Forall2 (fun oldLine contentLine => Js.trim oldLine = Js.trim contentLine)
        oldLines potentialMatch.
Proof.
  revert potentialMatch; induction oldLines as [|o oldLines IH];
    intros [|c w] Hlen; try discriminate; cbn [FileEditor.isMatch].
  - split; [constructor|reflexivity].
  - injection Hlen as Hlen. rewrite andb_true_iff, String.eqb_eq, (IH w Hlen).
    split.
    + intros [H1 H2]. now constructor.
    + intros H. inversion H; subst. now split.
Qed.

(** ** The indentation of the replacement *)

Lemma truthy_spec (s : string) : Js.truthy s = true <-> s <> EmptyString.
Proof. destruct s; cbn; split; congruence. Qed.

Lemma truthy_false (s : string) : Js.truthy s = false <-> s = EmptyString.
Proof. destruct s; cbn; split; congruence. Qed.

Lemma mapi_from_length {A B} (f : A -> nat -> B) (l : list A) (k : nat) :
  length (Js.mapi_from k f l) = length l.
Proof. revert k; induction l as [|x l IH]; intros k; cbn; congruence. Qed.

Lemma mapi_from_nth_error {A B} (f : A -> nat -> B) (l : list A) (k j : nat) :
  nth_error (Js.mapi_from k f l) j
  = option_map (fun x => f x (k + j)) (nth_error l j).
Proof.
  revert k j; induction l as [|x l IH]; intros k [|j]; cbn; try reflexivity.
  - now rewrite Nat.add_0_r.
  - rewrite IH. now rewrite Nat.add_succ_r.
Qed.

Lemma mapi_nth_error {A B} (f : A -> nat -> B) (l : list A) (j : nat) (x : A) :
  nth_error l j = Some x -> nth_error (Js.mapi f l) j = Some (f x j).
Proof. unfold Js.mapi. rewrite mapi_from_nth_error. now intros ->. Qed.

Lemma leadingWhitespace_trimStart (s : string) :
  Js.leadingWhitespace (Js.trimStart s) = EmptyString.
Proof.
  induction s as [|c s IH]; [reflexivity|].
  cbn [Js.trimStart]. destruct (Js.isWhitespace c) eqn:E; [exact IH|].
  cbn [Js.leadingWhitespace]. now rewrite E.
Qed.

Lemma leadingWhitespace_indent (s t : string) :
  Js.leadingWhitespace (Js.leadingWhitespace s ++ t)
  = Js.leadingWhitespace s ++ Js.leadingWhitespace t.
Proof.
  induction s as [|c s IH]; [reflexivity|].
  cbn [Js.leadingWhitespace]. destruct (Js.isWhitespace c) eqn:E; [|reflexivity].
  cbn [append Js.leadingWhitespace]. now rewrite E, IH.
Qed.

Lemma leadingWhitespace_spaces (n : nat) (t : string) :
  Js.leadingWhitespace (Js.repeat " " n ++ t)
  = Js.repeat " " n ++ Js.leadingWhitespace t.
Proof. induction n as [|n IH]; [reflexivity|]. cbn. now rewrite IH. Qed.

(** The indentation of a rewritten line is the captured indentation and the
    spaces added to it. *)
Lemma rewritten_indentation (contentLine line : string) (n : nat) :
  Js.leadingWhitespace
    (Js.leadingWhitespace contentLine ++ Js.repeat " " n ++ Js.trimStart line)
  = Js.leadingWhitespace contentLine ++ Js.repeat " " n.
Proof.
  rewrite leadingWhitespace_indent, leadingWhitespace_spaces,
    leadingWhitespace_trimStart.
  f_equal. induction n as [|n IH]; [reflexivity|]. cbn. now rewrite IH.
Qed.

(** The callback on the first line. *)
Lemma indentLine_first (originalIndent : string) (oldLines : list string)
    (line : string) :
  FileEditor.indentLine originalIndent oldLines line 0
  = originalIndent ++ Js.trimStart line.
Proof. reflexivity. Qed.

(** The callback on a later line, when the old line at the same place and
    the new line are both indented: the captured indentation, then as many
    spaces as the new indentation is longer than the old one, none when it is
    not longer. *)
Lemma indentLine_relative (originalIndent : string) (oldLines : list string)
    (line : string) (j : nat) :
  0 < j ->
  FileEditor.indentAt oldLines j <> EmptyString ->
  Js.leadingWhitespace line <> EmptyString ->
  FileEditor.indentLine originalIndent oldLines line j
  = originalIndent
    ++ Js.repeat " " (String.length (Js.leadingWhitespace line)
                      - String.length (FileEditor.indentAt oldLines j))
    ++ Js.trimStart line.
Proof.
  intros Hj Hold Hnew. unfold FileEditor.indentLine.
  destruct (Nat.eqb_spec j 0) as [->|_]; [lia|].
  apply truthy_spec in Hold, Hnew. rewrite Hold, Hnew. cbn [andb].
  do 2 f_equal. f_equal. lia.
Qed.

(** The callback on a later line, when the old line at the same place or the
    new line is not indented, or when there is no old line at that place. *)
Lemma indentLine_unmodified (originalIndent : string) (oldLines : list string)
    (line : string) (j : nat) :
  0 < j ->
  FileEditor.indentAt oldLines j = EmptyString
  \/ Js.leadingWhitespace line = EmptyString ->
  FileEditor.indentLine originalIndent oldLines line j = line.
Proof.
  intros Hj H. unfold FileEditor.indentLine.
  destruct (Nat.eqb_spec j 0) as [->|_]; [lia|].
  destruct H as [H|H]; apply truthy_false in H; rewrite H;
    [reflexivity|now rewrite andb_false_r].
Qed.

(** C7, as the code has it. When the exact strategy fails and the window at
    line [i] is the one found, the turn replaces the window by the rewritten
    lines of the new text. The first line is the leading white space of the
    first content line of the window, then the line without its own leading
    white space. A later line whose old line at the same place and itself are
    both indented is that captured indentation, then as many spaces as its
    indentation is longer than the old one (none when it is not longer: the
    captured indentation is widened, never narrowed), then the line without
    its leading white space. A later line is left as it is when it or the
    old line at the same place is not indented. *)
Theorem applyEdit_fuzzy_indentation (modifiedContent : string) (edit : Edit)
    (i : nat) :
  let normalizedOld := FileEditor.normalizeLineEndings (oldText edit) in
  let normalizedNew := FileEditor.normalizeLineEndings (newText edit) in
  let oldLines := Js.split_lines normalizedOld in
  let contentLines := Js.split_lines modifiedContent in
  let newLines := Js.split_lines normalizedNew in
  let originalIndent := Js.leadingWhitespace (nth i contentLines EmptyString) in
  Js.includes modifiedContent normalizedOld = false ->
  FileEditor.findWindow contentLines oldLines = Some i ->
  exists rewritten,
    FileEditor.applyEdit modifiedContent edit
    = Ok (Js.join Js.nl
            (firstn i contentLines ++ rewritten
             ++ skipn (i + length oldLines) contentLines)%list)
    /\ length rewritten = length newLines
    /\ (forall line,
          nth_error newLines 0 = Some line ->
          nth_error rewritten 0 = Some (originalIndent ++ Js.trimStart line))
    /\ (forall j line,
          0 < j ->
          nth_error newLines j = Some line ->
          FileEditor.indentAt oldLines j <> EmptyString ->
          Js.leadingWhitespace line <> EmptyString ->
          nth_error rewritten j
          = Some (originalIndent
                  ++ Js.repeat " "
                       (String.length (Js.leadingWhitespace line)
                        - String.length (FileEditor.indentAt oldLines j))
                  ++ Js.trimStart line))
    /\ (forall j line,
          0 < j ->
          nth_error newLines j = Some line ->
          FileEditor.indentAt oldLines j = EmptyString
          \/ Js.leadingWhitespace line = EmptyString ->
          nth_error rewritten j = Some line).
Proof.
  intros normalizedOld normalizedNew oldLines contentLines newLines
    originalIndent Hexact Hwindow.
  exists (Js.mapi (FileEditor.indentLine originalIndent oldLines) newLines).
  split.
  - unfold FileEditor.applyEdit, FileEditor.fuzzyReplace.
    fold normalizedOld normalizedNew. rewrite Hexact.
    fold oldLines contentLines. rewrite Hwindow. reflexivity.
  - split; [apply mapi_from_length|].
    split; [|split].
    + intros line Hline. rewrite (mapi_nth_error _ _ _ _ Hline).
      now rewrite indentLine_first.
    + intros j line Hj Hline Hold Hnew. rewrite (mapi_nth_error _ _ _ _ Hline).
      now rewrite indentLine_relative.
    + intros j line Hj Hline Hnone. rewrite (mapi_nth_error _ _ _ _ Hline).
      now rewrite indentLine_unmodified.
Qed.

(** ** FileEditor.applyFileEdits *)

Section ApplyFileEdits.

Context {disk : Type}.
Variable deps : FileSystemDependencies disk.
Variable createTwoFilesPatch :
  string -> string -> string -> string -> string -> string -> string.
Variable allowedDirectories : list string.

Let validatePath := PathUtils.validatePath deps.
Let applyFileEdits :=
  FileEditor.applyFileEdits deps createTwoFilesPatch allowedDirectories.
Let createUnifiedDiff := FileEditor.createUnifiedDiff createTwoFilesPatch.

(** The method, step by step: the path, the content, the edits, the diff
    and, unless [dryRun], the write. *)
Lemma applyFileEdits_steps (filePath : string) (edits : list Edit)
    (dryRun : bool) (d : disk) :
  applyFileEdits filePath edits dryRun d =
  match fst (validatePath filePath allowedDirectories d) with
  | Throw e => (Throw e, d)
  | Ok validPath =>
      match readFile (fs deps) d validPath with
      | Throw e => (Throw e, d)
      | Ok raw =>
          let content := FileEditor.normalizeLineEndings raw in
          match FileEditor.applyEdits content edits with
          | Throw e => (Throw e, d)
          | Ok modifiedContent =>
              let formattedDiff :=
                FileEditor.formatDiff
                  (createUnifiedDiff content modifiedContent filePath) in
              if dryRun then (Ok formattedDiff, d)
              else
                match writeFile (fs deps) validPath modifiedContent d with
                | (Ok _, d') => (Ok formattedDiff, d')
                | (Throw e, d') => (Throw e, d')
                end
          end
      end
  end.
Proof.
  unfold applyFileEdits, validatePath, FileEditor.applyFileEdits.
  unfold bind at 1.
  pose proof (validatePath_disk deps allowedDirectories filePath d) as Hd.
  destruct (PathUtils.validatePath deps filePath allowedDirectories d)
    as [[validPath|e] d0]; cbn [fst snd] in *; subst d0; [|reflexivity].
  unfold bind at 1, query.
  destruct (readFile (fs deps) d validPath) as [raw|e]; [|reflexivity].
  cbn zeta. unfold bind at 1, lift.
  destruct (FileEditor.applyEdits _ edits) as [modifiedContent|e];
    [|reflexivity].
  unfold bind, ret. destruct dryRun; cbn [negb]; [reflexivity|].
  destruct (writeFile (fs deps) validPath modifiedContent d) as [[u|e] d'];
    reflexivity.
Qed.

(** Without a write the disk is as it was: the method changes the disk by
    its call of [writeFile] only. *)
Lemma applyFileEdits_failed_edits (filePath validPath raw : string)
    (edits : list Edit) (dryRun : bool) (d : disk) (e : thrown) :
  fst (validatePath filePath allowedDirectories d) = Ok validPath ->
  readFile (fs deps) d validPath = Ok raw ->
  FileEditor.applyEdits (FileEditor.normalizeLineEndings raw) edits = Throw e ->
  applyFileEdits filePath edits dryRun d = (Throw e, d).
Proof.
  intros Hpath Hread Hedits.
  rewrite applyFileEdits_steps, Hpath, Hread. cbn zeta. now rewrite Hedits.
Qed.

(** C4. When the instructions before [edit] apply and give [current], and the
    old text of [edit] is neither a substring of [current] nor matched by a
    window of its lines, the method throws the error whose message ends with
    that old text, and the disk is as it was before the call, whatever
    [dryRun] is and whatever instructions follow. *)
Theorem applyFileEdits_unmatched_edit
    (filePath validPath raw current : string) (done rest : list Edit)
    (edit : Edit) (dryRun : bool) (d : disk) :
  fst (validatePath filePath allowedDirectories d) = Ok validPath ->
  readFile (fs deps) d validPath = Ok raw ->
  FileEditor.applyEdits (FileEditor.normalizeLineEndings raw) done = Ok current ->
  Js.includes current (FileEditor.normalizeLineEndings (oldText edit)) = false ->
  FileEditor.findWindow (Js.split_lines current)
    (Js.split_lines (FileEditor.normalizeLineEndings (oldText edit))) = None ->
  applyFileEdits filePath (done ++ edit :: rest)%list dryRun d
  = (Throw (JsError ("Could not find exact match for edit:" ++ Js.nl
                     ++ oldText edit)), d).
Proof.
  intros Hpath Hread Hdone Hexact Hfuzzy.
  apply applyFileEdits_failed_edits with (validPath := validPath) (raw := raw);
    try assumption.
  rewrite applyEdits_app, Hdone. cbn [FileEditor.applyEdits].
  unfold FileEditor.applyEdit, FileEditor.fuzzyReplace.
  now rewrite Hexact, Hfuzzy.
Qed.

(** C5. With [dryRun] the disk is never changed; and when the path is valid,
    the file is read and every instruction applies, the method returns the
    fenced diff of the normalized content and the final content. *)
Theorem applyFileEdits_dryRun (filePath : string) (edits : list Edit)
    (d : disk) :
  snd (applyFileEdits filePath edits true d) = d
  /\ forall validPath raw modifiedContent,
      fst (validatePath filePath allowedDirectories d) = Ok validPath ->
      readFile (fs deps) d validPath = Ok raw ->
      FileEditor.applyEdits (FileEditor.normalizeLineEndings raw) edits
        = Ok modifiedContent ->
      applyFileEdits filePath edits true d
      = (Ok (FileEditor.formatDiff
               (createUnifiedDiff (FileEditor.normalizeLineEndings raw)
                  modifiedContent filePath)), d).
Proof.
  split.
  - rewrite applyFileEdits_steps.
    destruct (fst _); [|reflexivity].
    destruct (readFile _ _ _); [|reflexivity]. cbn zeta.
    destruct (FileEditor.applyEdits _ _); reflexivity.
  - intros validPath raw modifiedContent Hpath Hread Hedits.
    rewrite applyFileEdits_steps, Hpath, Hread. cbn zeta. now rewrite Hedits.
Qed.

(** C8. Instructions written in the line-feed convention and the same
    instructions with every line feed replaced by carriage return, line feed
    give the same result: the disk after the call is the same, and so is the
    returned diff, which is computed from the same final content. *)
Theorem applyFileEdits_crlf_invariant (filePath : string) (edits : list Edit)
    (dryRun : bool) (d : disk) :
  forallb Spec.lfOnlyEdit edits = true ->
  snd (applyFileEdits filePath (map Spec.toCRLFEdit edits) dryRun d)
  = snd (applyFileEdits filePath edits dryRun d)
  /\ Spec.finalContent
       (fst (applyFileEdits filePath (map Spec.toCRLFEdit edits) dryRun d))
     = Spec.finalContent (fst (applyFileEdits filePath edits dryRun d)).
Proof.
  intros Hlf. rewrite !applyFileEdits_steps.
  destruct (fst _); [|split; reflexivity].
  destruct (readFile _ _ _) as [raw|e]; [|split; reflexivity]. cbn zeta.
  pose proof (applyEdits_toCRLF (FileEditor.normalizeLineEndings raw) edits Hlf)
    as Hsame.
  destruct (FileEditor.applyEdits _ (map _ _)) as [m1|e1],
           (FileEditor.applyEdits _ edits) as [m2|e2];
    cbn in Hsame; try discriminate; [|split; reflexivity].
  injection Hsame as ->. split; reflexivity.
Qed.

(** C9. The string that the method returns is the diff between two fences of
    [n] backticks, where [n] is the value at which the loop that grows the
    fence stops: [n] is at least three, the diff has no run of [n] backticks,
    and it has a run of every length from three up to [n], so that the fence
    was grown by one exactly as long as it occurred in the diff. *)
Theorem applyFileEdits_fence
    (filePath validPath raw modifiedContent formattedDiff : string)
    (edits : list Edit) (dryRun : bool) (d d' : disk) :
  fst (validatePath filePath allowedDirectories d) = Ok validPath ->
  readFile (fs deps) d validPath = Ok raw ->
  FileEditor.applyEdits (FileEditor.normalizeLineEndings raw) edits
    = Ok modifiedContent ->
  applyFileEdits filePath edits dryRun d = (Ok formattedDiff, d') ->
  let diff :=
    createUnifiedDiff (FileEditor.normalizeLineEndings raw) modifiedContent
      filePath in
  exists n,
    FileEditor.growFence (S (String.length diff)) 3 diff = Some n
    /\ formattedDiff
       = Js.repeat "`" n ++ "diff" ++ Js.nl ++ diff ++ Js.repeat "`" n
         ++ Js.nl ++ Js.nl
    /\ 3 <= n
    /\ Js.includes diff (Js.repeat "`" n) = false
    /\ forall k, 3 <= k < n -> Js.includes diff (Js.repeat "`" k) = true.
Proof.
  intros Hpath Hread Hedits Hout diff.
  rewrite applyFileEdits_steps, Hpath, Hread in Hout. cbn zeta in Hout.
  rewrite Hedits in Hout.
  assert (formattedDiff = FileEditor.formatDiff diff) as ->.
  { subst diff. destruct dryRun; [congruence|].
    destruct (writeFile _ _ _ _) as [[u|e] d0]; congruence. }
  destruct (numBackticks_spec diff) as (Hn & Hge & Hno & Hmin).
  exists (FileEditor.numBackticks diff).
  split; [exact Hn|]. split; [reflexivity|]. split; [exact Hge|].
  split; [exact Hno|exact Hmin].
Qed.

End ApplyFileEdits.

(** *** The strategies on examples *)

(** The fuzzy match of the specification: the indentation of the first line
    comes from the content. *)
Example applyEdits_inherits_indentation :
  FileEditor.applyEdits "    return x"
    [ {| oldText := "return x"; newText := "return y" |} ]
  = Ok "    return y".
Proof. reflexivity. Qed.

(** C6. The exact strategy does not always put the new text in the place of
    the first occurrence: with the new text ["$$5"], the occurrence of
    ["AMOUNT"] is replaced by ["$5"], because [String.prototype.replace]
    expands the dollar patterns of its replacement. The line-by-line strategy
    inserts the same new text as it is. *)
Theorem applyEdits_exact_expands_dollar :
  let content := "total: AMOUNT" in
  let edit := {| oldText := "AMOUNT"; newText := "$$5" |} in
  Js.includes content (FileEditor.normalizeLineEndings (oldText edit)) = true
  /\ Js.indexOf content (oldText edit) = Some 7
  /\ FileEditor.applyEdits content [edit] = Ok "total: $5"
  /\ FileEditor.applyEdits content [edit]
     <> Ok (Js.slice_to 7 content ++ newText edit)
  /\ FileEditor.applyEdits "  total: AMOUNT"
       [ {| oldText := "total: AMOUNT "; newText := "total: $$5" |} ]
     = Ok "  total: $$5".
Proof.
  cbv zeta. repeat split; try reflexivity. discriminate.
Qed.

(** C7, counterexample. The window starts at a line indented by four; the
    second old line is indented by four and the second new line by two. The
    captured indentation narrowed by the difference would be two wide; the
    rewritten line is indented by four. *)
Lemma applyEdit_fuzzy_indentation_not_narrowed :
  let content := "    a" ++ Js.nl ++ "        b" in
  let edit := {| oldText := "a" ++ Js.nl ++ "    b";
                 newText := "a" ++ Js.nl ++ "  c" |} in
  let captured := Js.leadingWhitespace (nth 0 (Js.split_lines content) EmptyString) in
  let oldIndent := FileEditor.indentAt (Js.split_lines (oldText edit)) 1 in
  let newIndent := Js.leadingWhitespace "  c" in
  Js.includes content (oldText edit) = false
  /\ FileEditor.findWindow (Js.split_lines content)
       (Js.split_lines (oldText edit)) = Some 0
  /\ FileEditor.applyEdit content edit = Ok ("    a" ++ Js.nl ++ "    c")
  /\ Spec.relativeWidth captured oldIndent newIndent = 2
  /\ String.length (Js.leadingWhitespace "    c")
     <> Spec.relativeWidth captured oldIndent newIndent.
Proof.
  cbv zeta. repeat split; try reflexivity. discriminate.
Qed.

(** A window of two lines replaced by three lines: the first, a relative
    one and an unmodified one. *)
Lemma applyEdit_fuzzy_indentation_witness :
  let content := "    if x:" ++ Js.nl ++ "        return x" in
  let edit := {| oldText := "if x:" ++ Js.nl ++ "  return x";
                 newText := "if y:" ++ Js.nl ++ "    return y" ++ Js.nl ++ "done" |} in
  FileEditor.applyEdit content edit
  = Ok ("    if y:" ++ Js.nl ++ "      return y" ++ Js.nl ++ "done").
Proof.
  intros content edit.
  destruct (applyEdit_fuzzy_indentation content edit 0 eq_refl eq_refl)
    as (rewritten & Hrun & Hlen & Hfirst & Hrelative & Hunmodified).
  rewrite Hrun. cbn [firstn app]. do 2 f_equal.
  specialize (Hfirst "if y:" eq_refl).
  specialize (Hrelative 1 "    return y" (Nat.lt_0_succ 0) eq_refl
                ltac:(discriminate) ltac:(discriminate)).
  specialize (Hunmodified 2 "done" (Nat.lt_0_succ 1) eq_refl
                (or_intror eq_refl)).
  destruct rewritten as [|l0 [|l1 [|l2 [|l3 rest]]]]; try discriminate.
  cbn in Hfirst, Hrelative, Hunmodified.
  injection Hfirst as ->. injection Hrelative as ->. injection Hunmodified as ->.
  reflexivity.
Defined.

(** *** The method on the test doubles *)

(** The second of three instructions is not found. *)
Lemma applyFileEdits_unmatched_edit_witness :
  FileEditor.applyFileEdits (memDeps notesPath) stubPatch ["/allowed/dir"]
    notesPath
    [ {| oldText := "alpha"; newText := "gamma" |};
      {| oldText := "delta"; newText := "epsilon" |};
      {| oldText := "beta"; newText := "zeta" |} ]
    false notesDisk
  = (Throw (JsError ("Could not find exact match for edit:" ++ Js.nl ++ "delta")),
     notesDisk).
Proof.
  apply (applyFileEdits_unmatched_edit (memDeps notesPath) stubPatch
           ["/allowed/dir"] notesPath notesPath
           ("alpha" ++ Js.nl ++ "  beta") ("gamma" ++ Js.nl ++ "  beta")
           [ {| oldText := "alpha"; newText := "gamma" |} ]
           [ {| oldText := "beta"; newText := "zeta" |} ]
           {| oldText := "delta"; newText := "epsilon" |} false notesDisk);
    reflexivity.
Defined.

(** A dry run on the same file. *)
Lemma applyFileEdits_dryRun_witness :
  FileEditor.applyFileEdits (memDeps notesPath) stubPatch ["/allowed/dir"]
    notesPath [ {| oldText := "alpha"; newText := "gamma" |} ] true notesDisk
  = (Ok (FileEditor.formatDiff
           (stubPatch notesPath notesPath ("alpha" ++ Js.nl ++ "  beta")
              ("gamma" ++ Js.nl ++ "  beta") "original" "modified")),
     notesDisk).
Proof.
  apply (proj2 (applyFileEdits_dryRun (memDeps notesPath) stubPatch
                  ["/allowed/dir"] notesPath
                  [ {| oldText := "alpha"; newText := "gamma" |} ] notesDisk)
               notesPath ("alpha" ++ Js.nl ++ "  beta")
               ("gamma" ++ Js.nl ++ "  beta"));
    reflexivity.
Defined.

(** The same instruction in the two conventions. *)
Lemma applyFileEdits_crlf_invariant_witness :
  let lf := {| oldText := "alpha" ++ Js.nl ++ "beta";
               newText := "gamma" ++ Js.nl ++ "delta" |} in
  let crlf := {| oldText := "alpha" ++ Js.crlf ++ "beta";
                 newText := "gamma" ++ Js.crlf ++ "delta" |} in
  let run edit :=
    FileEditor.applyFileEdits (memDeps notesPath) stubPatch ["/allowed/dir"]
      notesPath [edit] false notesDisk in
  snd (run crlf) = snd (run lf)
  /\ Spec.finalContent (fst (run crlf)) = Spec.finalContent (fst (run lf)).
Proof.
  intros lf crlf run.
  apply (applyFileEdits_crlf_invariant (memDeps notesPath) stubPatch
           ["/allowed/dir"] notesPath [lf] false notesDisk).
  reflexivity.
Defined.

(** A diff with a run of four backticks is fenced by five. *)
Lemma applyFileEdits_fence_witness :
  let diff :=
    stubPatch readmePath readmePath "see ```x```" "use ```` ```x```"
      "original" "modified" in
  let formattedDiff :=
    "`````diff" ++ Js.nl ++ diff ++ "`````" ++ Js.nl ++ Js.nl in
  exists n,
    FileEditor.growFence (S (String.length diff)) 3 diff = Some n
    /\ formattedDiff
       = Js.repeat "`" n ++ "diff" ++ Js.nl ++ diff ++ Js.repeat "`" n
         ++ Js.nl ++ Js.nl
    /\ 3 <= n
    /\ Js.includes diff (Js.repeat "`" n) = false
    /\ forall k, 3 <= k < n -> Js.includes diff (Js.repeat "`" k) = true.
Proof.
  intros diff formattedDiff.
  apply (applyFileEdits_fence (memDeps readmePath) stubPatch ["/allowed/dir"]
           readmePath readmePath "see ```x```" "use ```` ```x```" formattedDiff
           [ {| oldText := "see"; newText := "use ````" |} ] false
           readmeDisk
           {| links := links readmeDisk;
              files := [(readmePath, "use ```` ```x```")] |});
    reflexivity.
Defined.


(** The all-or-nothing test of the specification, on the mocks: the second
    instruction is not found and [writeFile] is not called. *)
Example applyFileEdits_no_write_call :
  FileEditor.applyFileEdits
    (mockDeps "/allowed/dir/test.txt" "file content") stubPatch
    ["/allowed/dir"] "/allowed/dir/test.txt"
    [ {| oldText := "file"; newText := "new" |};
      {| oldText := "absent"; newText := "present" |} ] false []
  = (Throw (JsError ("Could not find exact match for edit:" ++ Js.nl ++ "absent")),
     []).
Proof. reflexivity. Qed.

(** The same run without the second instruction calls [writeFile] once. *)
Example applyFileEdits_write_call :
  snd (FileEditor.applyFileEdits
         (mockDeps "/allowed/dir/test.txt" "file content") stubPatch
         ["/allowed/dir"] "/allowed/dir/test.txt"
         [ {| oldText := "file"; newText := "new" |} ] false [])
  = [("/allowed/dir/test.txt", "new content")].
Proof. reflexivity. Qed.

(** An instruction text that already has a carriage return before a line
    feed is not in the line-feed convention, and its conversion is another
    instruction: the hypothesis of the invariance is needed. *)
Example applyEdits_crlf_of_crlf :
  let edit := {| oldText := Js.crlf; newText := "-" |} in
  Spec.lfOnlyEdit edit = false
  /\ FileEditor.applyEdits ("a" ++ Js.nl ++ "b") [edit] = Ok "a-b"
  /\ Spec.finalContent
       (FileEditor.applyEdits ("a" ++ Js.nl ++ "b") [Spec.toCRLFEdit edit])
     = None.
Proof. cbv zeta. repeat split. Qed.

(** * Further properties of the two classes *)

(** ** PathUtils.validatePath *)

Section ValidatePathOutcomes.

Context {disk : Type}.
Variable deps : FileSystemDependencies disk.

Let absoluteOf := PathUtils.absoluteOf deps.
Let parentOf (requestedPath : string) : string :=
  dirname (path deps) (absoluteOf requestedPath).
Let nominallyAllowed (allowedDirectories : list string)
    (requestedPath : string) : bool :=
  PathUtils.isAllowed allowedDirectories
    (PathUtils.normalizePath deps (absoluteOf requestedPath)).

(** The two ways of a success: the path exists and its real path passes the
    second check, or it does not exist and its parent resolves. *)
Lemma validatePath_ok_iff (allowedDirectories : list string)
    (requestedPath validPath : string) (d : disk) :
  fst (PathUtils.validatePath deps requestedPath allowedDirectories d) = Ok validPath
  <-> nominallyAllowed allowedDirectories requestedPath = true
      /\ ((realpath (fs deps) d (absoluteOf requestedPath) = Ok validPath
           /\ PathUtils.isAllowed allowedDirectories
                (PathUtils.normalizePath deps validPath) = true)
          \/ (validPath = absoluteOf requestedPath
              /\ (exists message,
                    realpath (fs deps) d (absoluteOf requestedPath)
                    = Throw (JsError message)
                    /\ Js.includes message "ENOENT" = true)
              /\ exists parentReal,
                   realpath (fs deps) d (parentOf requestedPath) = Ok parentReal)).
Proof.
  destruct (nominallyAllowed allowedDirectories requestedPath) eqn:Hnom.
  2:{ rewrite validatePath_nominal_denied by exact Hnom. cbn [fst].
      split; [discriminate|]. now intros [? _]. }
  destruct (realpath (fs deps) d (absoluteOf requestedPath)) as [real|e] eqn:Hreal.
  - destruct (PathUtils.isAllowed allowedDirectories
                (PathUtils.normalizePath deps real)) eqn:Hsecond.
    + assert (PathUtils.validatePath deps requestedPath allowedDirectories d
              = (Ok real, d)) as ->.
      { unfold nominallyAllowed, absoluteOf in *. unfold PathUtils.validatePath.
        rewrite Hnom. cbn [negb]. unfold tryCatch, bind, query.
        rewrite Hreal, Hsecond. reflexivity. }
      cbn [fst]. split.
      * intros [= <-]. split; [reflexivity|]. left. now split.
      * intros [_ [[[= ->] _]|[_ [[m [Hm _]] _]]]]; [reflexivity|discriminate].
    + rewrite (validatePath_symlink_denied deps allowedDirectories _ _ _
                 Hnom Hreal Hsecond). cbn [fst].
      split; [discriminate|].
      intros [_ [[[= ->] H]|[_ [[m [Hm _]] _]]]]; [congruence|discriminate].
  - destruct e as [message|v].
    + destruct (Js.includes message "ENOENT") eqn:Hmsg.
      * rewrite (validatePath_enoent deps allowedDirectories _ _ _ Hnom Hreal Hmsg).
        unfold parentOf, absoluteOf in *.
        destruct (realpath (fs deps) d
                    (dirname (path deps) (PathUtils.absoluteOf deps requestedPath)))
          as [pr|pe] eqn:Hp; cbn [fst]; split.
        -- intros [= Heq]. split; [reflexivity|]. right.
           split; [now symmetry|]. split; [now exists message|now exists pr].
        -- intros [_ [[H _]|[-> _]]]; [discriminate|reflexivity].
        -- discriminate.
        -- intros [_ [[H _]|[_ [_ [pr H]]]]]; discriminate.
      * assert (PathUtils.validatePath deps requestedPath allowedDirectories d
                = (Throw (JsError message), d)) as ->.
        { unfold nominallyAllowed, absoluteOf in *. unfold PathUtils.validatePath.
          rewrite Hnom. cbn [negb]. unfold tryCatch at 1. unfold bind, query.
          rewrite Hreal. cbn. rewrite Hmsg.
          destruct (Js.includes message "Access denied"); reflexivity. }
        cbn [fst]. split; [discriminate|].
        intros [_ [[H _]|[_ [[m [[= <-] Hm]] _]]]]; [discriminate|congruence].
    + assert (PathUtils.validatePath deps requestedPath allowedDirectories d
              = (Throw (NonError v), d)) as ->.
      { unfold nominallyAllowed, absoluteOf in *. unfold PathUtils.validatePath.
        rewrite Hnom. cbn [negb]. unfold tryCatch at 1. unfold bind, query.
        rewrite Hreal. reflexivity. }
      cbn [fst]. split; [discriminate|].
      intros [_ [[H _]|[_ [[m [H _]] _]]]]; discriminate.
Qed.

(** An error of [realpath] that is not a not-found error goes through the
    [catch] clause as it is. *)
Lemma validatePath_rethrows (allowedDirectories : list string)
    (requestedPath : string) (e : thrown) (d : disk) :
  nominallyAllowed allowedDirectories requestedPath = true ->
  realpath (fs deps) d (absoluteOf requestedPath) = Throw e ->
  Spec.isNotFound e = false ->
  PathUtils.validatePath deps requestedPath allowedDirectories d = (Throw e, d).
Proof.
  unfold nominallyAllowed, absoluteOf, PathUtils.validatePath.
  intros -> Hreal Hnot. cbn [negb]. unfold tryCatch at 1. unfold bind, query.
  rewrite Hreal. destruct e as [message|v]; cbn in *; [|reflexivity].
  rewrite Hnot. destruct (Js.includes message "Access denied"); reflexivity.
Qed.

Lemma isAllowed_incl (roots roots' : list string) (p : string) :
  incl roots roots' ->
  PathUtils.isAllowed roots p = true -> PathUtils.isAllowed roots' p = true.
Proof.
  unfold PathUtils.isAllowed. intros Hincl H.
  apply existsb_exists in H as (dir & Hin & Hdir).
  apply existsb_exists. exists dir. split; [now apply Hincl|exact Hdir].
Qed.

End ValidatePathOutcomes.

Section ValidatePathProperties.

Context {disk : Type}.
Variable deps : FileSystemDependencies disk.

(** X1. The successes of [validatePath], exactly: the first check passes,
    and either [realpath] gives the returned path and the second check passes
    on it, or [realpath] fails with a not-found error, the [realpath] of the
    parent directory succeeds and the returned path is the absolute path that
    was computed from the request. *)
Theorem validatePath_success_characterized (allowedDirectories : list string)
    (requestedPath validPath : string) (d : disk) :
  let absolute := PathUtils.absoluteOf deps requestedPath in
  fst (PathUtils.validatePath deps requestedPath allowedDirectories d) = Ok validPath
  <-> PathUtils.isAllowed allowedDirectories (PathUtils.normalizePath deps absolute)
      = true
      /\ ((realpath (fs deps) d absolute = Ok validPath
           /\ PathUtils.isAllowed allowedDirectories
                (PathUtils.normalizePath deps validPath) = true)
          \/ (validPath = absolute
              /\ (exists message,
                    realpath (fs deps) d absolute = Throw (JsError message)
                    /\ Js.includes message "ENOENT" = true)
              /\ exists parentReal,
                   realpath (fs deps) d (dirname (path deps) absolute)
                   = Ok parentReal)).
Proof. intros absolute. apply validatePath_ok_iff. Qed.

(** X2. Allowing more directories never takes a path away: a request that
    succeeds with a list of allowed directories succeeds, with the same
    result, with every list that contains it. *)
Theorem validatePath_monotone (roots roots' : list string)
    (requestedPath validPath : string) (d : disk) :
  incl roots roots' ->
  fst (PathUtils.validatePath deps requestedPath roots d) = Ok validPath ->
  fst (PathUtils.validatePath deps requestedPath roots' d) = Ok validPath.
Proof.
  intros Hincl H. apply validatePath_ok_iff in H as [Hnom Hcases].
  apply validatePath_ok_iff. split; [now apply (isAllowed_incl roots)|].
  destruct Hcases as [[Hreal Hsecond]|Hnew]; [left|now right].
  split; [exact Hreal|now apply (isAllowed_incl roots)].
Qed.

(** X3. When the first check passes and [realpath] fails with anything but a
    not-found error (an [Error] whose message has no [ENOENT], or a value
    that is no [Error]), [validatePath] throws that same value; the parent
    directory is not looked at. *)
Theorem validatePath_other_error_rethrown (allowedDirectories : list string)
    (requestedPath : string) (e : thrown) (d : disk) :
  PathUtils.isAllowed allowedDirectories
    (PathUtils.normalizePath deps (PathUtils.absoluteOf deps requestedPath)) = true ->
  realpath (fs deps) d (PathUtils.absoluteOf deps requestedPath) = Throw e ->
  Spec.isNotFound e = false ->
  PathUtils.validatePath deps requestedPath allowedDirectories d = (Throw e, d).
Proof. apply validatePath_rethrows. Qed.

(** X4. A request that fails the first check is refused without a look at
    the disk: on any two disks the method throws the same access-denied
    error, whose message names the absolute path and the allowed
    directories. *)
Theorem validatePath_denied_without_disk (allowedDirectories : list string)
    (requestedPath : string) (d1 d2 : disk) :
  PathUtils.isAllowed allowedDirectories
    (PathUtils.normalizePath deps (PathUtils.absoluteOf deps requestedPath)) = false ->
  fst (PathUtils.validatePath deps requestedPath allowedDirectories d1)
  = fst (PathUtils.validatePath deps requestedPath allowedDirectories d2)
  /\ exists e,
       PathUtils.validatePath deps requestedPath allowedDirectories d1 = (Throw e, d1)
       /\ Spec.isAccessDenied e = true
       /\ e = JsError ("Access denied - path outside allowed directories: "
                       ++ PathUtils.absoluteOf deps requestedPath ++ " not in "
                       ++ Js.join ", " allowedDirectories).
Proof.
  intros Hnom.
  rewrite !(validatePath_nominal_denied deps allowedDirectories _ _ Hnom).
  split; [reflexivity|]. eexists. split; [reflexivity|].
  split; [apply accessDeniedRequested_denied|reflexivity].
Qed.

End ValidatePathProperties.

Import MoreFixtures.

(** An existing file inside the allowed directory, and a new file in it. *)
Lemma validatePath_success_characterized_witness :
  fst (PathUtils.validatePath (memDeps notesPath) notesPath ["/allowed/dir"]
         notesDisk) = Ok notesPath
  /\ fst (PathUtils.validatePath (memDeps "/allowed/dir/new.txt")
            "/allowed/dir/new.txt" ["/allowed/dir"] notesDisk)
     = Ok "/allowed/dir/new.txt".
Proof.
  split.
  - apply (proj2 (validatePath_success_characterized (memDeps notesPath)
                    ["/allowed/dir"] notesPath notesPath notesDisk)).
    split; [reflexivity|]. left. split; reflexivity.
  - apply (proj2 (validatePath_success_characterized
                    (memDeps "/allowed/dir/new.txt") ["/allowed/dir"]
                    "/allowed/dir/new.txt" "/allowed/dir/new.txt" notesDisk)).
    split; [reflexivity|]. right. split; [reflexivity|].
    split; [eexists; split; reflexivity|eexists; reflexivity].
Defined.

(** A second allowed directory is added. *)
Lemma validatePath_monotone_witness :
  fst (PathUtils.validatePath (memDeps notesPath) notesPath
         ["/tmp"; "/allowed/dir"] notesDisk) = Ok notesPath.
Proof.
  apply (validatePath_monotone (memDeps notesPath) ["/allowed/dir"]
           ["/tmp"; "/allowed/dir"] notesPath notesPath notesDisk).
  - intros x [<-|[]]. right. now left.
  - reflexivity.
Defined.

(** [realpath] rejects with a permission error. *)
Lemma validatePath_other_error_rethrown_witness :
  let eacces := JsError "EACCES: permission denied, realpath '/allowed/dir/test.txt'" in
  PathUtils.validatePath (errorDeps "/allowed/dir/test.txt" eacces)
    "/allowed/dir/test.txt" ["/allowed/dir"] []
  = (Throw eacces, []).
Proof.
  intros eacces.
  apply (validatePath_other_error_rethrown
           (errorDeps "/allowed/dir/test.txt" eacces) ["/allowed/dir"]
           "/allowed/dir/test.txt" eacces []); reflexivity.
Defined.

(** The test "should reject paths outside allowed directories". *)
Lemma validatePath_denied_without_disk_witness :
  fst (PathUtils.validatePath (memDeps "/not/allowed/test.txt")
         "/not/allowed/test.txt" ["/allowed/dir"] notesDisk)
  = fst (PathUtils.validatePath (memDeps "/not/allowed/test.txt")
           "/not/allowed/test.txt" ["/allowed/dir"] readmeDisk).
Proof.
  apply (proj1 (validatePath_denied_without_disk (memDeps "/not/allowed/test.txt")
                  ["/allowed/dir"] "/not/allowed/test.txt" notesDisk readmeDisk
                  eq_refl)).
Defined.

(** ** FileEditor.normalizeLineEndings *)

Lemma string_ind2 (P : string -> Prop) :
  P EmptyString ->
  (forall c, P (String c EmptyString)) ->
  (forall c c' s, P s -> P (String c' s) -> P (String c (String c' s))) ->
  forall s, P s.
Proof.
  intros H0 H1 H2 s.
  assert (P s /\ forall c, P (String c s)) as [H _]; [|exact H].
  induction s as [|c' s [IHs IHcs]]; split; auto.
Qed.

Lemma normalizeLineEndings_cons2 (c c' : ascii) (s : string) :
  FileEditor.normalizeLineEndings (String c (String c' s))
  = if Ascii.eqb c Js.CR && Ascii.eqb c' Js.LF
    then String Js.LF (FileEditor.normalizeLineEndings s)
    else String c (FileEditor.normalizeLineEndings (String c' s)).
Proof. reflexivity. Qed.

Lemma normalizeLineEndings_length (s : string) :
  String.length (FileEditor.normalizeLineEndings s) <= String.length s.
Proof.
  induction s as [|c|c c' s IH IH'] using string_ind2; [cbn; lia..|].
  rewrite normalizeLineEndings_cons2.
  destruct (Ascii.eqb c Js.CR && Ascii.eqb c' Js.LF); cbn [String.length] in *; lia.
Qed.

Lemma normalizeLineEndings_shrinks (s : string) :
  Spec.lfOnly s = false ->
  String.length (FileEditor.normalizeLineEndings s) < String.length s.
Proof.
  induction s as [|c|c c' s IH IH'] using string_ind2; [discriminate..|].
  rewrite normalizeLineEndings_cons2.
  change (Spec.lfOnly (String c (String c' s)))
    with (negb (Ascii.eqb c Js.CR && Ascii.eqb c' Js.LF)
          && Spec.lfOnly (String c' s)).
  intros H. destruct (Ascii.eqb c Js.CR && Ascii.eqb c' Js.LF).
  - pose proof (normalizeLineEndings_length s). cbn [String.length]. lia.
  - cbn [negb andb] in H. apply IH' in H. cbn [String.length] in *. lia.
Qed.

Lemma includes_cons (c : ascii) (s t : string) :
  Js.includes (String c s) t = prefix t (String c s) || Js.includes s t.
Proof.
  unfold Js.includes. rewrite indexOf_cons.
  destruct (prefix t (String c s)); [reflexivity|].
  destruct (Js.indexOf s t); reflexivity.
Qed.

Lemma eqb_of_neq (a b : ascii) : a <> b -> Ascii.eqb b a = false.
Proof. intros H. apply Ascii.eqb_neq. congruence. Qed.

Lemma prefix_crlf (c : ascii) (s : string) :
  prefix Js.crlf (String c s) = Ascii.eqb c Js.CR && Spec.headIs Js.LF s.
Proof.
  unfold Js.crlf. destruct s as [|c' s']; cbn [prefix Spec.headIs].
  - rewrite andb_false_r. destruct (ascii_dec Js.CR c); reflexivity.
  - destruct (ascii_dec Js.CR c) as [<-|Hc].
    + rewrite Ascii.eqb_refl. cbn [andb].
      destruct (ascii_dec Js.LF c') as [<-|Hc'].
      * rewrite Ascii.eqb_refl. destruct s'; reflexivity.
      * now rewrite (eqb_of_neq _ _ Hc').
    + now rewrite (eqb_of_neq _ _ Hc).
Qed.

Lemma includes_crlf (s : string) :
  Js.includes s Js.crlf = negb (Spec.lfOnly s).
Proof.
  induction s as [|c s IH]; [reflexivity|].
  rewrite includes_cons, IH, prefix_crlf. destruct s as [|c' s'].
  - cbn [Spec.headIs Spec.lfOnly negb]. now rewrite andb_false_r.
  - cbn [Spec.lfOnly Spec.headIs]. now rewrite negb_andb, negb_involutive.
Qed.

(** X5. The texts that [normalizeLineEndings] leaves as they are are those
    without a carriage return followed by a line feed; it makes every other
    text shorter. *)
Theorem normalizeLineEndings_fixed_point (text : string) :
  (FileEditor.normalizeLineEndings text = text
   <-> Js.includes text Js.crlf = false)
  /\ (Js.includes text Js.crlf = true ->
      String.length (FileEditor.normalizeLineEndings text) < String.length text).
Proof.
  rewrite includes_crlf. split; [split|].
  - intros Hfix. destruct (Spec.lfOnly text) eqn:Hlf; [reflexivity|].
    apply normalizeLineEndings_shrinks in Hlf. rewrite Hfix in Hlf. lia.
  - intros H. apply negb_false_iff in H. now apply normalizeLineEndings_lfOnly.
  - intros H. apply negb_true_iff in H. now apply normalizeLineEndings_shrinks.
Qed.

Lemma normalizeLineEndings_fixed_point_witness :
  String.length (FileEditor.normalizeLineEndings ("a" ++ Js.crlf ++ "b"))
  < String.length ("a" ++ Js.crlf ++ "b").
Proof.
  apply (proj2 (normalizeLineEndings_fixed_point ("a" ++ Js.crlf ++ "b"))).
  reflexivity.
Defined.

(** X6. A round trip: replacing every line feed of a text by carriage
    return, line feed and normalizing the result gives the text back,
    whatever the text. *)
Theorem normalizeLineEndings_undoes_toCRLF (text : string) :
  FileEditor.normalizeLineEndings (Spec.toCRLF text) = text.
Proof. apply normalizeLineEndings_toCRLF. Qed.

(** ** The edit loop, one instruction after the other *)

(** X7. The instructions apply from left to right, each to the content that
    the instructions before it produced: a list of instructions applies when
    its first part applies and its second part applies to the result. *)
Theorem applyEdits_sequential (content final : string) (first second : list Edit) :
  FileEditor.applyEdits content (first ++ second)%list = Ok final
  <-> exists middle,
        FileEditor.applyEdits content first = Ok middle
        /\ FileEditor.applyEdits middle second = Ok final.
Proof.
  rewrite applyEdits_app. split.
  - destruct (FileEditor.applyEdits content first) as [middle|e];
      [|discriminate]. intros H. now exists middle.
  - intros (middle & -> & H). exact H.
Qed.

(** X8. With a new text without dollar sign, the exact strategy replaces the
    first occurrence of the old text and nothing else: the content is
    [before ++ old ++ after], where the old text does not occur at any
    position before the end of [before], and the result is
    [before ++ new ++ after]. *)
Theorem applyEdit_exact_literal (modifiedContent : string) (edit : Edit) :
  let normalizedOld := FileEditor.normalizeLineEndings (oldText edit) in
  let normalizedNew := FileEditor.normalizeLineEndings (newText edit) in
  Js.includes modifiedContent normalizedOld = true ->
  Spec.noDollar normalizedNew = true ->
  exists i,
    let before := Js.slice_to i modifiedContent in
    let after := Js.slice_from (i + String.length normalizedOld) modifiedContent in
    modifiedContent = before ++ normalizedOld ++ after
    /\ FileEditor.applyEdit modifiedContent edit
       = Ok (before ++ normalizedNew ++ after)
    /\ forall k, k < i ->
         Js.startsWith (Js.slice_from k modifiedContent) normalizedOld = false.
Proof.
  intros normalizedOld normalizedNew Hinc Hlit.
  rewrite applyEdit_exact by exact Hinc. fold normalizedOld normalizedNew.
  unfold Js.includes in Hinc.
  destruct (Js.indexOf modifiedContent normalizedOld) as [i|] eqn:Hi;
    [|discriminate].
  exists i. cbn zeta. split; [now apply indexOf_split|].
  split; [now rewrite (replace_literal _ _ _ i)|].
  now apply indexOf_first.
Qed.

Lemma append_inj_l (a b c : string) : a ++ b = a ++ c -> b = c.
Proof. induction a as [|x a IH]; cbn; [auto|]. intros [= H]. auto. Qed.

(** X9. An instruction whose new text is its old text, without dollar sign,
    and whose old text occurs in the content leaves the content as it is. *)
Theorem applyEdit_same_text (modifiedContent : string) (edit : Edit) :
  FileEditor.normalizeLineEndings (newText edit)
    = FileEditor.normalizeLineEndings (oldText edit) ->
  Js.includes modifiedContent (FileEditor.normalizeLineEndings (oldText edit)) = true ->
  Spec.noDollar (FileEditor.normalizeLineEndings (oldText edit)) = true ->
  FileEditor.applyEdit modifiedContent edit = Ok modifiedContent.
Proof.
  intros Hsame Hinc Hlit.
  rewrite applyEdit_exact by exact Hinc. rewrite Hsame.
  unfold Js.includes in Hinc.
  destruct (Js.indexOf modifiedContent _) as [i|] eqn:Hi; [|discriminate].
  rewrite (replace_literal _ _ _ i Hi Hlit). f_equal. symmetry.
  now apply indexOf_split.
Qed.

Lemma applyEdit_exact_literal_witness :
  FileEditor.applyEdit "one two one" {| oldText := "one"; newText := "1" |}
  = Ok "1 two one".
Proof.
  destruct (applyEdit_exact_literal "one two one"
              {| oldText := "one"; newText := "1" |} eq_refl eq_refl)
    as (i & Hsplit & Hrun & Hfirst).
  destruct i as [|i]; [exact Hrun|].
  specialize (Hfirst 0 (Nat.lt_0_succ i)). discriminate.
Defined.

Lemma applyEdit_same_text_witness :
  FileEditor.applyEdit ("a" ++ Js.nl ++ "b")
    {| oldText := "a" ++ Js.crlf ++ "b"; newText := "a" ++ Js.nl ++ "b" |}
  = Ok ("a" ++ Js.nl ++ "b").
Proof.
  apply (applyEdit_same_text ("a" ++ Js.nl ++ "b")
           {| oldText := "a" ++ Js.crlf ++ "b"; newText := "a" ++ Js.nl ++ "b" |});
    reflexivity.
Defined.

(** ** The line-by-line strategy, as a search *)

Lemma slice_length {A} (i n : nat) (l : list A) :
  i + n <= length l -> length (Js.slice i n l) = n.
Proof.
  intros H. unfold Js.slice. rewrite length_firstn, length_skipn. lia.
Qed.

Lemma findWindow_some_iff (contentLines oldLines : list string) (i : nat) :
  FileEditor.findWindow contentLines oldLines = Some i
  <-> Spec.firstWindow contentLines oldLines i.
Proof.
  split; [apply findWindow_first|].
  intros (Hi & Hat & Hbefore).
  destruct (FileEditor.findWindow contentLines oldLines) as [k|] eqn:Hk.
  - apply findWindow_first in Hk as (Hk & Hkat & Hkbefore).
    destruct (Nat.lt_trichotomy k i) as [Hlt|[->|Hgt]]; [|reflexivity|].
    + rewrite (Hbefore k Hlt) in Hkat. discriminate.
    + rewrite (Hkbefore i Hgt) in Hat. discriminate.
  - rewrite (findWindow_none _ _ Hk i Hi) in Hat. discriminate.
Qed.

Lemma findWindow_none_iff (contentLines oldLines : list string) :
  FileEditor.findWindow contentLines oldLines = None
  <-> forall i, i + length oldLines <= length contentLines ->
        FileEditor.isMatch oldLines (Js.slice i (length oldLines) contentLines)
        = false.
Proof.
  split; [apply findWindow_none|].
  intros Hnone.
  destruct (FileEditor.findWindow contentLines oldLines) as [k|] eqn:Hk;
    [|reflexivity].
  apply findWindow_first in Hk as (Hk & Hkat & _).
  rewrite (Hnone k Hk) in Hkat. discriminate.
Qed.

(** X10. The window that the line-by-line strategy replaces is the first
    one, from the top, whose lines are the old lines up to the white space at
    the two ends of each line: the loop finds the index [i] exactly when the
    window at [i] lies within the content and matches in that way, and no
    window above it does. *)
Theorem findWindow_first_trimmed_match (contentLines oldLines : list string)
    (i : nat) :
  let trimmedEqual oldLine contentLine := Js.trim oldLine = Js.trim contentLine in
  let window k := Js.slice k (length oldLines) contentLines in
  FileEditor.findWindow contentLines oldLines = Some i
  <-> i + length oldLines <= length contentLines
      /\ Forall2 trimmedEqual oldLines (window i)
      /\ forall k, k < i -> ~ Forall2 trimmedEqual oldLines (window k).
Proof.
  intros trimmedEqual window. subst trimmedEqual window. cbn beta.
  rewrite findWindow_some_iff. unfold Spec.firstWindow. split.
  - intros (Hi & Hat & Hbefore). split; [exact Hi|]. split.
    + apply isMatch_spec; [apply slice_length; lia|exact Hat].
    + intros k Hk Hmatch.
      apply isMatch_spec in Hmatch; [|apply slice_length; lia].
      rewrite (Hbefore k Hk) in Hmatch. discriminate.
  - intros (Hi & Hat & Hbefore). split; [exact Hi|]. split.
    + apply isMatch_spec; [apply slice_length; lia|exact Hat].
    + intros k Hk.
      destruct (FileEditor.isMatch oldLines
                  (Js.slice k (length oldLines) contentLines)) eqn:Hm;
        [|reflexivity].
      exfalso. apply (Hbefore k Hk).
      apply isMatch_spec; [apply slice_length; lia|exact Hm].
Qed.

(** X11. One turn of the loop throws exactly when the old text is no
    substring of the content and no window of the content matches the old
    lines; the error is then the one that quotes the old text as the caller
    gave it. *)
Theorem applyEdit_throws_iff (modifiedContent : string) (edit : Edit) :
  let normalizedOld := FileEditor.normalizeLineEndings (oldText edit) in
  let oldLines := Js.split_lines normalizedOld in
  let contentLines := Js.split_lines modifiedContent in
  let unmatched :=
    Js.includes modifiedContent normalizedOld = false
    /\ forall i, i + length oldLines <= length contentLines ->
         FileEditor.isMatch oldLines (Js.slice i (length oldLines) contentLines)
         = false in
  (unmatched ->
   FileEditor.applyEdit modifiedContent edit
   = Throw (JsError ("Could not find exact match for edit:" ++ Js.nl
                     ++ oldText edit)))
  /\ (forall e, FileEditor.applyEdit modifiedContent edit = Throw e -> unmatched).
Proof.
  intros normalizedOld oldLines contentLines unmatched. unfold unmatched.
  unfold FileEditor.applyEdit, FileEditor.fuzzyReplace.
  fold normalizedOld. fold oldLines contentLines. split.
  - intros [-> Hnone]. apply findWindow_none_iff in Hnone. now rewrite Hnone.
  - intros e.
    destruct (Js.includes modifiedContent normalizedOld); [discriminate|].
    destruct (FileEditor.findWindow contentLines oldLines) eqn:Hw;
      [discriminate|].
    intros _. split; [reflexivity|]. now apply findWindow_none_iff.
Qed.

Lemma applyEdit_throws_iff_witness :
  Js.includes "alpha" "beta" = false
  /\ forall i, i + 1 <= 1 ->
       FileEditor.isMatch ["beta"] (Js.slice i 1 ["alpha"]) = false.
Proof.
  apply (proj2 (applyEdit_throws_iff "alpha"
                  {| oldText := "beta"; newText := "gamma" |})
               (FileEditor.editNotApplicable
                  {| oldText := "beta"; newText := "gamma" |})).
  reflexivity.
Defined.

Lemma isMatch_trimmed (oldLines oldLines' window window' : list string) :
  Forall2 (fun a b => Js.trim a = Js.trim b) oldLines oldLines' ->
  Forall2 (fun a b => Js.trim a = Js.trim b) window window' ->
  FileEditor.isMatch oldLines window = FileEditor.isMatch oldLines' window'.
Proof.
  intros Hold; revert window window'.
  induction Hold as [|o o' ol ol' Ho _ IH]; intros window window' Hw;
    [reflexivity|].
  destruct Hw as [|w w' ws ws' Hw Hws]; [reflexivity|].
  cbn [FileEditor.isMatch]. rewrite Ho, Hw. f_equal. now apply IH.
Qed.

Lemma Forall2_slice {A} (R : A -> A -> Prop) (i n : nat) (l l' : list A) :
  Forall2 R l l' -> Forall2 R (Js.slice i n l) (Js.slice i n l').
Proof.
  intros H. unfold Js.slice.
  assert (Forall2 R (skipn i l) (skipn i l')) as Hs.
  { revert i; induction H; intros [|i]; cbn; auto. }
  revert n; induction Hs; intros [|n]; cbn; auto.
Qed.

Lemma searchFrom_trimmed (contentLines contentLines' oldLines oldLines' : list string)
    (remaining i : nat) :
  Forall2 (fun a b => Js.trim a = Js.trim b) oldLines oldLines' ->
  Forall2 (fun a b => Js.trim a = Js.trim b) contentLines contentLines' ->
  FileEditor.searchFrom contentLines oldLines i remaining
  = FileEditor.searchFrom contentLines' oldLines' i remaining.
Proof.
  intros Hold Hcontent. revert i; induction remaining as [|r IH]; intros i;
    [reflexivity|].
  cbn [FileEditor.searchFrom]. cbn zeta.
  rewrite <- (Forall2_length Hold).
  rewrite (isMatch_trimmed oldLines oldLines' _
             (Js.slice i (length oldLines) contentLines') Hold
             (Forall2_slice _ i (length oldLines) _ _ Hcontent)).
  now rewrite IH.
Qed.

(** X12. The window that is found depends on the lines only up to the white
    space at their two ends: old lines and content lines that are changed in
    their leading and trailing white space only give the same index, or none
    in both cases. *)
Theorem findWindow_ignores_outer_whitespace
    (contentLines contentLines' oldLines oldLines' : list string) :
  Forall2 (fun a b => Js.trim a = Js.trim b) oldLines oldLines' ->
  Forall2 (fun a b => Js.trim a = Js.trim b) contentLines contentLines' ->
  FileEditor.findWindow contentLines oldLines
  = FileEditor.findWindow contentLines' oldLines'.
Proof.
  intros Hold Hcontent. unfold FileEditor.findWindow, FileEditor.turns.
  rewrite <- (Forall2_length Hold), <- (Forall2_length Hcontent).
  now apply searchFrom_trimmed.
Qed.

Lemma findWindow_ignores_outer_whitespace_witness :
  FileEditor.findWindow ["def f():"; "    return x  "; "end"] ["return x"]
  = FileEditor.findWindow ["def f():"; "return x"; "  end"] ["  return x "].
Proof.
  apply (findWindow_ignores_outer_whitespace
           ["def f():"; "    return x  "; "end"] ["def f():"; "return x"; "  end"]
           ["return x"] ["  return x "]).
  - repeat constructor.
  - repeat constructor.
Defined.

(** ** The lines of the content after the line-by-line strategy *)

Lemma split_noLF (l : string) :
  Lines.noLF l = true -> Js.split_lines l = [l].
Proof.
  unfold Js.split_lines. induction l as [|c l IH]; [reflexivity|].
  cbn [Lines.noLF Js.split]. intros H. apply andb_prop in H as [Hc Hl].
  apply negb_true_iff in Hc. rewrite Hc, (IH Hl). reflexivity.
Qed.

Lemma split_append_LF (l t : string) :
  Lines.noLF l = true ->
  Js.split_lines (l ++ String Js.LF t) = l :: Js.split_lines t.
Proof.
  unfold Js.split_lines. induction l as [|c l IH].
  - intros _. cbn [append Js.split]. now rewrite Ascii.eqb_refl.
  - cbn [Lines.noLF append Js.split]. intros H.
    apply andb_prop in H as [Hc Hl]. apply negb_true_iff in Hc.
    rewrite Hc, (IH Hl). reflexivity.
Qed.

Lemma split_lines_noLF (s : string) :
  Forall (fun l => Lines.noLF l = true) (Js.split_lines s).
Proof.
  unfold Js.split_lines. induction s as [|c s IH]; [repeat constructor|].
  cbn [Js.split]. destruct (Ascii.eqb c Js.LF) eqn:E.
  - constructor; [reflexivity|exact IH].
  - destruct (Js.split Js.LF s) as [|l ls]; [repeat constructor; cbn; now rewrite E|].
    inversion IH; subst. constructor; [|assumption].
    cbn [Lines.noLF]. rewrite E. assumption.
Qed.

(** Joining lines and splitting the text gives the lines back. *)
Lemma split_join (lines : list string) :
  lines <> [] ->
  Forall (fun l => Lines.noLF l = true) lines ->
  Js.split_lines (Js.join Js.nl lines) = lines.
Proof.
  unfold Js.join. induction lines as [|l lines IH]; [congruence|].
  intros _ H. inversion H as [|? ? Hl Hlines]; subst.
  destruct lines as [|l' lines]; [now apply split_noLF|].
  change (String.concat Js.nl (l :: l' :: lines))
    with (l ++ String Js.LF (String.concat Js.nl (l' :: lines))).
  rewrite (split_append_LF _ _ Hl). f_equal. apply IH; [discriminate|assumption].
Qed.

Lemma noLF_append (a b : string) :
  Lines.noLF (a ++ b) = Lines.noLF a && Lines.noLF b.
Proof.
  induction a as [|c a IH]; [reflexivity|].
  cbn [append Lines.noLF]. now rewrite IH, andb_assoc.
Qed.

Lemma noLF_leadingWhitespace (s : string) :
  Lines.noLF s = true -> Lines.noLF (Js.leadingWhitespace s) = true.
Proof.
  induction s as [|c s IH]; [reflexivity|].
  cbn [Lines.noLF Js.leadingWhitespace]. intros H.
  apply andb_prop in H as [Hc Hs].
  destruct (Js.isWhitespace c); [|reflexivity].
  cbn [Lines.noLF]. now rewrite Hc, IH.
Qed.

Lemma noLF_trimStart (s : string) :
  Lines.noLF s = true -> Lines.noLF (Js.trimStart s) = true.
Proof.
  induction s as [|c s IH]; [reflexivity|].
  cbn [Js.trimStart]. intros H. destruct (Js.isWhitespace c); [|exact H].
  cbn [Lines.noLF] in H. apply andb_prop in H as [_ Hs]. now apply IH.
Qed.

Lemma noLF_spaces (n : nat) : Lines.noLF (Js.repeat " " n) = true.
Proof. induction n as [|n IH]; [reflexivity|]. cbn. exact IH. Qed.

Lemma indentLine_noLF (originalIndent line : string) (oldLines : list string)
    (j : nat) :
  Lines.noLF originalIndent = true ->
  Lines.noLF line = true ->
  Lines.noLF (FileEditor.indentLine originalIndent oldLines line j) = true.
Proof.
  intros Hindent Hline. unfold FileEditor.indentLine.
  destruct (Nat.eqb j 0).
  - now rewrite noLF_append, Hindent, noLF_trimStart.
  - destruct (Js.truthy _ && Js.truthy _); [|exact Hline].
    now rewrite !noLF_append, Hindent, noLF_spaces, noLF_trimStart.
Qed.

Lemma mapi_from_Forall {A B} (P : A -> Prop) (Q : B -> Prop)
    (f : A -> nat -> B) (l : list A) (k : nat) :
  (forall x j, P x -> Q (f x j)) ->
  Forall P l -> Forall Q (Js.mapi_from k f l).
Proof.
  intros Hf H; revert k; induction H; intros k; cbn; constructor; auto.
Qed.

Lemma nth_noLF (lines : list string) (i : nat) :
  Forall (fun l => Lines.noLF l = true) lines ->
  Lines.noLF (nth i lines EmptyString) = true.
Proof.
  intros H; revert i; induction H; intros [|i]; cbn; auto.
Qed.

Lemma Forall_firstn_skipn {A} (P : A -> Prop) (l : list A) (n : nat) :
  Forall P l -> Forall P (firstn n l) /\ Forall P (skipn n l).
Proof.
  intros H; revert n; induction H; intros [|n]; cbn; auto.
  destruct (IHForall n). auto.
Qed.

(** X13. The line-by-line strategy touches the window only. When the window
    at line [i] is replaced, the lines of the new content above line [i] are
    those of the old content, the lines after the rewritten new lines are
    those that followed the window, and the number of lines changes by the
    difference between the numbers of new and old lines. *)
Theorem applyEdit_fuzzy_lines (modifiedContent : string) (edit : Edit) (i : nat) :
  let oldLines :=
    Js.split_lines (FileEditor.normalizeLineEndings (oldText edit)) in
  let newLines :=
    Js.split_lines (FileEditor.normalizeLineEndings (newText edit)) in
  let contentLines := Js.split_lines modifiedContent in
  Js.includes modifiedContent (FileEditor.normalizeLineEndings (oldText edit))
    = false ->
  FileEditor.findWindow contentLines oldLines = Some i ->
  exists result,
    FileEditor.applyEdit modifiedContent edit = Ok result
    /\ firstn i (Js.split_lines result) = firstn i contentLines
    /\ skipn (i + length newLines) (Js.split_lines result)
       = skipn (i + length oldLines) contentLines
    /\ length (Js.split_lines result) + length oldLines
       = length contentLines + length newLines.
Proof.
  intros oldLines newLines contentLines Hexact Hwindow.
  pose proof (findWindow_first _ _ _ Hwindow) as (Hi & _ & _).
  set (originalIndent := Js.leadingWhitespace (nth i contentLines EmptyString)).
  set (rewritten := Js.mapi (FileEditor.indentLine originalIndent oldLines) newLines).
  set (lines := (firstn i contentLines ++ rewritten
                 ++ skipn (i + length oldLines) contentLines)%list).
  assert (Hlen : length rewritten = length newLines)
    by apply mapi_from_length.
  assert (Hlines : Js.split_lines (Js.join Js.nl lines) = lines).
  { pose proof (split_lines_noLF modifiedContent) as Hcontent.
    fold contentLines in Hcontent.
    apply split_join.
    - subst lines rewritten. unfold Js.mapi.
      pose proof (split_not_nil Js.LF
                    (FileEditor.normalizeLineEndings (newText edit))) as Hne.
      fold (Js.split_lines (FileEditor.normalizeLineEndings (newText edit))) in Hne.
      fold newLines in Hne.
      destruct newLines; [congruence|]. cbn [Js.mapi_from].
      destruct (firstn i contentLines); discriminate.
    - subst lines. apply Forall_app. split;
        [apply Forall_firstn_skipn, Hcontent|].
      apply Forall_app. split; [|apply Forall_firstn_skipn, Hcontent].
      subst rewritten. unfold Js.mapi.
      apply mapi_from_Forall with (P := fun l => Lines.noLF l = true);
        [|apply split_lines_noLF].
      intros x j Hx. apply indentLine_noLF; [|exact Hx].
      apply noLF_leadingWhitespace, nth_noLF, Hcontent. }
  exists (Js.join Js.nl lines). split.
  - unfold FileEditor.applyEdit, FileEditor.fuzzyReplace.
    rewrite Hexact. fold oldLines contentLines. rewrite Hwindow. reflexivity.
  - rewrite Hlines. subst lines.
    assert (Hfirst : length (firstn i contentLines) = i)
      by (rewrite length_firstn; lia).
    split; [|split].
    + rewrite firstn_app, Hfirst, Nat.sub_diag, firstn_O, app_nil_r.
      rewrite firstn_all2 by lia. reflexivity.
    + rewrite skipn_app, Hfirst.
      rewrite (skipn_all2 (firstn i contentLines)) by lia.
      replace (i + length newLines - i) with (length rewritten) by lia.
      rewrite skipn_app, Nat.sub_diag, skipn_all2 by lia. reflexivity.
    + rewrite !length_app, Hfirst, Hlen, length_skipn. lia.
Qed.

Lemma applyEdit_fuzzy_lines_witness :
  let content := "begin" ++ Js.nl ++ "    if x:" ++ Js.nl ++ "        return x"
                 ++ Js.nl ++ "end" in
  let edit := {| oldText := "if x:" ++ Js.nl ++ "  return x";
                 newText := "if y:" ++ Js.nl ++ "    return y" ++ Js.nl ++ "done" |} in
  exists result,
    FileEditor.applyEdit content edit = Ok result
    /\ firstn 1 (Js.split_lines result) = ["begin"]
    /\ skipn 4 (Js.split_lines result) = ["end"]
    /\ length (Js.split_lines result) + 2 = 4 + 3.
Proof.
  intros content edit.
  apply (applyEdit_fuzzy_lines content edit 1); reflexivity.
Defined.

(** ** The fence and the write of applyFileEdits *)

(** X14. A diff without three backticks in a row gets the fence of three;
    in every case the fence is no longer than the diff by more than one
    backtick, three at least. *)
Theorem numBackticks_bounds (diff : string) :
  (Js.includes diff "```" = false -> FileEditor.numBackticks diff = 3)
  /\ FileEditor.numBackticks diff <= Nat.max 3 (String.length diff + 1).
Proof.
  destruct (numBackticks_spec diff) as (_ & Hge & Hno & Hmin). split.
  - intros H3.
    destruct (Nat.eq_dec (FileEditor.numBackticks diff) 3) as [E|E]; [exact E|].
    assert (Js.includes diff (Js.repeat "`" 3) = true) as H by (apply Hmin; lia).
    cbn in H. congruence.
  - destruct (Nat.eq_dec (FileEditor.numBackticks diff) 3) as [E|E]; [lia|].
    assert (Js.includes diff (Js.repeat "`" (FileEditor.numBackticks diff - 1))
            = true) as H by (apply Hmin; lia).
    apply includes_length in H. rewrite repeat_length in H. lia.
Qed.

Lemma numBackticks_bounds_witness :
  FileEditor.numBackticks "-old line+new line" = 3.
Proof.
  apply (proj1 (numBackticks_bounds "-old line+new line")). reflexivity.
Defined.

Section ApplyFileEditsEffects.

Context {disk : Type}.
Variable deps : FileSystemDependencies disk.
Variable createTwoFilesPatch :
  string -> string -> string -> string -> string -> string -> string.
Variable allowedDirectories : list string.

Let applyFileEdits :=
  FileEditor.applyFileEdits deps createTwoFilesPatch allowedDirectories.

(** X15. Without [dryRun], a run whose instructions all apply calls
    [writeFile] once, on the path that [validatePath] returned and with the
    final content: the disk after the run is the disk after that write, the
    diff is returned when the write succeeds and the error of the write is
    thrown when it fails. *)
Theorem applyFileEdits_writes_final_content
    (filePath validPath raw modifiedContent : string) (edits : list Edit)
    (d : disk) :
  fst (PathUtils.validatePath deps filePath allowedDirectories d) = Ok validPath ->
  readFile (fs deps) d validPath = Ok raw ->
  FileEditor.applyEdits (FileEditor.normalizeLineEndings raw) edits
    = Ok modifiedContent ->
  let written := writeFile (fs deps) validPath modifiedContent d in
  snd (applyFileEdits filePath edits false d) = snd written
  /\ fst (applyFileEdits filePath edits false d)
     = match fst written with
       | Ok _ =>
           Ok (FileEditor.formatDiff
                 (FileEditor.createUnifiedDiff createTwoFilesPatch
                    (FileEditor.normalizeLineEndings raw) modifiedContent filePath))
       | Throw e => Throw e
       end.
Proof.
  intros Hpath Hread Hedits written. subst written.
  unfold applyFileEdits. rewrite applyFileEdits_steps, Hpath, Hread. cbn zeta.
  rewrite Hedits.
  destruct (writeFile (fs deps) validPath modifiedContent d) as [[u|e] d'];
    split; reflexivity.
Qed.

(** X16. An error of [validatePath], or of [readFile] on the validated path,
    is thrown as it is, with or without [dryRun], and the disk is as it was:
    nothing is written, and after a refusal of the path nothing is read. *)
Theorem applyFileEdits_propagates_errors (filePath : string)
    (edits : list Edit) (dryRun : bool) (d : disk) (e : thrown) :
  (fst (PathUtils.validatePath deps filePath allowedDirectories d) = Throw e ->
   applyFileEdits filePath edits dryRun d = (Throw e, d))
  /\ (forall validPath,
        fst (PathUtils.validatePath deps filePath allowedDirectories d)
        = Ok validPath ->
        readFile (fs deps) d validPath = Throw e ->
        applyFileEdits filePath edits dryRun d = (Throw e, d)).
Proof.
  unfold applyFileEdits. split.
  - intros Hpath. now rewrite applyFileEdits_steps, Hpath.
  - intros validPath Hpath Hread. now rewrite applyFileEdits_steps, Hpath, Hread.
Qed.

(** X17. With an empty list of instructions and without [dryRun], the file
    is still written: its content is replaced by its content with normalized
    line endings, and the returned diff compares that normalized content with
    itself. *)
Theorem applyFileEdits_no_edits_normalizes (filePath validPath raw : string)
    (d : disk) :
  fst (PathUtils.validatePath deps filePath allowedDirectories d) = Ok validPath ->
  readFile (fs deps) d validPath = Ok raw ->
  let content := FileEditor.normalizeLineEndings raw in
  applyFileEdits filePath [] false d
  = match writeFile (fs deps) validPath content d with
    | (Ok _, d') =>
        (Ok (FileEditor.formatDiff
               (FileEditor.createUnifiedDiff createTwoFilesPatch content content
                  filePath)), d')
    | (Throw e, d') => (Throw e, d')
    end.
Proof.
  intros Hpath Hread content. subst content.
  unfold applyFileEdits. now rewrite applyFileEdits_steps, Hpath, Hread.
Qed.

End ApplyFileEditsEffects.

(** The file is written once, with the final content. *)
Lemma applyFileEdits_writes_final_content_witness :
  snd (FileEditor.applyFileEdits
         (mockDeps "/allowed/dir/test.txt" "file content") stubPatch
         ["/allowed/dir"] "/allowed/dir/test.txt"
         [ {| oldText := "file"; newText := "new" |} ] false [])
  = [("/allowed/dir/test.txt", "new content")].
Proof.
  apply (proj1 (applyFileEdits_writes_final_content
                  (mockDeps "/allowed/dir/test.txt" "file content") stubPatch
                  ["/allowed/dir"] "/allowed/dir/test.txt" "/allowed/dir/test.txt"
                  "file content" "new content"
                  [ {| oldText := "file"; newText := "new" |} ] []
                  eq_refl eq_refl eq_refl)).
Defined.

(** A refused path: nothing is written. *)
Lemma applyFileEdits_propagates_errors_witness :
  snd (FileEditor.applyFileEdits
         (mockDeps "/not/allowed/test.txt" "file content") stubPatch
         ["/allowed/dir"] "/not/allowed/test.txt"
         [ {| oldText := "file"; newText := "new" |} ] false [])
  = [].
Proof.
  rewrite (proj1 (applyFileEdits_propagates_errors
                    (mockDeps "/not/allowed/test.txt" "file content") stubPatch
                    ["/allowed/dir"] "/not/allowed/test.txt"
                    [ {| oldText := "file"; newText := "new" |} ] false []
                    (PathUtils.accessDeniedRequested "/not/allowed/test.txt"
                       ["/allowed/dir"])) eq_refl).
  reflexivity.
Defined.

(** A file with carriage returns is written back without them. *)
Lemma applyFileEdits_no_edits_normalizes_witness :
  snd (FileEditor.applyFileEdits
         (mockDeps "/allowed/dir/test.txt" ("a" ++ Js.crlf ++ "b")) stubPatch
         ["/allowed/dir"] "/allowed/dir/test.txt" [] false [])
  = [("/allowed/dir/test.txt", "a" ++ Js.nl ++ "b")].
Proof.
  rewrite (applyFileEdits_no_edits_normalizes
             (mockDeps "/allowed/dir/test.txt" ("a" ++ Js.crlf ++ "b")) stubPatch
             ["/allowed/dir"] "/allowed/dir/test.txt" "/allowed/dir/test.txt"
             ("a" ++ Js.crlf ++ "b") [] eq_refl eq_refl).
  reflexivity.
Defined.

(** * FileOperations *)

(** ** searchFiles *)

Section SearchFiles.

Context {disk : Type}.
Variable deps : FileSystemDependencies disk.
Variable more : MoreDependencies disk.
Variable minimatch : string -> string -> bool.
Variable allowedDirectories : list string.
Variable d : disk.
Variable rootPath : string.
Variable pattern : string.
Variable excludePatterns : list string.

Let search (fuel : nat) :=
  FileOperations.search deps more minimatch allowedDirectories fuel d rootPath
    pattern excludePatterns.
Let visitEntries searchDirectory :=
  FileOperations.visitEntries deps more minimatch allowedDirectories
    searchDirectory d rootPath pattern excludePatterns.
Let Hit :=
  FileOperations.Hit deps more minimatch allowedDirectories d rootPath pattern
    excludePatterns.
Let fullPath (currentPath : string) (entry : Dirent) : string :=
  join (path deps) [currentPath; name entry].

(** What one entry of a directory contributes to the search. *)
Let contributes (currentPath : string) (entry : Dirent) (found : string) : Prop :=
  (exists validPath,
      fst (PathUtils.validatePath deps (fullPath currentPath entry)
             allowedDirectories d) = Ok validPath)
  /\ FileOperations.shouldExclude minimatch excludePatterns
       (relative more rootPath (fullPath currentPath entry)) = false
  /\ ((FileOperations.nameMatches pattern entry = true
       /\ found = fullPath currentPath entry)
      \/ (dirent_isDirectory entry = true
          /\ Hit (fullPath currentPath entry) found)).

Lemma hit_iff (currentPath found : string) :
  Hit currentPath found
  <-> exists entries entry,
        readdir more d currentPath = Ok entries
        /\ In entry entries
        /\ contributes currentPath entry found.
Proof.
  unfold contributes, fullPath. split.
  - intros H. destruct H as [cur entries entry validPath Hdir Hin Hvalid Hex Hname
                            |cur entries entry validPath found Hdir Hin Hvalid Hex Hisdir Hbelow].
    + exists entries, entry. repeat split; eauto.
    + exists entries, entry. repeat split; eauto.
  - intros (entries & entry & Hdir & Hin & [validPath Hvalid] & Hex & Hcase).
    destruct Hcase as [[Hname ->]|[Hisdir Hbelow]].
    + eapply FileOperations.hit_here; eauto.
    + eapply FileOperations.hit_below; eauto.
Qed.

(** The loop over the entries of a directory adds to [results] what the
    entries contribute, when the search of a directory adds the hits below
    it. *)
Lemma visitEntries_adds
    (searchDirectory : string -> list string -> option (result unit * list string))
    (currentPath : string) :
  (forall p results r results',
      searchDirectory p results = Some (r, results') ->
      exists found, results' = (results ++ found)%list
                    /\ forall x, In x found <-> Hit p x) ->
  forall entries results r results',
    visitEntries searchDirectory currentPath entries results = Some (r, results') ->
    r = Ok tt
    /\ exists found,
         results' = (results ++ found)%list
         /\ forall x, In x found
                      <-> exists entry, In entry entries
                                        /\ contributes currentPath entry x.
Proof.
  intros Hsearch. unfold visitEntries.
  induction entries as [|entry entries IH]; intros results r results' Hrun.
  - cbn in Hrun. injection Hrun as <- <-. split; [reflexivity|].
    exists []. split; [now rewrite app_nil_r|].
    intros x; split; [intros []|intros (? & [] & _)].
  - cbn [FileOperations.visitEntries] in Hrun. cbn zeta in Hrun.
    fold (fullPath currentPath entry) in Hrun.
    destruct (fst (PathUtils.validatePath deps (fullPath currentPath entry)
                     allowedDirectories d)) as [validPath|e] eqn:Hvalid.
    2:{ apply IH in Hrun as (-> & found & -> & Hfound).
        split; [reflexivity|]. exists found. split; [reflexivity|].
        intros x. rewrite Hfound. split.
        - intros (entry' & Hin & Hc). exists entry'. split; [now right|exact Hc].
        - intros (entry' & [<-|Hin] & Hc); [|now exists entry'].
          destruct Hc as ([v Hv] & _). congruence. }
    destruct (FileOperations.shouldExclude minimatch excludePatterns
                (relative more rootPath (fullPath currentPath entry))) eqn:Hex.
    { apply IH in Hrun as (-> & found & -> & Hfound).
      split; [reflexivity|]. exists found. split; [reflexivity|].
      intros x. rewrite Hfound. split.
      - intros (entry' & Hin & Hc). exists entry'. split; [now right|exact Hc].
      - intros (entry' & [<-|Hin] & Hc); [|now exists entry'].
        destruct Hc as (_ & Hc & _). congruence. }
    set (here := if FileOperations.nameMatches pattern entry
                 then [fullPath currentPath entry] else []).
    assert (Hhere : forall x,
               In x here <-> FileOperations.nameMatches pattern entry = true
                             /\ x = fullPath currentPath entry).
    { intros x. subst here.
      destruct (FileOperations.nameMatches pattern entry); cbn.
      - split; [intros [<-|[]]; now split|intros [_ ->]; now left].
      - split; [intros []|intros [? _]; discriminate]. }
    assert (Hresults1 :
              (if FileOperations.nameMatches pattern entry
               then (results ++ [fullPath currentPath entry])%list else results)
              = (results ++ here)%list).
    { subst here. destruct (FileOperations.nameMatches pattern entry);
        [reflexivity|now rewrite app_nil_r]. }
    rewrite Hresults1 in Hrun.
    destruct (dirent_isDirectory entry) eqn:Hisdir.
    + destruct (searchDirectory (fullPath currentPath entry) (results ++ here)%list)
        as [[r2 results2]|] eqn:Hsub; [|discriminate].
      apply Hsearch in Hsub as (below & -> & Hbelow).
      apply IH in Hrun as (-> & found & -> & Hfound).
      split; [reflexivity|]. exists (here ++ below ++ found)%list.
      split; [now rewrite <- !app_assoc|].
      intros x. rewrite !in_app_iff, Hhere, Hbelow, Hfound. split.
      * intros [Hx|[Hx|(entry' & Hin & Hc)]].
        -- exists entry. split; [now left|].
           split; [now exists validPath|]. split; [exact Hex|now left].
        -- exists entry. split; [now left|].
           split; [now exists validPath|]. split; [exact Hex|now right].
        -- exists entry'. split; [now right|exact Hc].
      * intros (entry' & [<-|Hin] & Hc).
        -- destruct Hc as (_ & _ & [Hx|[_ Hx]]); [now left|right; now left].
        -- right; right. now exists entry'.
    + apply IH in Hrun as (-> & found & -> & Hfound).
      split; [reflexivity|]. exists (here ++ found)%list.
      split; [now rewrite <- app_assoc|].
      intros x. rewrite in_app_iff, Hhere, Hfound. split.
      * intros [Hx|(entry' & Hin & Hc)].
        -- exists entry. split; [now left|].
           split; [now exists validPath|]. split; [exact Hex|now left].
        -- exists entry'. split; [now right|exact Hc].
      * intros (entry' & [<-|Hin] & Hc).
        -- destruct Hc as (_ & _ & [Hx|[Hdir _]]); [now left|congruence].
        -- right. now exists entry'.
Qed.

(** The search of a directory adds the hits below it, and throws only the
    error of [readdir] on the directory itself. *)
Lemma search_adds (fuel : nat) :
  forall currentPath results r results',
    search fuel currentPath results = Some (r, results') ->
    (exists found, results' = (results ++ found)%list
                   /\ forall x, In x found <-> Hit currentPath x)
    /\ match r with
       | Ok _ => exists entries, readdir more d currentPath = Ok entries
       | Throw e => readdir more d currentPath = Throw e
       end.
Proof.
  unfold search. induction fuel as [|fuel IH];
    intros currentPath results r results' Hrun; [discriminate|].
  cbn [FileOperations.search] in Hrun.
  destruct (readdir more d currentPath) as [entries|e] eqn:Hdir.
  - apply (visitEntries_adds _ currentPath) in Hrun as (-> & found & -> & Hfound).
    2:{ intros p res r0 res' H. now apply IH in H as [H _]. }
    split; [|now exists entries].
    exists found. split; [reflexivity|]. intros x. rewrite Hfound, hit_iff.
    split.
    + intros (entry & Hin & Hc). now exists entries, entry.
    + intros (entries' & entry & Hdir' & Hin & Hc).
      rewrite Hdir in Hdir'. injection Hdir' as <-. now exists entry.
  - injection Hrun as <- <-. split; [|reflexivity].
    exists []. split; [now rewrite app_nil_r|].
    intros x. rewrite hit_iff. split; [intros []|].
    intros (entries & entry & Hdir' & _). congruence.
Qed.

Lemma visitEntries_ext
    (search1 search2 : string -> list string -> option (result unit * list string))
    (currentPath : string) :
  (forall p results out, search1 p results = Some out -> search2 p results = Some out) ->
  forall entries results out,
    visitEntries search1 currentPath entries results = Some out ->
    visitEntries search2 currentPath entries results = Some out.
Proof.
  intros Hext. unfold visitEntries.
  induction entries as [|entry entries IH]; intros results out Hrun;
    [exact Hrun|].
  cbn [FileOperations.visitEntries] in *. cbn zeta in *.
  destruct (fst (PathUtils.validatePath deps _ allowedDirectories d));
    [|now apply IH].
  destruct (FileOperations.shouldExclude minimatch excludePatterns _);
    [now apply IH|].
  destruct (dirent_isDirectory entry); [|now apply IH].
  destruct (search1 _ _) as [[r2 results2]|] eqn:H1; [|discriminate].
  rewrite (Hext _ _ _ H1). now apply IH.
Qed.

(** A search that comes to an end within a bound gives the same result
    within every larger bound. *)
Lemma search_more_fuel (fuel fuel' : nat) :
  fuel <= fuel' ->
  forall currentPath results out,
    search fuel currentPath results = Some out ->
    search fuel' currentPath results = Some out.
Proof.
  unfold search. revert fuel'.
  induction fuel as [|fuel IH]; intros fuel' Hle currentPath results out Hrun;
    [discriminate|].
  destruct fuel' as [|fuel']; [lia|].
  cbn [FileOperations.search] in *.
  destruct (readdir more d currentPath); [|exact Hrun].
  eapply visitEntries_ext; [|exact Hrun].
  intros p res o. apply IH. lia.
Qed.

End SearchFiles.

Section SearchFilesProperties.

Context {disk : Type}.
Variable deps : FileSystemDependencies disk.
Variable more : MoreDependencies disk.
Variable minimatch : string -> string -> bool.
Variable allowedDirectories : list string.

Let searchFiles :=
  FileOperations.searchFiles deps more minimatch allowedDirectories.

(** X18. What [searchFiles] returns is what there is to find, no more and no
    less: a path is in the result exactly when it is an entry of the
    validated root or of a directory reached from it through entries that
    are directories, pass [validatePath] and are not excluded, and the entry
    itself passes [validatePath], is not excluded and has the pattern in its
    name, both in lower case. *)
Theorem searchFiles_finds_exactly (fuel : nat) (rootPath pattern : string)
    (excludePatterns results : list string) (d : disk) :
  searchFiles fuel rootPath pattern excludePatterns d = Some (Ok results) ->
  exists validRootPath,
    fst (PathUtils.validatePath deps rootPath allowedDirectories d)
    = Ok validRootPath
    /\ forall found,
         In found results
         <-> FileOperations.Hit deps more minimatch allowedDirectories d rootPath
               pattern excludePatterns validRootPath found.
Proof.
  unfold searchFiles, FileOperations.searchFiles.
  destruct (fst (PathUtils.validatePath deps rootPath allowedDirectories d))
    as [validRootPath|e]; [|discriminate].
  destruct (FileOperations.search _ _ _ _ fuel d rootPath pattern excludePatterns
              validRootPath []) as [[[u|e] results']|] eqn:Hrun; try discriminate.
  intros [= <-]. exists validRootPath. split; [reflexivity|].
  apply search_adds in Hrun as [(found & -> & Hfound) _]. exact Hfound.
Qed.

(** X19. [searchFiles] throws for two reasons only: the root fails
    [validatePath], or [readdir] fails on the validated root. The error is
    the one of that call. A failure below the root is not an error of the
    search. *)
Theorem searchFiles_throws_iff (fuel : nat) (rootPath pattern : string)
    (excludePatterns : list string) (d : disk) (e : thrown) :
  searchFiles (S fuel) rootPath pattern excludePatterns d = Some (Throw e)
  <-> fst (PathUtils.validatePath deps rootPath allowedDirectories d) = Throw e
      \/ exists validRootPath,
           fst (PathUtils.validatePath deps rootPath allowedDirectories d)
           = Ok validRootPath
           /\ readdir more d validRootPath = Throw e.
Proof.
  unfold searchFiles, FileOperations.searchFiles.
  destruct (fst (PathUtils.validatePath deps rootPath allowedDirectories d))
    as [validRootPath|e0].
  2:{ split; [intros [= ->]; now left|].
      intros [[= ->]|(v & H & _)]; [reflexivity|discriminate]. }
  destruct (FileOperations.search _ _ _ _ (S fuel) d rootPath pattern
              excludePatterns validRootPath []) as [[[u|e0] results']|] eqn:Hrun.
  - apply search_adds in Hrun as [_ [entries Hdir]]. split; [discriminate|].
    intros [H|(v & [= <-] & H)]; [discriminate|congruence].
  - apply search_adds in Hrun as [_ Hdir]. split.
    + intros [= <-]. right. now exists validRootPath.
    + intros [H|(v & [= <-] & H)]; [discriminate|congruence].
  - cbn [FileOperations.search] in Hrun. split; [discriminate|].
    intros [H|(v & [= <-] & H)]; [discriminate|].
    rewrite H in Hrun. discriminate.
Qed.

(** X20. The bound on the depth does not change the result: a search that
    comes to an end within a bound gives the same result within every
    larger bound. *)
Theorem searchFiles_more_fuel (fuel fuel' : nat) (rootPath pattern : string)
    (excludePatterns : list string) (d : disk)
    (out : result (list string)) :
  fuel <= fuel' ->
  searchFiles fuel rootPath pattern excludePatterns d = Some out ->
  searchFiles fuel' rootPath pattern excludePatterns d = Some out.
Proof.
  unfold searchFiles, FileOperations.searchFiles. intros Hle.
  destruct (fst (PathUtils.validatePath deps rootPath allowedDirectories d))
    as [validRootPath|e]; [|auto].
  destruct (FileOperations.search _ _ _ _ fuel d rootPath pattern excludePatterns
              validRootPath []) as [out'|] eqn:Hrun; [|discriminate].
  now rewrite (search_more_fuel deps more minimatch allowedDirectories d rootPath
                 pattern excludePatterns fuel fuel' Hle _ _ _ Hrun).
Qed.

End SearchFilesProperties.

(** The search for "readme" in the project, without the packages: the two
    files whose name has it in some case, the one below [src] first; the link
    that leaves the allowed directory is skipped. *)
Example searchFiles_project :
  FileOperations.searchFiles plainDeps projectMore stubMinimatch ["/allowed/dir"]
    3 "/allowed/dir" "readme" ["node_modules"] projectDisk
  = Some (Ok ["/allowed/dir/src/Readme.txt"; "/allowed/dir/README.md"]).
Proof. reflexivity. Qed.

Lemma searchFiles_finds_exactly_witness :
  exists validRootPath,
    fst (PathUtils.validatePath plainDeps "/allowed/dir" ["/allowed/dir"]
           projectDisk) = Ok validRootPath
    /\ forall found,
         In found ["/allowed/dir/src/Readme.txt"; "/allowed/dir/README.md"]
         <-> FileOperations.Hit plainDeps projectMore stubMinimatch
               ["/allowed/dir"] projectDisk "/allowed/dir" "readme"
               ["node_modules"] validRootPath found.
Proof.
  apply (searchFiles_finds_exactly plainDeps projectMore stubMinimatch
           ["/allowed/dir"] 3 "/allowed/dir" "readme" ["node_modules"]
           ["/allowed/dir/src/Readme.txt"; "/allowed/dir/README.md"] projectDisk).
  reflexivity.
Defined.

Lemma searchFiles_more_fuel_witness :
  FileOperations.searchFiles plainDeps projectMore stubMinimatch ["/allowed/dir"]
    10 "/allowed/dir" "readme" ["node_modules"] projectDisk
  = Some (Ok ["/allowed/dir/src/Readme.txt"; "/allowed/dir/README.md"]).
Proof.
  apply (searchFiles_more_fuel plainDeps projectMore stubMinimatch
           ["/allowed/dir"] 3 10 "/allowed/dir" "readme" ["node_modules"]
           projectDisk); [lia|reflexivity].
Defined.

(** ** The case of the pattern *)

Lemma lowerChar_idempotent (c : ascii) :
  JsMore.lowerChar (JsMore.lowerChar c) = JsMore.lowerChar c.
Proof. destruct c as [[] [] [] [] [] [] [] []]; reflexivity. Qed.

Lemma toLowerCase_idempotent (s : string) :
  JsMore.toLowerCase (JsMore.toLowerCase s) = JsMore.toLowerCase s.
Proof.
  induction s as [|c s IH]; [reflexivity|].
  cbn [JsMore.toLowerCase]. now rewrite lowerChar_idempotent, IH.
Qed.

Section SearchFilesCase.

Context {disk : Type}.
Variable deps : FileSystemDependencies disk.
Variable more : MoreDependencies disk.
Variable minimatch : string -> string -> bool.
Variable allowedDirectories : list string.

Lemma visitEntries_same_case
    (search1 search2 : string -> list string -> option (result unit * list string))
    (d : disk) (rootPath pattern1 pattern2 : string)
    (excludePatterns : list string) (currentPath : string) :
  JsMore.toLowerCase pattern1 = JsMore.toLowerCase pattern2 ->
  (forall p results, search1 p results = search2 p results) ->
  forall entries results,
    FileOperations.visitEntries deps more minimatch allowedDirectories search1 d
      rootPath pattern1 excludePatterns currentPath entries results
    = FileOperations.visitEntries deps more minimatch allowedDirectories search2 d
        rootPath pattern2 excludePatterns currentPath entries results.
Proof.
  intros Hcase Hsearch.
  induction entries as [|entry entries IH]; intros results; [reflexivity|].
  cbn [FileOperations.visitEntries]. cbn zeta.
  unfold FileOperations.nameMatches. rewrite Hcase.
  destruct (fst (PathUtils.validatePath deps _ allowedDirectories d));
    [|apply IH].
  destruct (FileOperations.shouldExclude minimatch excludePatterns _);
    [apply IH|].
  destruct (dirent_isDirectory entry); [|apply IH].
  rewrite Hsearch. destruct (search2 _ _) as [[r results2]|]; [apply IH|reflexivity].
Qed.

Lemma search_same_case (fuel : nat) (d : disk)
    (rootPath pattern1 pattern2 : string) (excludePatterns : list string) :
  JsMore.toLowerCase pattern1 = JsMore.toLowerCase pattern2 ->
  forall currentPath results,
    FileOperations.search deps more minimatch allowedDirectories fuel d rootPath
      pattern1 excludePatterns currentPath results
    = FileOperations.search deps more minimatch allowedDirectories fuel d rootPath
        pattern2 excludePatterns currentPath results.
Proof.
  intros Hcase. induction fuel as [|fuel IH]; intros currentPath results;
    [reflexivity|].
  cbn [FileOperations.search].
  destruct (readdir more d currentPath); [|reflexivity].
  now apply visitEntries_same_case.
Qed.

(** X21. The search does not look at the case of the pattern: two patterns
    with the same lower-case form, such as a pattern and its lower-case
    form, give the same result. *)
Theorem searchFiles_case_insensitive (fuel : nat)
    (rootPath pattern1 pattern2 : string) (excludePatterns : list string)
    (d : disk) :
  (JsMore.toLowerCase pattern1 = JsMore.toLowerCase pattern2 ->
   FileOperations.searchFiles deps more minimatch allowedDirectories fuel
     rootPath pattern1 excludePatterns d
   = FileOperations.searchFiles deps more minimatch allowedDirectories fuel
       rootPath pattern2 excludePatterns d)
  /\ FileOperations.searchFiles deps more minimatch allowedDirectories fuel
       rootPath (JsMore.toLowerCase pattern1) excludePatterns d
     = FileOperations.searchFiles deps more minimatch allowedDirectories fuel
         rootPath pattern1 excludePatterns d.
Proof.
  assert (Hgen : forall p1 p2,
             JsMore.toLowerCase p1 = JsMore.toLowerCase p2 ->
             FileOperations.searchFiles deps more minimatch allowedDirectories fuel
               rootPath p1 excludePatterns d
             = FileOperations.searchFiles deps more minimatch allowedDirectories
                 fuel rootPath p2 excludePatterns d).
  { intros p1 p2 Hcase. unfold FileOperations.searchFiles.
    destruct (fst (PathUtils.validatePath deps rootPath allowedDirectories d));
      [|reflexivity].
    now rewrite (search_same_case fuel d rootPath p1 p2 excludePatterns Hcase). }
  split; [apply Hgen|]. apply Hgen, toLowerCase_idempotent.
Qed.

End SearchFilesCase.

Lemma searchFiles_case_insensitive_witness :
  FileOperations.searchFiles plainDeps projectMore stubMinimatch ["/allowed/dir"]
    3 "/allowed/dir" "ReadMe" ["node_modules"] projectDisk
  = FileOperations.searchFiles plainDeps projectMore stubMinimatch ["/allowed/dir"]
      3 "/allowed/dir" "README" ["node_modules"] projectDisk.
Proof.
  apply (proj1 (searchFiles_case_insensitive plainDeps projectMore stubMinimatch
                  ["/allowed/dir"] 3 "/allowed/dir" "ReadMe" "README"
                  ["node_modules"] projectDisk)).
  reflexivity.
Defined.

(** ** getFileStats *)

Lemma append_assoc (a b c : string) : (a ++ b) ++ c = a ++ (b ++ c).
Proof. induction a as [|x a IH]; cbn; [reflexivity|now rewrite IH]. Qed.

Lemma append_length (a b : string) :
  String.length (a ++ b) = String.length a + String.length b.
Proof. induction a as [|x a IH]; cbn; [reflexivity|now rewrite IH]. Qed.

Lemma slice_from_append (a b : string) :
  Js.slice_from (String.length a) (a ++ b) = b.
Proof. induction a as [|x a IH]; [now destruct b|exact IH]. Qed.

Lemma slice_last_append (a b : string) :
  JsMore.slice_last (String.length b) (a ++ b) = b.
Proof.
  unfold JsMore.slice_last. rewrite append_length.
  replace (String.length a + String.length b - String.length b)
    with (String.length a) by lia.
  apply slice_from_append.
Qed.

Lemma digitsAux_acc (fuel : nat) (radix n : N) (acc : string) :
  JsMore.digitsAux fuel radix n acc
  = JsMore.digitsAux fuel radix n EmptyString ++ acc.
Proof.
  revert n acc; induction fuel as [|fuel IH]; intros n acc; [reflexivity|].
  cbn [JsMore.digitsAux]. cbn zeta.
  destruct (n <? radix)%N; [reflexivity|].
  rewrite IH, (IH _ (String _ EmptyString)), append_assoc. reflexivity.
Qed.

Lemma div_radix_bound (n radix : N) (k : nat) :
  (2 <= radix)%N -> (n < 2 ^ N.of_nat (S (S k)))%N ->
  (n / radix < 2 ^ N.of_nat (S k))%N.
Proof.
  intros Hr Hn. apply N.Div0.div_lt_upper_bound.
  rewrite (Nat2N.inj_succ (S k)), N.pow_succ_r' in Hn.
  nia.
Qed.

Lemma digitsAux_fuel (fuel fuel' : nat) (radix n : N) (acc : string) :
  (2 <= radix)%N ->
  (n < 2 ^ N.of_nat (S fuel))%N -> (n < 2 ^ N.of_nat (S fuel'))%N ->
  JsMore.digitsAux fuel radix n acc = JsMore.digitsAux fuel' radix n acc.
Proof.
  intros Hr. revert fuel' n acc.
  induction fuel as [|fuel IH]; intros fuel' n acc Hn Hn'.
  - change (2 ^ N.of_nat 1)%N with 2%N in Hn.
    destruct fuel' as [|fuel']; [reflexivity|].
    cbn [JsMore.digitsAux]. cbn zeta.
    destruct (N.ltb_spec n radix); [reflexivity|lia].
  - destruct fuel' as [|fuel'].
    + change (2 ^ N.of_nat 1)%N with 2%N in Hn'.
      cbn [JsMore.digitsAux]. cbn zeta.
      destruct (N.ltb_spec n radix); [reflexivity|lia].
    + cbn [JsMore.digitsAux]. cbn zeta.
      destruct (N.ltb_spec n radix); [reflexivity|].
      apply IH; now apply div_radix_bound.
Qed.

Lemma log2_bound (n : N) : (n < 2 ^ N.of_nat (S (N.to_nat (N.log2 n))))%N.
Proof.
  rewrite Nat2N.inj_succ, N2Nat.id.
  destruct (N.eq_dec n 0) as [->|Hn]; [reflexivity|].
  apply N.log2_spec. lia.
Qed.

(** The digits of a number below the radix, and of a larger one. *)
Lemma toStringRadix_digit (radix n : N) :
  (n < radix)%N ->
  JsMore.toStringRadix radix n = String (JsMore.digitChar n) EmptyString.
Proof.
  intros Hn. unfold JsMore.toStringRadix.
  destruct (N.to_nat (N.log2 n)); cbn [JsMore.digitsAux]; cbn zeta;
    rewrite ?(proj2 (N.ltb_lt _ _) Hn), N.mod_small by exact Hn; reflexivity.
Qed.

Lemma toStringRadix_step (radix n : N) :
  (2 <= radix)%N -> (radix <= n)%N ->
  JsMore.toStringRadix radix n
  = JsMore.toStringRadix radix (n / radix)
    ++ String (JsMore.digitChar (n mod radix)) EmptyString.
Proof.
  intros Hr Hn. unfold JsMore.toStringRadix.
  pose proof (log2_bound n) as Hbound.
  destruct (N.to_nat (N.log2 n)) as [|fuel].
  - change (2 ^ N.of_nat 1)%N with 2%N in Hbound. lia.
  - cbn [JsMore.digitsAux]. cbn zeta.
    destruct (N.ltb_spec n radix); [lia|].
    rewrite digitsAux_acc. f_equal.
    apply digitsAux_fuel; [exact Hr|now apply div_radix_bound|apply log2_bound].
Qed.

(** The last three octal digits of a number from 64 on. *)
Lemma toString8_last3 (n : N) :
  (64 <= n)%N ->
  JsMore.slice_last 3 (JsMore.toStringRadix 8 n)
  = String (JsMore.digitChar ((n / 64) mod 8))
      (String (JsMore.digitChar ((n / 8) mod 8))
         (String (JsMore.digitChar (n mod 8)) EmptyString)).
Proof.
  intros Hn.
  assert (H8 : (8 <= n / 8)%N) by (apply N.div_le_lower_bound; lia).
  rewrite (toStringRadix_step 8 n) by lia.
  rewrite (toStringRadix_step 8 (n / 8)) by lia.
  rewrite N.Div0.div_div. change (8 * 8)%N with 64%N.
  assert (exists front,
             JsMore.toStringRadix 8 (n / 64)
             = front ++ String (JsMore.digitChar ((n / 64) mod 8)) EmptyString)
    as [front ->].
  { destruct (N.lt_ge_cases (n / 64) 8) as [Hsmall|Hlarge].
    - exists EmptyString. rewrite toStringRadix_digit by exact Hsmall.
      now rewrite N.mod_small.
    - eexists. apply toStringRadix_step; lia. }
  rewrite !append_assoc. cbn [append].
  apply (slice_last_append front
           (String _ (String _ (String _ EmptyString)))).
Qed.

Section GetFileStats.

Context {disk : Type}.
Variable deps : FileSystemDependencies disk.
Variable more : MoreDependencies disk.
Variable allowedDirectories : list string.

(** X22. [getFileStats] describes the path that [validatePath] returned, and
    its [permissions] are the last three octal digits of the mode: for a mode
    from 64 on, the digits of the owner, the group and the others; a mode
    below 8 gives its one digit, without zeros in front. *)
Theorem getFileStats_permissions (filePath validPath : string) (stats : Stats)
    (d : disk) :
  fst (PathUtils.validatePath deps filePath allowedDirectories d) = Ok validPath ->
  stat more d validPath = Ok stats ->
  exists info,
    FileOperations.getFileStats deps more allowedDirectories filePath d
    = (Ok info, d)
    /\ info_size info = size stats
    /\ isDirectory info = stats_isDirectory stats
    /\ isFile info = stats_isFile stats
    /\ ((64 <= mode stats)%N ->
        permissions info
        = String (JsMore.digitChar ((mode stats / 64) mod 8))
            (String (JsMore.digitChar ((mode stats / 8) mod 8))
               (String (JsMore.digitChar (mode stats mod 8)) EmptyString)))
    /\ ((mode stats < 8)%N ->
        permissions info = String (JsMore.digitChar (mode stats)) EmptyString).
Proof.
  intros Hpath Hstat. unfold FileOperations.getFileStats, bind, query, ret.
  pose proof (validatePath_disk deps allowedDirectories filePath d) as Hd.
  destruct (PathUtils.validatePath deps filePath allowedDirectories d)
    as [r d0]. cbn [fst snd] in *. subst r d0. rewrite Hstat.
  eexists. split; [reflexivity|]. cbn [info_size isDirectory isFile permissions].
  repeat split.
  - apply toString8_last3.
  - intros Hsmall. rewrite toStringRadix_digit by lia. reflexivity.
Qed.

End GetFileStats.

(** A file of mode 100644: the permissions are 644. *)
Lemma getFileStats_permissions_witness :
  exists info,
    FileOperations.getFileStats plainDeps projectMore ["/allowed/dir"]
      "/allowed/dir/README.md" projectDisk = (Ok info, projectDisk)
    /\ permissions info = "644".
Proof.
  destruct (getFileStats_permissions plainDeps projectMore ["/allowed/dir"]
              "/allowed/dir/README.md" "/allowed/dir/README.md"
              {| size := 9; birthtime := 1000; mtime := 2000; atime := 3000;
                 stats_isDirectory := false; stats_isFile := true; mode := 33188 |}
              projectDisk eq_refl eq_refl)
    as (info & Hrun & _ & _ & _ & Hperm & _).
  exists info. split; [exact Hrun|]. apply Hperm. cbn. lia.
Defined.

(** * FilesystemServer *)

Section ServerProperties.

Context {disk json : Type}.
Variable deps : FileSystemDependencies disk.
Variable more : MoreDependencies disk.
Variable minimatch : string -> string -> bool.
Variable createTwoFilesPatch :
  string -> string -> string -> string -> string -> string -> string.
Variable schemas : Schemas json.
Variable stringifyTree : list TreeEntry -> string.
Variable showDate : N -> string.
Variable allowedDirectories : list string.

Let handleCallTool :=
  Server.handleCallTool deps more minimatch createTwoFilesPatch schemas
    stringifyTree showDate allowedDirectories.
Let callTool :=
  Server.callTool deps more minimatch createTwoFilesPatch schemas
    stringifyTree showDate allowedDirectories.
Let validatePath (p : string) (d : disk) :=
  fst (PathUtils.validatePath deps p allowedDirectories d).

(** The answer to an error of the [switch]. *)
Let errorAnswer (e : thrown) : Response :=
  {| text := "Error: " ++ Server.errorMessage e; isError := true |}.

Lemma validatePath_run (p : string) (d : disk) :
  PathUtils.validatePath deps p allowedDirectories d = (validatePath p d, d).
Proof.
  unfold validatePath.
  pose proof (validatePath_disk deps allowedDirectories p d) as Hd.
  destruct (PathUtils.validatePath deps p allowedDirectories d) as [r d0].
  cbn [fst snd] in *. now subst.
Qed.

(** X23. The tools that change the disk do not touch it when a path is
    refused: [write_file] and [create_directory] whose path fails
    [validatePath], and [move_file] whose source or whose destination fails
    it, answer with the error and leave the disk as it was. *)
Theorem handleCallTool_refused_path (fuel : nat) (args : json) (d : disk)
    (e : thrown) :
  (forall data,
      WriteFileArgsSchema schemas args = ParseSuccess data ->
      validatePath (write_path data) d = Throw e ->
      handleCallTool fuel "write_file" args d = Some (errorAnswer e, d))
  /\ (forall dirPath,
        CreateDirectoryArgsSchema schemas args = ParseSuccess dirPath ->
        validatePath dirPath d = Throw e ->
        handleCallTool fuel "create_directory" args d = Some (errorAnswer e, d))
  /\ (forall data,
        MoveFileArgsSchema schemas args = ParseSuccess data ->
        validatePath (move_source data) d = Throw e
        \/ (exists validSourcePath,
               validatePath (move_source data) d = Ok validSourcePath
               /\ validatePath (move_destination data) d = Throw e) ->
        handleCallTool fuel "move_file" args d = Some (errorAnswer e, d)).
Proof.
  unfold handleCallTool, Server.handleCallTool, validatePath.
  split; [|split].
  - intros data Hparse Hpath.
    change (Server.callTool deps more minimatch createTwoFilesPatch schemas
              stringifyTree showDate allowedDirectories fuel "write_file" args d)
      with (match WriteFileArgsSchema schemas args with
            | ParseFailure error =>
                Server.total (Server.invalidArguments "write_file" error)
            | ParseSuccess data =>
                Server.total
                  (validPath <- PathUtils.validatePath deps (write_path data)
                                  allowedDirectories ;;
                   _ <- writeFile (fs deps) validPath (write_content data) ;;
                   ret ("Successfully wrote to " ++ write_path data))
            end d).
    rewrite Hparse. unfold Server.total, bind.
    rewrite validatePath_run. unfold validatePath. now rewrite Hpath.
  - intros dirPath Hparse Hpath.
    change (Server.callTool deps more minimatch createTwoFilesPatch schemas
              stringifyTree showDate allowedDirectories fuel "create_directory"
              args d)
      with (match CreateDirectoryArgsSchema schemas args with
            | ParseFailure error =>
                Server.total (Server.invalidArguments "create_directory" error)
            | ParseSuccess dirPath =>
                Server.total
                  (validPath <- PathUtils.validatePath deps dirPath
                                  allowedDirectories ;;
                   _ <- mkdir more validPath ;;
                   ret ("Successfully created directory " ++ dirPath))
            end d).
    rewrite Hparse. unfold Server.total, bind.
    rewrite validatePath_run. unfold validatePath. now rewrite Hpath.
  - intros data Hparse Hpath.
    change (Server.callTool deps more minimatch createTwoFilesPatch schemas
              stringifyTree showDate allowedDirectories fuel "move_file" args d)
      with (match MoveFileArgsSchema schemas args with
            | ParseFailure error =>
                Server.total (Server.invalidArguments "move_file" error)
            | ParseSuccess data =>
                Server.total
                  (validSourcePath <- PathUtils.validatePath deps
                                        (move_source data) allowedDirectories ;;
                   validDestPath <- PathUtils.validatePath deps
                                      (move_destination data) allowedDirectories ;;
                   _ <- rename more validSourcePath validDestPath ;;
                   ret ("Successfully moved " ++ move_source data ++ " to "
                        ++ move_destination data))
            end d).
    rewrite Hparse. unfold Server.total. unfold bind at 1.
    rewrite validatePath_run. unfold validatePath.
    destruct Hpath as [Hsource|(validSourcePath & Hsource & Hdest)];
      rewrite Hsource; [reflexivity|].
    unfold bind at 1. rewrite validatePath_run. unfold validatePath.
    now rewrite Hdest.
Qed.

End ServerProperties.

Section ServerAnswers.

Context {disk json : Type}.
Variable deps : FileSystemDependencies disk.
Variable more : MoreDependencies disk.
Variable minimatch : string -> string -> bool.
Variable createTwoFilesPatch :
  string -> string -> string -> string -> string -> string -> string.
Variable schemas : Schemas json.
Variable stringifyTree : list TreeEntry -> string.
Variable showDate : N -> string.
Variable allowedDirectories : list string.

Let handleCallTool :=
  Server.handleCallTool deps more minimatch createTwoFilesPatch schemas
    stringifyTree showDate allowedDirectories.

Ltac run_validatePath :=
  match goal with
  | |- context [PathUtils.validatePath deps ?p allowedDirectories ?d] =>
      let H := fresh "Hdisk" in
      pose proof (validatePath_disk deps allowedDirectories p d) as H;
      destruct (PathUtils.validatePath deps p allowedDirectories d) as [? ?];
      cbn [snd] in H; rewrite H in *; clear H
  end.

Ltac run_match :=
  match goal with
  | |- context [match ?x with _ => _ end] =>
      lazymatch x with
      | context [match _ with _ => _ end] => fail
      | _ => destruct x eqn:?
      end
  end.

Ltac run_tool :=
  unfold Server.total, Server.invalidArguments, FileOperations.getFileStats,
    throw, bind, query, ret;
  cbv beta iota zeta;
  repeat (first [run_validatePath | run_match]; cbv beta iota zeta);
  intros; congruence.

(** X24. The tools that read do not change the disk: whatever the
    arguments, after a call of a tool other than [write_file], [edit_file],
    [create_directory] and [move_file] the disk is as it was; and so it is
    after [edit_file] with [dryRun]. *)
Theorem handleCallTool_read_only (fuel : nat) (toolName : string) (args : json)
    (d d' : disk) (answer : Response) :
  handleCallTool fuel toolName args d = Some (answer, d') ->
  (toolName <> "write_file" /\ toolName <> "edit_file"
   /\ toolName <> "create_directory" /\ toolName <> "move_file")
  \/ (toolName = "edit_file"
      /\ exists data, EditFileArgsSchema schemas args = ParseSuccess data
                      /\ edit_dryRun data = true) ->
  d' = d.
Proof.
  unfold handleCallTool, Server.handleCallTool, Server.callTool.
  intros Hrun [(Hw & He & Hc & Hm)|(-> & data & Hparse & Hdry)].
  - revert Hrun.
    destruct (String.eqb_spec toolName "read_file"); [run_tool|].
    destruct (String.eqb_spec toolName "read_multiple_files"); [run_tool|].
    destruct (String.eqb_spec toolName "write_file"); [contradiction|].
    destruct (String.eqb_spec toolName "edit_file"); [contradiction|].
    destruct (String.eqb_spec toolName "create_directory"); [contradiction|].
    destruct (String.eqb_spec toolName "list_directory"); [run_tool|].
    destruct (String.eqb_spec toolName "directory_tree"); [run_tool|].
    destruct (String.eqb_spec toolName "move_file"); [contradiction|].
    destruct (String.eqb_spec toolName "search_files"); [run_tool|].
    destruct (String.eqb_spec toolName "get_file_info"); [run_tool|].
    destruct (String.eqb_spec toolName "list_allowed_directories"); run_tool.
  - cbn [String.eqb Ascii.eqb Bool.eqb] in Hrun. rewrite Hparse in Hrun.
    unfold Server.total in Hrun. rewrite Hdry, applyFileEdits_steps in Hrun.
    revert Hrun.
    destruct (fst _); [|intros; congruence].
    destruct (readFile _ _ _); [|intros; congruence]. cbn zeta.
    destruct (FileEditor.applyEdits _ _); intros; congruence.
Qed.

(** X25. [read_multiple_files] answers for every path, and is never an
    error: the text has one part for each path, in the order of the
    request; the part of a path that [validatePath] returns for and that
    [readFile] reads is the path and the content, and the part of any other
    path is the path and the message of its error, whatever the other
    paths are. The disk is as it was. *)
Theorem handleCallTool_read_multiple_files (fuel : nat) (args : json)
    (paths : list string) (d : disk) :
  ReadMultipleFilesArgsSchema schemas args = ParseSuccess paths ->
  exists parts,
    handleCallTool fuel "read_multiple_files" args d
    = Some ({| text := Js.join (Js.nl ++ "---" ++ Js.nl) parts;
               isError := false |}, d)
    /\ Forall2
         (fun filePath part =>
            match fst (PathUtils.validatePath deps filePath allowedDirectories d) with
            | Ok validPath =>
                match readFile (fs deps) d validPath with
                | Ok content =>
                    part = filePath ++ ":" ++ Js.nl ++ content ++ Js.nl
                | Throw e =>
                    part = filePath ++ ": Error - " ++ Server.errorMessage e
                end
            | Throw e => part = filePath ++ ": Error - " ++ Server.errorMessage e
            end)
         paths parts.
Proof.
  intros Hparse.
  exists (map (fun filePath =>
                 Server.readOne deps allowedDirectories filePath d) paths).
  split.
  - unfold handleCallTool, Server.handleCallTool, Server.callTool.
    cbn [String.eqb Ascii.eqb Bool.eqb]. now rewrite Hparse.
  - clear Hparse.
    induction paths as [|filePath paths IH]; cbn [map]; constructor.
    + unfold Server.readOne.
      destruct (fst _); [|reflexivity].
      destruct (readFile _ _ _); reflexivity.
    + apply IH.
Qed.

(** X26. A request that the [switch] does not serve is answered with an
    error and leaves the disk as it was: arguments that the schema of the
    tool refuses give the error of the schema, before any call of the file
    system, and a name that is not the name of a tool gives "Unknown
    tool". *)
Theorem handleCallTool_bad_request (fuel : nat) (toolName : string)
    (args : json) (d : disk) :
  (forall error,
      toolParseFailure schemas toolName args = Some error ->
      handleCallTool fuel toolName args d
      = Some ({| text := "Error: Invalid arguments for " ++ toolName ++ ": "
                         ++ error;
                 isError := true |}, d))
  /\ (~ In toolName toolNames ->
      handleCallTool fuel toolName args d
      = Some ({| text := "Error: Unknown tool: " ++ toolName; isError := true |},
              d)).
Proof.
  unfold handleCallTool, Server.handleCallTool, Server.callTool,
    toolParseFailure, toolNames.
  split.
  - intros error.
    repeat match goal with
           | |- context [String.eqb toolName ?t] =>
               destruct (String.eqb_spec toolName t) as [->|?];
               [match goal with
                | |- parseFailure ?p = _ -> _ =>
                    destruct p; cbn [parseFailure]; intros [= <-]; reflexivity
                end|]
           end.
    discriminate.
  - intros Hnot.
    repeat match goal with
           | |- context [String.eqb toolName ?t] =>
               destruct (String.eqb_spec toolName t) as [->|?];
               [exfalso; apply Hnot; cbn; tauto|]
           end.
    reflexivity.
Qed.

End ServerAnswers.

Section ServerStart.

Context {disk : Type}.
Variable deps : FileSystemDependencies disk.
Variable more : MoreDependencies disk.
Variable allowedDirectories : list string.


End ServerStart.

(** *** The server on the project *)

(** Some answers of the server. *)
Example projectServer_answers :
  projectServer 3 "read_file" (PathArgs "/allowed/dir/README.md") projectDisk
  = Some ({| text := "# project"; isError := false |}, projectDisk)
  /\ projectServer 3 "list_directory" (PathArgs "/allowed/dir/src") projectDisk
     = Some ({| text := "[FILE] Readme.txt" ++ Js.nl ++ "[FILE] main.ts";
                isError := false |}, projectDisk)
  /\ projectServer 3 "search_files" (SearchArgs "/allowed/dir" "zzz" [])
       projectDisk
     = Some ({| text := "No matches found"; isError := false |}, projectDisk)
  /\ projectServer 3 "get_file_info" (PathArgs "/allowed/dir/README.md")
       projectDisk
     = Some ({| text := "size: 9" ++ Js.nl ++ "created: 1000" ++ Js.nl
                        ++ "modified: 2000" ++ Js.nl ++ "accessed: 3000" ++ Js.nl
                        ++ "isDirectory: false" ++ Js.nl ++ "isFile: true"
                        ++ Js.nl ++ "permissions: 644";
                isError := false |}, projectDisk)
  /\ projectServer 3 "directory_tree" (PathArgs "/allowed/dir/src") projectDisk
     = Some ({| text := "Readme.txt;main.ts;"; isError := false |}, projectDisk).
Proof. repeat split. Qed.

(** A write outside the allowed directory, and a move to the outside. *)
Lemma handleCallTool_refused_path_witness :
  projectServer 3 "write_file" (WriteArgs "/etc/passwd" "x") projectDisk
  = Some ({| text := "Error: Access denied - path outside allowed directories: "
                     ++ "/etc/passwd not in /allowed/dir";
             isError := true |}, projectDisk)
  /\ projectServer 3 "move_file"
       (MoveArgs "/allowed/dir/README.md" "/etc/README.md") projectDisk
     = Some ({| text := "Error: Access denied - path outside allowed directories: "
                        ++ "/etc/README.md not in /allowed/dir";
                isError := true |}, projectDisk).
Proof.
  split.
  - apply (proj1 (handleCallTool_refused_path plainDeps projectMore stubMinimatch
                    stubPatch mockSchemas stubStringify stubDate ["/allowed/dir"]
                    3 (WriteArgs "/etc/passwd" "x") projectDisk
                    (PathUtils.accessDeniedRequested "/etc/passwd" ["/allowed/dir"]))
                 {| write_path := "/etc/passwd"; write_content := "x" |});
      reflexivity.
  - apply (proj2 (proj2 (handleCallTool_refused_path plainDeps projectMore
                           stubMinimatch stubPatch mockSchemas stubStringify
                           stubDate ["/allowed/dir"] 3
                           (MoveArgs "/allowed/dir/README.md" "/etc/README.md")
                           projectDisk
                           (PathUtils.accessDeniedRequested "/etc/README.md"
                              ["/allowed/dir"])))
                 {| move_source := "/allowed/dir/README.md";
                    move_destination := "/etc/README.md" |});
      [reflexivity|].
    right. exists "/allowed/dir/README.md". split; reflexivity.
Defined.

(** The disk after a search. *)
Lemma handleCallTool_read_only_witness :
  option_map snd
    (projectServer 3 "search_files" (SearchArgs "/allowed/dir" "readme" [])
       projectDisk)
  = Some projectDisk.
Proof.
  destruct (projectServer 3 "search_files" (SearchArgs "/allowed/dir" "readme" [])
              projectDisk) as [[answer d']|] eqn:Hrun.
  - cbn [option_map snd]. f_equal.
    apply (handleCallTool_read_only plainDeps projectMore stubMinimatch stubPatch
             mockSchemas stubStringify stubDate ["/allowed/dir"] 3 "search_files"
             (SearchArgs "/allowed/dir" "readme" []) projectDisk d' answer Hrun).
    left. repeat split; discriminate.
  - vm_compute in Hrun. discriminate Hrun.
Defined.

(** A file of the project and a path outside it, in one request. *)
Lemma handleCallTool_read_multiple_files_witness :
  exists parts,
    projectServer 3 "read_multiple_files"
      (PathsArgs ["/allowed/dir/README.md"; "/etc/passwd"]) projectDisk
    = Some ({| text := Js.join (Js.nl ++ "---" ++ Js.nl) parts;
               isError := false |}, projectDisk)
    /\ length parts = 2.
Proof.
  destruct (handleCallTool_read_multiple_files plainDeps projectMore
              stubMinimatch stubPatch mockSchemas stubStringify stubDate
              ["/allowed/dir"] 3
              (PathsArgs ["/allowed/dir/README.md"; "/etc/passwd"])
              ["/allowed/dir/README.md"; "/etc/passwd"] projectDisk eq_refl)
    as (parts & Hrun & Hparts).
  exists parts. split; [exact Hrun|].
  now rewrite <- (Forall2_length Hparts).
Defined.

(** A tool that is not there, and a tool without its arguments. *)
Lemma handleCallTool_bad_request_witness :
  projectServer 3 "delete_file" (PathArgs "/allowed/dir/README.md") projectDisk
  = Some ({| text := "Error: Unknown tool: delete_file"; isError := true |},
          projectDisk)
  /\ projectServer 3 "write_file" NoArgs projectDisk
     = Some ({| text := "Error: Invalid arguments for write_file: content: Required";
                isError := true |}, projectDisk).
Proof.
  split.
  - apply (proj2 (handleCallTool_bad_request plainDeps projectMore stubMinimatch
                    stubPatch mockSchemas stubStringify stubDate ["/allowed/dir"]
                    3 "delete_file" (PathArgs "/allowed/dir/README.md")
                    projectDisk)).
    cbn. intros H. repeat (destruct H as [H|H]; [discriminate H|]). exact H.
  - apply (proj1 (handleCallTool_bad_request plainDeps projectMore stubMinimatch
                    stubPatch mockSchemas stubStringify stubDate ["/allowed/dir"]
                    3 "write_file" NoArgs projectDisk) "content: Required").
    reflexivity.
Defined.


(** ** Dollar signs in the new text *)

Lemma getSubstitution_escapeDollar (matched before after literal : string) :
  Js.getSubstitution matched before after (escapeDollar literal) = literal.
Proof.
  induction literal as [|c literal IH]; [reflexivity|].
  cbn [escapeDollar]. destruct (Ascii.eqb c "$") eqn:E.
  - apply Ascii.eqb_eq in E; subst c.
    cbn [Js.getSubstitution]. cbn. now rewrite IH.
  - cbn [Js.getSubstitution]. rewrite E. cbn zeta. now rewrite IH.
Qed.

(** X28. A new text in which every dollar sign is doubled is put in with
    single dollar signs: when the old text occurs in the content and the
    normalized new text is a text with its dollar signs doubled, the exact
    strategy replaces the first occurrence by that text as it is. *)
Theorem applyEdit_exact_escaped (modifiedContent literal : string) (edit : Edit) :
  let normalizedOld := FileEditor.normalizeLineEndings (oldText edit) in
  Js.includes modifiedContent normalizedOld = true ->
  FileEditor.normalizeLineEndings (newText edit) = escapeDollar literal ->
  exists i,
    Js.indexOf modifiedContent normalizedOld = Some i
    /\ FileEditor.applyEdit modifiedContent edit
       = Ok (Js.slice_to i modifiedContent ++ literal
             ++ Js.slice_from (i + String.length normalizedOld) modifiedContent).
Proof.
  intros normalizedOld Hinc Hnew.
  rewrite applyEdit_exact by exact Hinc. fold normalizedOld. rewrite Hnew.
  unfold Js.includes in Hinc. unfold Js.replace.
  destruct (Js.indexOf modifiedContent normalizedOld) as [i|]; [|discriminate].
  exists i. split; [reflexivity|]. cbn zeta.
  now rewrite getSubstitution_escapeDollar.
Qed.

Lemma applyEdit_exact_escaped_witness :
  FileEditor.applyEdit "total: AMOUNT" {| oldText := "AMOUNT"; newText := "$$$$5" |}
  = Ok "total: $$5".
Proof.
  destruct (applyEdit_exact_escaped "total: AMOUNT" "$$5"
              {| oldText := "AMOUNT"; newText := "$$$$5" |} eq_refl eq_refl)
    as (i & Hi & Hrun).
  injection Hi as <-. exact Hrun.
Defined.

(** ** directory_tree *)

Section DirectoryTree.

Context {disk : Type}.
Variable deps : FileSystemDependencies disk.
Variable more : MoreDependencies disk.
Variable allowedDirectories : list string.

Let buildTree := Server.buildTree deps more allowedDirectories.

(** The node of the tree for an entry of the directory [currentPath]. *)
Let nodeOf (fuel : nat) (d : disk) (currentPath : string) (entry : Dirent)
    (node : TreeEntry) : Prop :=
  match node with
  | FileEntry entryName =>
      entryName = name entry /\ dirent_isDirectory entry = false
  | DirectoryEntry entryName children =>
      entryName = name entry /\ dirent_isDirectory entry = true
      /\ buildTree fuel d (join (path deps) [currentPath; name entry])
         = Some (Ok children)
  end.

Lemma buildEntries_ok (fuel : nat) (d : disk) (currentPath : string)
    (entries : list Dirent) (tree : list TreeEntry) :
  Server.buildEntries deps (buildTree fuel d) currentPath entries = Some (Ok tree)
  <-> Forall2 (nodeOf fuel d currentPath) entries tree.
Proof.
  revert tree. induction entries as [|entry entries IH]; intros tree.
  - cbn. split; [intros [= <-]; constructor|inversion 1; reflexivity].
  - cbn [Server.buildEntries]. cbn zeta.
    destruct (dirent_isDirectory entry) eqn:Hdir.
    + destruct (buildTree fuel d _) as [[children|e]|] eqn:Hsub.
      * destruct (Server.buildEntries deps (buildTree fuel d) currentPath entries)
          as [[rest|e]|] eqn:Hrest.
        -- split.
           ++ intros [= <-]. constructor; [|now apply IH].
              cbn. repeat split; assumption.
           ++ inversion 1 as [|? node ? rest' Hnode Hrest']; subst.
              apply IH in Hrest'. injection Hrest' as ->.
              destruct node as [n|n children']; cbn in Hnode.
              ** destruct Hnode; congruence.
              ** destruct Hnode as (-> & _ & Hsub'). rewrite Hsub in Hsub'.
                 now injection Hsub' as ->.
        -- split; [discriminate|].
           inversion 1 as [|? node ? rest' Hnode Hrest']; subst.
           apply IH in Hrest'. discriminate.
        -- split; [discriminate|].
           inversion 1 as [|? node ? rest' Hnode Hrest']; subst.
           apply IH in Hrest'. discriminate.
      * split; [discriminate|].
        inversion 1 as [|? node ? rest' Hnode Hrest']; subst.
        destruct node as [n|n children']; cbn in Hnode;
          [destruct Hnode; congruence|].
        destruct Hnode as (_ & _ & Hsub'). rewrite Hsub in Hsub'. discriminate.
      * split; [discriminate|].
        inversion 1 as [|? node ? rest' Hnode Hrest']; subst.
        destruct node as [n|n children']; cbn in Hnode;
          [destruct Hnode; congruence|].
        destruct Hnode as (_ & _ & Hsub'). rewrite Hsub in Hsub'. discriminate.
    + destruct (Server.buildEntries deps (buildTree fuel d) currentPath entries)
        as [[rest|e]|] eqn:Hrest.
      * split.
        -- intros [= <-]. constructor; [|now apply IH]. cbn. now split.
        -- inversion 1 as [|? node ? rest' Hnode Hrest']; subst.
           apply IH in Hrest'. injection Hrest' as ->.
           destruct node as [n|n children']; cbn in Hnode.
           ++ now destruct Hnode as [-> _].
           ++ destruct Hnode as (_ & Hd & _). congruence.
      * split; [discriminate|].
        inversion 1 as [|? node ? rest' Hnode Hrest']; subst.
        apply IH in Hrest'. discriminate.
      * split; [discriminate|].
        inversion 1 as [|? node ? rest' Hnode Hrest']; subst.
        apply IH in Hrest'. discriminate.
Qed.

(** X29. The tree of a directory, when [buildTree] returns one: the
    directory passes [validatePath], [readdir] lists the validated path, and
    the tree has one node for each entry, in the order of the listing, a
    file node for an entry that is no directory and, for a directory, a node
    whose children are the tree of the path of the directory joined with the
    name of the entry. There is a tree only if there is one for every
    directory below. *)
Theorem buildTree_shape (fuel : nat) (d : disk) (currentPath : string)
    (tree : list TreeEntry) :
  buildTree (S fuel) d currentPath = Some (Ok tree)
  <-> exists validPath entries,
        fst (PathUtils.validatePath deps currentPath allowedDirectories d)
        = Ok validPath
        /\ readdir more d validPath = Ok entries
        /\ Forall2
             (fun entry node =>
                match node with
                | FileEntry entryName =>
                    entryName = name entry /\ dirent_isDirectory entry = false
                | DirectoryEntry entryName children =>
                    entryName = name entry /\ dirent_isDirectory entry = true
                    /\ buildTree fuel d
                         (join (path deps) [currentPath; name entry])
                       = Some (Ok children)
                end)
             entries tree.
Proof.
  unfold buildTree at 1. cbn [Server.buildTree].
  destruct (fst (PathUtils.validatePath deps currentPath allowedDirectories d))
    as [validPath|e].
  2:{ split; [discriminate|]. intros (v & es & H & _). discriminate. }
  destruct (readdir more d validPath) as [entries|e] eqn:Hdir.
  2:{ split; [discriminate|]. intros (v & es & [= <-] & H & _). congruence. }
  fold (buildTree fuel d). rewrite buildEntries_ok. split.
  - intros H. now exists validPath, entries.
  - intros (v & es & [= <-] & H & Hall). rewrite Hdir in H.
    now injection H as <-.
Qed.

End DirectoryTree.

Lemma buildTree_shape_witness :
  Server.buildTree plainDeps projectMore ["/allowed/dir"] 2 projectDisk
    "/allowed/dir/src"
  = Some (Ok [FileEntry "Readme.txt"; FileEntry "main.ts"]).
Proof.
  apply (proj2 (buildTree_shape plainDeps projectMore ["/allowed/dir"] 1
                  projectDisk "/allowed/dir/src"
                  [FileEntry "Readme.txt"; FileEntry "main.ts"])).
  exists "/allowed/dir/src",
         [ {| name := "Readme.txt"; dirent_isDirectory := false |};
           {| name := "main.ts"; dirent_isDirectory := false |} ].
  split; [reflexivity|]. split; [reflexivity|].
  repeat constructor.
Defined.

(** *** More runs on the test doubles *)

(** Two instructions, the second one on the result of the first. *)
Lemma applyEdits_sequential_witness :
  FileEditor.applyEdits "one two"
    ([ {| oldText := "one"; newText := "two" |} ]
     ++ [ {| oldText := "two"; newText := "three" |} ])%list
  = Ok "three two".
Proof.
  apply (proj2 (applyEdits_sequential "one two" "three two"
                  [ {| oldText := "one"; newText := "two" |} ]
                  [ {| oldText := "two"; newText := "three" |} ])).
  exists "two two". split; reflexivity.
Defined.

(** The second of two windows that match is not the one that is found. *)
Lemma findWindow_first_trimmed_match_witness :
  FileEditor.findWindow ["begin"; "  x = 1"; "end"; "x = 1"] ["x = 1  "] = Some 1.
Proof.
  apply (proj2 (findWindow_first_trimmed_match
                  ["begin"; "  x = 1"; "end"; "x = 1"] ["x = 1  "] 1)).
  split; [cbn; lia|]. split; [repeat constructor|].
  intros k Hk Hmatch. destruct k as [|k]; [|lia].
  inversion Hmatch as [|? ? ? ? Hline _]; subst. discriminate Hline.
Defined.

(** A search from a root outside the allowed directory. *)
Lemma searchFiles_throws_iff_witness :
  FileOperations.searchFiles plainDeps projectMore stubMinimatch ["/allowed/dir"]
    1 "/etc" "readme" [] projectDisk
  = Some (Throw (PathUtils.accessDeniedRequested "/etc" ["/allowed/dir"])).
Proof.
  apply (proj2 (searchFiles_throws_iff plainDeps projectMore stubMinimatch
                  ["/allowed/dir"] 0 "/etc" "readme" [] projectDisk
                  (PathUtils.accessDeniedRequested "/etc" ["/allowed/dir"]))).
  left. reflexivity.
Defined.
